(** * Journey workflow engine: the orchestrator, its interpolator and its
      structured condition evaluator, embedded from
      [backend/src/journey/orchestrator.py], [utils.py] and [tool_registry.py].

    Conventions of the embedding.

    - Python values are the inductive [value]; a [dict] is an association list
      in insertion order with string keys (the documents are YAML/JSON), and
      so is the variable store: the name of a variable is a string. A float
      is an IEEE binary64 number, [spec_float].
    - Values are trees. One list held by two variables is two values here:
      an append in place is seen by the variable it is made on, and no
      statement is made about another variable that shares the list.
    - The workflow document and the session have the shape the engine reads:
      nodes with an identifier and blocks, rules with [variable], [operator],
      [value], [then] and [else], a session with [current_node_id],
      [current_block_index], [variables] and [pending_action]. The fields of
      a block or of an action are any values.
    - Text is [string], a sequence of code points below 256 (Latin-1): on
      these the classes [\w] and [\s], [str.strip] and [str.lower] are
      Python's own. The character of code [n] is [ascii_of_nat n], so
      the e with an acute accent is ["233"%char]. Text with a code point
      from 256 on is not represented.
    - A Python exception is a constructor of [exn]; code that can raise
      returns a [result]; code that also mutates the session runs in the
      monad [M], whose state survives a raise as a mutated Python dict does.
    - Python's recursion limit is the [depth] argument of [get_next_step]:
      when it is exhausted the call raises [RecursionError].
    - What the engine takes from its environment is a field of the class
      [Env]: the parsing and printing of floats, [repr] of a string,
      [ast.literal_eval], the stream of [uuid.uuid4()] results and the
      digit limit of [str] on integers. Every theorem holds for every
      environment.
    - The log lines print values, and printing an integer beyond the digit
      limit raises [ValueError]. The lines are part of the condition
      evaluator, where they stand outside the handler and decide whether
      it raises. Elsewhere the values are those of a parsed document or
      session, which the parser has read under the same limit, and the log
      lines are left out. *)

From Stdlib Require Import ZArith List String Ascii Bool Lia Arith.
From Stdlib Require Import DecimalString.
From Stdlib Require Import Floats.SpecFloat.
Import ListNotations.

Open Scope list_scope.
Open Scope string_scope.

(** ** Text *)

Module PyStr.

Definition code (c : ascii) : nat := nat_of_ascii c.

Definition between (lo hi : nat) (c : ascii) : bool :=
  (lo <=? code c)%nat && (code c <=? hi)%nat.

(** [str.isspace], the class [\s] and what [str.strip] removes, below 256:
    TAB..CR, FS..US, the blank, NEL and the no-break space. *)
Definition is_space (c : ascii) : bool :=
  between 9 13 c || between 28 32 c || (code c =? 133)%nat || (code c =? 160)%nat.

(** The characters [str.lower] changes, below 256: [A]..[Z] and the
    capital letters of Latin-1 (the multiplication sign lies among them
    and is none). *)
Definition is_upper (c : ascii) : bool :=
  between 65 90 c || (between 192 222 c && negb (code c =? 215)%nat).

(** [\w] on text, below 256: the underscore and what [str.isalnum]
    accepts, that is the digits, the letters of ASCII and of Latin-1
    (with the ordinal indicators and the micro sign), the superscript
    digits and the three vulgar fractions. *)
Definition is_word (c : ascii) : bool :=
  between 48 57 c || between 65 90 c || between 97 122 c || (code c =? 95)%nat
  || (code c =? 170)%nat || between 178 179 c || (code c =? 181)%nat
  || between 185 186 c || between 188 190 c
  || between 192 214 c || between 216 246 c || between 248 255 c.

(** The class [[\w\s]] of both placeholder patterns. *)
Definition is_name_char (c : ascii) : bool := is_word c || is_space c.

Definition lower_char (c : ascii) : ascii :=
  if is_upper c then ascii_of_nat (code c + 32) else c.

Fixpoint lower (s : string) : string :=
  match s with
  | EmptyString => EmptyString
  | String c r => String (lower_char c) (lower r)
  end.

Definition is_empty (s : string) : bool :=
  match s with EmptyString => true | _ => false end.

Fixpoint lstrip (s : string) : string :=
  match s with
  | String c r => if is_space c then lstrip r else s
  | EmptyString => EmptyString
  end.

Fixpoint rstrip (s : string) : string :=
  match s with
  | EmptyString => EmptyString
  | String c r =>
      let r' := rstrip r in
      if is_space c && is_empty r' then EmptyString else String c r'
  end.

Definition strip (s : string) : string := rstrip (lstrip s).

Fixpoint startswith (p s : string) : bool :=
  match p, s with
  | EmptyString, _ => true
  | String a p', String b s' => Ascii.eqb a b && startswith p' s'
  | String _ _, EmptyString => false
  end.

Definition endswith (p s : string) : bool :=
  startswith (string_of_list_ascii (rev (list_ascii_of_string p)))
             (string_of_list_ascii (rev (list_ascii_of_string s))).

(** [p in s] on strings. *)
Fixpoint contains (p s : string) : bool :=
  startswith p s ||
  match s with
  | EmptyString => false
  | String _ r => contains p r
  end.

Fixpoint has_char (c : ascii) (s : string) : bool :=
  match s with
  | EmptyString => false
  | String a r => Ascii.eqb a c || has_char c r
  end.

Fixpoint join (sep : string) (l : list string) : string :=
  match l with
  | [] => ""
  | [x] => x
  | x :: r => x ++ sep ++ join sep r
  end.

(** [s.replace(old, new)]: the occurrences of [old] are found from the
    left and do not overlap; [skip] counts the characters of a found
    occurrence that are still to be passed over. *)
Fixpoint replace_from (skip : nat) (old new s : string) : string :=
  match s with
  | EmptyString => EmptyString
  | String c r =>
      match skip with
      | S k => replace_from k old new r
      | O =>
          if startswith old s
          then new ++ replace_from (String.length old - 1) old new r
          else String c (replace_from 0 old new r)
      end
  end.

Fixpoint intersperse (new s : string) : string :=
  match s with
  | EmptyString => EmptyString
  | String c r => String c (new ++ intersperse new r)
  end.

Definition replace (old new s : string) : string :=
  if is_empty old then new ++ intersperse new s
  else replace_from 0 old new s.

(** The longest prefix made of characters of the class, and the rest. *)
Fixpoint span (p : ascii -> bool) (s : string) : string * string :=
  match s with
  | String c r =>
      if p c then let '(a, b) := span p r in (String c a, b)
      else (EmptyString, s)
  | EmptyString => (EmptyString, EmptyString)
  end.

(** [str(n)] of an integer. *)
Definition str_of_Z (n : Z) : string := NilZero.string_of_int (Z.to_int n).

End PyStr.

(** ** Values, exceptions and results *)

#[local] Set Warnings "-register-all".

Inductive value : Type :=
| VNone
| VBool (b : bool)
| VInt (n : Z)
| VFloat (f : spec_float)
| VStr (s : string)
| VList (l : list value)
| VDict (d : list (string * value)).

(** A Python [dict] with string keys, in insertion order. *)
Definition dict : Type := list (string * value).

(** The exceptions the engine can meet; [ToolError] is whatever a registered
    callable raises. All of them are subclasses of [Exception]. *)
Inductive exn : Type :=
| KeyError | IndexError | AttributeError | TypeError | ValueError
| OverflowError | RecursionError
| ToolError (msg : string).

Inductive result (A : Type) : Type :=
| Ok (a : A)
| Raise (e : exn).
Arguments Ok {A} a.
Arguments Raise {A} e.

Definition exn_eqb (a b : exn) : bool :=
  match a, b with
  | KeyError, KeyError | IndexError, IndexError
  | AttributeError, AttributeError | TypeError, TypeError
  | ValueError, ValueError | OverflowError, OverflowError
  | RecursionError, RecursionError => true
  | ToolError x, ToolError y => String.eqb x y
  | _, _ => false
  end.

(** [try: body except (e1, ...): handler]. *)
Definition try_except {A : Type} (body : result A) (caught : list exn)
    (handler : result A) : result A :=
  match body with
  | Ok a => Ok a
  | Raise e => if existsb (exn_eqb e) caught then handler else Raise e
  end.

(** [try: body except Exception: handler]. *)
Definition try_except_Exception {A : Type} (body : result A)
    (handler : exn -> result A) : result A :=
  match body with
  | Ok a => Ok a
  | Raise e => handler e
  end.

Definition bind_result {A B : Type} (r : result A) (k : A -> result B) : result B :=
  match r with
  | Ok a => k a
  | Raise e => Raise e
  end.

(** ** Dictionaries *)

Fixpoint dict_get (d : dict) (k : string) : option value :=
  match d with
  | [] => None
  | (k', v) :: r => if String.eqb k' k then Some v else dict_get r k
  end.

(** [d.get(k, default)]. *)
Definition dict_get_default (d : dict) (k : string) (default : value) : value :=
  match dict_get d k with Some v => v | None => default end.

(** [d[k]]. *)
Definition dict_getitem (d : dict) (k : string) : result value :=
  match dict_get d k with Some v => Ok v | None => Raise KeyError end.

(** [d[k] = v]: in place when the key is there, at the end otherwise. *)
Fixpoint dict_set (d : dict) (k : string) (v : value) : dict :=
  match d with
  | [] => [(k, v)]
  | (k', v') :: r =>
      if String.eqb k' k then (k', v) :: r else (k', v') :: dict_set r k v
  end.

(** ** What the engine takes from its environment *)

Class Env : Type := {
  (** [float(s)] of a string: [None] is [ValueError]. *)
  float_of_str : string -> option spec_float;
  (** [str(x)] of a float. *)
  str_of_float : spec_float -> string;
  (** [repr(s)] of a string: the quoted form. *)
  repr_str : string -> string;
  (** [ast.literal_eval(s)] when the literal is a list: [None] is any
      exception. *)
  literal_eval_list : string -> option (list value);
  (** The successive results of [str(uuid.uuid4())]. *)
  uuid4 : nat -> string;
  (** [sys.get_int_max_str_digits()]: the longest integer, in decimal
      digits, that [str] and [repr] print; 0 is no limit. On a longer one
      they raise [ValueError]. *)
  int_max_str_digits : nat
}.

Section Builtins.
Context {E : Env}.

(** [repr(v)]. *)
Fixpoint py_repr (v : value) : string :=
  match v with
  | VNone => "None"
  | VBool true => "True"
  | VBool false => "False"
  | VInt n => PyStr.str_of_Z n
  | VFloat f => str_of_float f
  | VStr s => repr_str s
  | VList l => "[" ++ PyStr.join ", " (map py_repr l) ++ "]"
  | VDict d =>
      "{" ++ PyStr.join ", "
               (map (fun '(k, x) => repr_str k ++ ": " ++ py_repr x) d) ++ "}"
  end.

(** [str(v)]. *)
Definition py_str (v : value) : string :=
  match v with
  | VStr s => s
  | _ => py_repr v
  end.

(** [str(n)] returns: the integer is within the digit limit. *)
Definition int_printable (n : Z) : bool :=
  (int_max_str_digits =? 0)%nat
  || (String.length (PyStr.str_of_Z (Z.abs n)) <=? int_max_str_digits)%nat.

(** [str(v)] and [repr(v)] return: no integer inside [v] is beyond the
    limit. *)
Fixpoint printable (v : value) : bool :=
  match v with
  | VInt n => int_printable n
  | VList l => forallb printable l
  | VDict d => forallb (fun kx => printable (snd kx)) d
  | _ => true
  end.

(** [f"{v}"], a value formatted for a log line: [ValueError] when [str(v)]
    raises. *)
Definition py_format (v : value) : result string :=
  if printable v then Ok (py_str v) else Raise ValueError.

(** A key a dict accepts: lists and dicts are unhashable. *)
Definition hashable (v : value) : bool :=
  match v with
  | VList _ | VDict _ => false
  | _ => true
  end.

(** Truth value of [v], as [if v:] and [not v] test it. *)
Definition truthy (v : value) : bool :=
  match v with
  | VNone => false
  | VBool b => b
  | VInt n => negb (n =? 0)%Z
  | VFloat (S754_zero _) => false
  | VFloat _ => true
  | VStr s => negb (PyStr.is_empty s)
  | VList l => match l with [] => false | _ => true end
  | VDict d => match d with [] => false | _ => true end
  end.

(** [v == s] for a string literal [s]. *)
Definition is_str (v : value) (s : string) : bool :=
  match v with
  | VStr t => String.eqb t s
  | _ => false
  end.

(** [float(n)] of an integer: the nearest double, [OverflowError] beyond
    the range. *)
Definition float_of_int (n : Z) : result spec_float :=
  match binary_normalize 53 1024 n 0 false with
  | S754_infinity _ => Raise OverflowError
  | f => Ok f
  end.

(** [float(v)]. *)
Definition py_float (v : value) : result spec_float :=
  match v with
  | VFloat f => Ok f
  | VInt n => float_of_int n
  | VBool b => float_of_int (if b then 1 else 0)
  | VStr s =>
      match float_of_str s with
      | Some f => Ok f
      | None => Raise ValueError
      end
  | VNone | VList _ | VDict _ => Raise TypeError
  end.

End Builtins.

(** ** Interpolator ([utils.py]) and call parser *)

Section Interpolator.
Context {E : Env}.

(** The pattern [\{([\w\s]+)\}] tried at the head of [s]: the name of
    the placeholder that starts there. The class holds neither brace, so
    the greedy run is the only candidate. *)
Definition placeholder_at (s : string) : option string :=
  match s with
  | String "{" r =>
      match PyStr.span PyStr.is_name_char r with
      | (String c n, String "}" _) => Some (String c n)
      | _ => None
      end
  | _ => None
  end.

(** [re.findall(r'\{([\w\s]+)\}', text)]: the scan restarts after a
    match and one character further after a failure. *)
Fixpoint findall_from (skip : nat) (s : string) : list string :=
  match s with
  | EmptyString => []
  | String _ r =>
      match skip with
      | S k => findall_from k r
      | O =>
          match placeholder_at s with
          | Some name => name :: findall_from (S (String.length name)) r
          | None => findall_from 0 r
          end
      end
  end.

Definition findall_placeholders (text : string) : list string :=
  findall_from 0 text.

(** One turn of the loop of [interpolate_variables]. *)
Definition interpolate_step (variables : dict) (text var_name : string) : string :=
  match dict_get variables var_name with
  | Some VNone => text
  | Some v => PyStr.replace ("{" ++ var_name ++ "}") (py_str v) text
  | None => text
  end.

Definition interpolate_text (text : string) (variables : dict) : string :=
  fold_left (interpolate_step variables) (findall_placeholders text) text.

(** [interpolate_variables(text, variables)]. *)
Definition interpolate_variables (text : value) (variables : dict) : value :=
  match text with
  | VStr s => VStr (interpolate_text s variables)
  | _ => text
  end.

(** [re.match(r'^\{([\w\s]+)\}$', s)]: [$] also matches before a final
    newline. *)
Definition single_var_match (s : string) : option string :=
  match s with
  | String "{" r =>
      match PyStr.span PyStr.is_name_char r with
      | (String c n, "}") => Some (String c n)
      | (String c n, String "}" (String "010" EmptyString)) => Some (String c n)
      | _ => None
      end
  | _ => None
  end.

(** [Orchestrator._interpolate_with_types]. *)
Definition _interpolate_with_types (v : value) (variables : dict) : value :=
  match v with
  | VStr s =>
      match single_var_match (PyStr.strip s) with
      | Some var_name =>
          match dict_get variables var_name with
          | Some x => x
          | None => interpolate_variables v variables
          end
      | None => interpolate_variables v variables
      end
  | _ => v
  end.

(** [Orchestrator._interpolate_args_deep]. *)
Fixpoint _interpolate_args_deep (v : value) (variables : dict) : value :=
  match v with
  | VDict d =>
      VDict (map (fun '(k, x) => (k, _interpolate_args_deep x variables)) d)
  | VList l => VList (map (fun x => _interpolate_args_deep x variables) l)
  | _ => _interpolate_with_types v variables
  end.

(** The last character of a text and what precedes it. *)
Fixpoint unsnoc (s : string) : option (string * ascii) :=
  match s with
  | EmptyString => None
  | String c r =>
      match unsnoc r with
      | None => Some (EmptyString, c)
      | Some (i, l) => Some (String c i, l)
      end
  end.

(** The pattern of [parse_function_call], matched at the head of [s]: a
    run of word characters, an opening parenthesis, any text without a
    newline, and a closing parenthesis at the end (or before a final
    newline). The result is the name and the text between the
    parentheses. *)
Definition call_match (s : string) : option (string * string) :=
  match PyStr.span PyStr.is_word s with
  | (String c n, String "(" r) =>
      let r0 :=
        match unsnoc r with
        | Some (i, "010"%char) => i
        | _ => r
        end in
      match unsnoc r0 with
      | Some (inner, ")"%char) =>
          if PyStr.has_char "010" inner then None
          else Some (String c n, inner)
      | _ => None
      end
  | _ => None
  end.

(** [parse_function_call(call_string)] on a string. *)
Definition parse_function_call (call_string : string)
    : option string * list value :=
  match call_match (PyStr.strip call_string) with
  | None => (None, [])
  | Some (func_name, inner) =>
      let args_str := PyStr.strip inner in
      if PyStr.is_empty args_str then (Some func_name, [])
      else
        match literal_eval_list ("[" ++ args_str ++ "]") with
        | Some args => (Some func_name, args)
        | None => (Some func_name, [VStr args_str])
        end
  end.

End Interpolator.

(** ** Condition evaluator *)

(** A rule of a CONDITION block; an absent key is [None]. *)
Record rule : Type := mkRule {
  rule_variable : option value;
  rule_operator : option value;
  rule_value : option value;
  rule_then : option (list dict);
  rule_else : option (list dict)
}.

Section ConditionEvaluator.
Context {E : Env}.

(** [try: result = cmp(float(a), float(b)) except (ValueError, TypeError):
    result = False]. *)
Definition compare_as_float (cmp : spec_float -> spec_float -> bool)
    (a b : value) : result bool :=
  try_except
    (bind_result (py_float a) (fun x =>
     bind_result (py_float b) (fun y => Ok (cmp x y))))
    [ValueError; TypeError]
    (Ok false).

Definition lowered (v : value) : string := PyStr.lower (py_str v).

(** [rule.get('variable', '')], [rule.get('operator', 'equals')] and
    [rule.get('value', '')]: any value of the document. *)
Definition variable_of (r : rule) : value :=
  match rule_variable r with Some x => x | None => VStr "" end.

Definition operator_of (r : rule) : value :=
  match rule_operator r with Some x => x | None => VStr "equals" end.

Definition value_of (r : rule) : value :=
  match rule_value r with Some x => x | None => VStr "" end.

(** [variables.get(variable, default)]: an unhashable key is a
    [TypeError]; the store has string keys, so a hashable key that is
    not a string is not there. *)
Definition variables_get (variables : dict) (variable default : value)
    : result value :=
  match variable with
  | VStr s => Ok (dict_get_default variables s default)
  | VList _ | VDict _ => Raise TypeError
  | _ => Ok default
  end.

(** The body of the [try] of [_evaluate_structured_condition]. *)
Definition condition_body (operator : string) (variable_value value : value)
    : result bool :=
  let op := String.eqb operator in
  if op "equals" || op "==" then
    Ok (String.eqb (lowered variable_value) (lowered value))
  else if op "not_equals" || op "!=" then
    Ok (negb (String.eqb (lowered variable_value) (lowered value)))
  else if op "is_true" then
    Ok (match variable_value with VBool true => true | _ => false end
        || String.eqb (lowered variable_value) "true")
  else if op "is_false" then
    Ok (match variable_value with VBool false => true | _ => false end
        || String.eqb (lowered variable_value) "false")
  else if op "contains" then
    Ok (PyStr.contains (lowered value) (lowered variable_value))
  else if op "starts_with" then
    Ok (PyStr.startswith (lowered value) (lowered variable_value))
  else if op "ends_with" then
    Ok (PyStr.endswith (lowered value) (lowered variable_value))
  else if op "greater_than" then
    compare_as_float (fun x y => SFltb y x) variable_value value
  else if op "less_than" then
    compare_as_float SFltb variable_value value
  else if op "greater_than_or_equal" then
    compare_as_float (fun x y => SFleb y x) variable_value value
  else if op "less_than_or_equal" then
    compare_as_float SFleb variable_value value
  else Ok false.

(** [Orchestrator._evaluate_structured_condition]. The two log lines
    and the lookup of the variable stand before the [try]: what they
    raise leaves the function. Inside the [try] the operator is compared
    with the names of the operators, which a value that is no string
    never equals, and [str] is applied to values the log lines have
    printed already. *)
Definition _evaluate_structured_condition (r : rule) (variables : dict)
    : result bool :=
  let variable := variable_of r in
  let operator := operator_of r in
  let value := value_of r in
  bind_result (py_format variable) (fun _ =>
  bind_result (py_format operator) (fun _ =>
  bind_result (py_format value) (fun _ =>
  bind_result (variables_get variables variable (VStr "")) (fun variable_value =>
  bind_result (py_format variable_value) (fun _ =>
  try_except_Exception
    (match operator with
     | VStr op => condition_body op variable_value value
     | _ => Ok false
     end)
    (fun _ => Ok false)))))).

End ConditionEvaluator.

(** ** Workflow, registry and session state *)

(** A block of a node: its fields, and under the key [rules] the rules of
    a CONDITION block ([None] when the key is absent). A block that is
    performed as an action, like the actions of a [then] or [else] list, is
    the dict of its fields. *)
Record block : Type := mkBlock {
  block_fields : dict;
  block_rules : option (list rule)
}.

Record node : Type := mkNode {
  node_id : string;
  node_blocks : list block
}.

(** A registered callable, applied to positional and keyword arguments. *)
Definition tool : Type := list value -> dict -> result value.

(** [ToolRegistry.tools]. *)
Definition registry : Type := list (string * tool).

(** The orchestrator after [__init__]: the nodes of the loaded workflow in
    declaration order and the tool registry it was given, if any. *)
Record Orchestrator : Type := mkOrchestrator {
  workflow_nodes : list node;
  tool_registry : option registry
}.

(** The caller's session dict; an absent key is [None]. *)
Record session : Type := mkSession {
  current_node_id : option value;
  current_block_index : option Z;
  variables : option dict;
  pending_action : option dict
}.

(** The mutable world of a call: the session and the number of identifiers
    drawn from [uuid4] so far. *)
Record world : Type := mkWorld {
  session_state : session;
  uuid_calls : nat
}.

(** ** The monad of the engine: state that survives a raise *)

Definition M (A : Type) : Type := world -> result A * world.

Definition ret {A : Type} (a : A) : M A := fun w => (Ok a, w).

Definition raise {A : Type} (e : exn) : M A := fun w => (Raise e, w).

Definition bind {A B : Type} (m : M A) (k : A -> M B) : M B :=
  fun w =>
    match m w with
    | (Ok a, w') => k a w'
    | (Raise e, w') => (Raise e, w')
    end.

Definition lift {A : Type} (r : result A) : M A := fun w => (r, w).

(** [try: body except (e1, ...): handler], on the state the body left. *)
Definition try_catch {A : Type} (body : M A) (caught : exn -> bool)
    (handler : M A) : M A :=
  fun w =>
    match body w with
    | (Ok a, w') => (Ok a, w')
    | (Raise e, w') => if caught e then handler w' else (Raise e, w')
    end.

Definition get_session : M session := fun w => (Ok (session_state w), w).

Definition modify_session (f : session -> session) : M unit :=
  fun w => (Ok tt, mkWorld (f (session_state w)) (uuid_calls w)).

Declare Scope engine_scope.
Delimit Scope engine_scope with engine.
Notation "x <- m ;; k" := (bind m (fun x => k))
  (at level 61, m at next level, right associativity) : engine_scope.
Notation "m ;; k" := (bind m (fun _ => k))
  (at level 61, right associativity) : engine_scope.

Definition set_node_id (v : value) (s : session) : session :=
  mkSession (Some v) (current_block_index s) (variables s) (pending_action s).

Definition set_block_index (i : Z) (s : session) : session :=
  mkSession (current_node_id s) (Some i) (variables s) (pending_action s).

Definition set_variables (d : dict) (s : session) : session :=
  mkSession (current_node_id s) (current_block_index s) (Some d) (pending_action s).

Definition set_pending_action (p : option dict) (s : session) : session :=
  mkSession (current_node_id s) (current_block_index s) (variables s) p.

(** [session_state.get('variables', {})]. *)
Definition variables_of (s : session) : dict :=
  match variables s with Some d => d | None => [] end.

(** [session_state['current_block_index'] += 1]. *)
Definition increment_block_index : M unit :=
  fun w =>
    match current_block_index (session_state w) with
    | Some i => modify_session (set_block_index (i + 1)) w
    | None => (Raise KeyError, w)
    end.

(** [if 'variables' not in session_state: session_state['variables'] = {}]. *)
Definition ensure_variables : M unit :=
  modify_session (fun s => set_variables (variables_of s) s).

(** A value used as a key of the variable store. A list or a dict is
    unhashable ([TypeError]); the store of the embedding has string keys, so
    any other value that is not a string is refused in the same way (the
    names of the workflow documents are strings). *)
Definition as_key (v : value) : result string :=
  match v with
  | VStr s => Ok s
  | _ => Raise TypeError
  end.

(** ** Tool registry ([tool_registry.py]) *)

Fixpoint find_tool (reg : registry) (name : string) : option tool :=
  match reg with
  | [] => None
  | (n, f) :: r => if String.eqb n name then Some f else find_tool r name
  end.

(** [registry.has_tool(name)], that is [name in self.tools]. *)
Definition has_tool (reg : registry) (name : value) : result bool :=
  match name with
  | VStr s => Ok (match find_tool reg s with Some _ => true | None => false end)
  | VList _ | VDict _ => Raise TypeError
  | _ => Ok false
  end.

(** [registry.call(tool_name, *args, **kwargs)]. *)
Definition call (reg : registry) (tool_name : string) (args : list value)
    (kwargs : dict) : result value :=
  match find_tool reg tool_name with
  | None => Raise ValueError
  | Some f => f args kwargs
  end.

Section Engine.
Context {E : Env}.
Local Open Scope engine_scope.
Local Open Scope Z_scope.

(** [execute_tool_call(call_string, variables, registry)]. *)
Definition execute_tool_call (call_string : value) (vars : dict)
    (reg : registry) : result value :=
  match interpolate_variables call_string vars with
  | VStr interpolated_call =>
      match parse_function_call interpolated_call with
      | (None, _) => Ok VNone
      | (Some tool_name, args) =>
          match find_tool reg tool_name with
          | Some _ => call reg tool_name args []
          | None => Ok VNone
          end
      end
  | _ => Raise AttributeError
  end.

(** [str(uuid.uuid4())]: the next identifier of the stream. *)
Definition fresh_uuid : M string :=
  fun w => (Ok (uuid4 (uuid_calls w)), mkWorld (session_state w) (S (uuid_calls w))).

(** [Orchestrator.set_variable]. *)
Definition set_variable (var_name : value) (v : value) : M unit :=
  ensure_variables ;;
  k <- lift (as_key var_name) ;;
  modify_session (fun s => set_variables (dict_set (variables_of s) k v) s).

(** [Orchestrator.set_variable_from_source]. *)
Definition set_variable_from_source (o : Orchestrator)
    (var_name : value) (source : value) : M unit :=
  match tool_registry o with
  | Some reg =>
      s <- get_session ;;
      r <- lift (execute_tool_call source (variables_of s) reg) ;;
      match r with
      | VNone => set_variable var_name source
      | _ => set_variable var_name r
      end
  | None => set_variable var_name source
  end.

(** [Orchestrator.update_variable]. *)
Definition update_variable (target_var source_var operation : value) : M unit :=
  ensure_variables ;;
  if is_str operation "append" then
    k <- lift (as_key target_var) ;;
    s <- get_session ;;
    match dict_get (variables_of s) k with
    | None =>
        modify_session (set_variables (dict_set (variables_of s) k (VList [source_var])))
    | Some (VList l) =>
        modify_session
          (set_variables (dict_set (variables_of s) k (VList (l ++ [source_var])%list)))
    | Some _ => raise AttributeError
    end
  else ret tt.

(** [Orchestrator.analyze_and_set_variable]. *)
Definition analyze_and_set_variable (o : Orchestrator)
    (input_val output_var criteria : value) : M unit :=
  r <- lift
    (if truthy criteria then
       match tool_registry o with
       | Some reg =>
           bind_result (has_tool reg criteria) (fun h =>
             if h then call reg (py_str criteria) [input_val] []
             else Ok (VBool false))
       | None => Ok (VBool false)
       end
     else Ok (VBool false)) ;;
  set_variable output_var r.

(** [registry.call(action_name, **interpolated_args)]: the arguments must
    be a mapping. *)
Definition call_with_kwargs (reg : registry) (action_name : value)
    (interpolated_args : value) : result value :=
  match interpolated_args with
  | VDict kwargs => call reg (py_str action_name) [] kwargs
  | _ => Raise TypeError
  end.

Definition action_type (action : dict) : value :=
  dict_get_default action "type" VNone.

(** One turn of the loop of [_process_actions_internally]: the actions it
    adds to [client_actions]. *)
Definition process_action (o : Orchestrator) (action : dict) : M (list dict) :=
  let ty := action_type action in
  if is_str ty "SET_VARIABLE" then
    target_var <- lift (dict_getitem action "target") ;;
    match dict_get action "source", dict_get action "action" with
    | Some source, _ =>
        set_variable_from_source o target_var source ;; ret []
    | None, Some action_name =>
        let action_args := dict_get_default action "actionArgs" (VDict []) in
        s <- get_session ;;
        let interpolated_args := _interpolate_args_deep action_args (variables_of s) in
        match tool_registry o with
        | Some reg =>
            h <- lift (has_tool reg action_name) ;;
            if h then
              try_catch
                (r <- lift (call_with_kwargs reg action_name interpolated_args) ;;
                 set_variable target_var r)
                (fun _ => true)
                (set_variable target_var VNone) ;;
              ret []
            else ret []
        | None => ret []
        end
    | None, None => ret []
    end
  else if is_str ty "UPDATE_VARIABLE" then
    target_var <- lift (dict_getitem action "target") ;;
    source_var <- lift (dict_getitem action "source") ;;
    operation <- lift (dict_getitem action "operation") ;;
    update_variable target_var source_var operation ;;
    ret []
  else if is_str ty "ANALYZE_RESPONSE" then
    input_val <- lift (dict_getitem action "input") ;;
    output_var <- lift (dict_getitem action "output_bool") ;;
    let criteria := dict_get_default action "criteria" VNone in
    analyze_and_set_variable o input_val output_var criteria ;;
    ret []
  else if is_str ty "AWAIT_USER_INPUT" then
    action_id <- fresh_uuid ;;
    let action' := dict_set action "id" (VStr action_id) in
    modify_session (set_pending_action (Some action')) ;;
    ret [action']
  else if is_str ty "PRESENT_CONTENT" then ret [action]
  else if is_str ty "END_WORKFLOW" then ret [action]
  else ret [action].

(** [Orchestrator._process_actions_internally]. *)
Fixpoint _process_actions_internally (o : Orchestrator) (actions : list dict)
    : M (list dict) :=
  match actions with
  | [] => ret []
  | action :: rest =>
      c <- process_action o action ;;
      cs <- _process_actions_internally o rest ;;
      ret (c ++ cs)%list
  end.

(** ** The state machine *)

(** [self.nodes.get(id)]: the dict built in [__init__] keeps, for an
    identifier declared twice, the later node. *)
Definition find_node (nodes : list node) (id : string) : option node :=
  fold_left
    (fun found n => if String.eqb (node_id n) id then Some n else found)
    nodes None.

(** [self.nodes.get(current_node_id)] for any value of the session. *)
Definition nodes_get (o : Orchestrator) (id : value) : result (option node) :=
  match id with
  | VStr s => Ok (find_node (workflow_nodes o) s)
  | VList _ | VDict _ => Raise TypeError
  | _ => Ok None
  end.

(** [self.node_order]. *)
Definition node_order (o : Orchestrator) : list string :=
  map node_id (workflow_nodes o).

(** [self.node_order.index(id)]: the first position, [ValueError] when
    there is none. *)
Fixpoint index_from (i : Z) (order : list string) (id : value) : result Z :=
  match order with
  | [] => Raise ValueError
  | x :: r => if is_str id x then Ok i else index_from (i + 1) r id
  end.

(** [l[i]] with Python's negative indices. *)
Definition list_getitem {A : Type} (l : list A) (i : Z) : result A :=
  let n := Z.of_nat (List.length l) in
  let j := if i <? 0 then n + i else i in
  if (0 <=? j) && (j <? n) then
    match nth_error l (Z.to_nat j) with
    | Some x => Ok x
    | None => Raise IndexError
    end
  else Raise IndexError.

(** The [for ... else] over the rules of a CONDITION block: the first rule
    whose condition holds, if any. *)
Fixpoint first_true_rule (rules : list rule) (vars : dict)
    : result (option rule) :=
  match rules with
  | [] => Ok None
  | r :: rest =>
      bind_result (_evaluate_structured_condition r vars) (fun condition_result =>
        if condition_result then Ok (Some r) else first_true_rule rest vars)
  end.

Definition or_empty (l : option (list dict)) : list dict :=
  match l with Some x => x | None => [] end.

(** [actions_to_perform] of a CONDITION block. *)
Definition condition_actions (rules : list rule) (vars : dict)
    : result (list dict) :=
  bind_result (first_true_rule rules vars) (fun hit =>
    match hit with
    | Some r => Ok (or_empty (rule_then r))
    | None =>
        bind_result (list_getitem rules (-1)) (fun final_rule =>
          Ok (or_empty (rule_else final_rule)))
    end).

Definition is_goto (a : dict) : bool := is_str (action_type a) "GOTO_NODE".

(** The copy of an action with its fields interpolated, the callable name
    and the argument tree of a SET_VARIABLE left as they are. *)
Definition interpolate_action (vars : dict) (action : dict) : dict :=
  map (fun '(key, v) =>
         if is_str (action_type action) "SET_VARIABLE"
            && (String.eqb key "action" || String.eqb key "actionArgs")
         then (key, v)
         else (key, interpolate_variables v vars))
      action.

Definition END_WORKFLOW : list dict := [[("type", VStr "END_WORKFLOW")]].

(** The tail of [get_next_step], from the separation of the GOTO_NODE
    action on. *)
Definition perform (o : Orchestrator) (vars : dict)
    (actions_to_perform : list dict) : M (list dict) :=
  let goto_action := find is_goto actions_to_perform in
  let non_goto_actions := filter (fun a => negb (is_goto a)) actions_to_perform in
  let final_actions := map (interpolate_action vars) non_goto_actions in
  match goto_action with
  | Some g =>
      target <- lift (dict_getitem g "target") ;;
      modify_session (fun s => set_block_index 0 (set_node_id target s))
  | None => increment_block_index
  end ;;
  _process_actions_internally o final_actions.

(** The part of [get_next_step] that inspects the block at the current
    position; [recur] is the recursive call [self.get_next_step(...)]. *)
Definition inspect_block (o : Orchestrator) (vars : dict)
    (recur : M (list dict)) (blk : block) : M (list dict) :=
  ty <- lift (dict_getitem (block_fields blk) "type") ;;
  if is_str ty "CONDITION" then
    rules <- lift (match block_rules blk with
                   | Some r => Ok r
                   | None => Raise KeyError
                   end) ;;
    actions_to_perform <- lift (condition_actions rules vars) ;;
    match actions_to_perform with
    | [] => increment_block_index ;; recur
    | _ => perform o vars actions_to_perform
    end
  else perform o vars [block_fields blk].

(** The body of [Orchestrator.get_next_step]; [recur] is the call of
    itself, [self.get_next_step(session_state)]. *)
Definition get_next_step_body (o : Orchestrator) (recur : M (list dict))
    : M (list dict) :=
  s <- get_session ;;
  let node_id_now :=
    match current_node_id s with Some v => v | None => VNone end in
  let block_index :=
    match current_block_index s with Some i => i | None => 0 end in
  let vars := variables_of s in
  if negb (truthy node_id_now) then
    first <- lift (list_getitem (node_order o) 0) ;;
    modify_session (fun s => set_block_index 0 (set_node_id (VStr first) s)) ;;
    recur
  else
    found <- lift (nodes_get o node_id_now) ;;
    match found with
    | None => ret END_WORKFLOW
    | Some nd =>
        let blocks := node_blocks nd in
        if block_index >=? Z.of_nat (List.length blocks) then
          try_catch
            (current_node_index <- lift (index_from 0 (node_order o) node_id_now) ;;
             if current_node_index + 1 <? Z.of_nat (List.length (node_order o)) then
               next_node_id <- lift (list_getitem (node_order o) (current_node_index + 1)) ;;
               modify_session
                 (fun s => set_block_index 0 (set_node_id (VStr next_node_id) s)) ;;
               recur
             else ret END_WORKFLOW)
            (exn_eqb ValueError)
            (ret END_WORKFLOW)
        else
          blk <- lift (list_getitem blocks block_index) ;;
          inspect_block o vars recur blk
    end.

(** [Orchestrator.get_next_step]; [depth] is the recursion depth left. *)
Fixpoint get_next_step (depth : nat) (o : Orchestrator) : M (list dict) :=
  match depth with
  | O => raise RecursionError
  | S depth' => get_next_step_body o (get_next_step depth' o)
  end.

(** [Orchestrator.process_user_response]. *)
Definition process_user_response (action_id : string) (response : value)
    : M unit :=
  s <- get_session ;;
  match pending_action s with
  | Some pending =>
      if truthy (VDict pending)
         && is_str (dict_get_default pending "id" VNone) action_id
      then
        let target_var := dict_get_default pending "target" VNone in
        (if truthy target_var then set_variable target_var response
         else ret tt) ;;
        modify_session (set_pending_action None) ;;
        increment_block_index
      else ret tt
  | None => ret tt
  end.

End Engine.

(** ** Vocabulary of the statements *)

Section Vocabulary.
Context {E : Env}.
Local Open Scope Z_scope.

(** The block [get_next_step] is about to inspect: the session names a
    node of the workflow and its index is within that node. *)
Definition current_block (o : Orchestrator) (s : session) : option block :=
  match current_node_id s with
  | Some v =>
      if truthy v then
        match nodes_get o v with
        | Ok (Some nd) =>
            let i := match current_block_index s with Some i => i | None => 0 end in
            if i >=? Z.of_nat (List.length (node_blocks nd)) then None
            else
              match list_getitem (node_blocks nd) i with
              | Ok b => Some b
              | Raise _ => None
              end
        | _ => None
        end
      else None
  | None => None
  end.

(** The session after [session_state['current_block_index'] += 1]. *)
Definition advance (s : session) : session :=
  match current_block_index s with
  | Some i => set_block_index (i + 1) s
  | None => s
  end.

Definition advance_world (w : world) : world :=
  mkWorld (advance (session_state w)) (uuid_calls w).

(** The session holds a pending action whose identifier is [action_id]. *)
Definition pending_matches (s : session) (action_id : string) : bool :=
  match pending_action s with
  | Some p => is_str (dict_get_default p "id" VNone) action_id
  | None => false
  end.



(** The target of a pending action is a variable name, or there is none
    (no key, or a value [if target_var:] rejects). *)
Definition target_is_name (p : dict) : bool :=
  match dict_get p "target" with
  | None => true
  | Some (VStr _) => true
  | Some t => negb (truthy t)
  end.

(** The session stores its block index. *)
Definition stored (s : session) : Prop :=
  exists i, current_block_index s = Some i.

(** The sessions the engine works on: one that names a node or waits for
    an answer stores its block index. The empty session is one of them. *)
Definition well_formed (s : session) : Prop :=
  (match current_node_id s with Some v => truthy v = true | None => False end
   \/ pending_action s <> None) ->
  stored s.

(** A computation that leaves the node identifier and the block index as
    they are. *)
Definition keeps_position {A : Type} (m : M A) : Prop :=
  forall w,
    current_node_id (session_state (snd (m w))) = current_node_id (session_state w)
    /\ current_block_index (session_state (snd (m w)))
       = current_block_index (session_state w).

(** A computation that maps well-formed sessions to well-formed sessions,
    whether it returns or raises. *)
Definition preserves {A : Type} (m : M A) : Prop :=
  forall w, well_formed (session_state w) -> well_formed (session_state (snd (m w))).

(** A computation that stores the block index when it returns and changes
    nothing when it raises. *)
Definition stores_index {A : Type} (m : M A) : Prop :=
  forall w,
    match m w with
    | (Ok _, w') => stored (session_state w')
    | (Raise _, w') => w' = w
    end.

(** The rule holds on the variables. *)
Definition holds (vars : dict) (r : rule) : bool :=
  match _evaluate_structured_condition r vars with
  | Ok b => b
  | Raise _ => false
  end.

(** A placeholder name: a non-empty run of word characters and spaces. *)
Fixpoint all_name_chars (s : string) : bool :=
  match s with
  | EmptyString => true
  | String c r => PyStr.is_name_char c && all_name_chars r
  end.

Definition is_name (s : string) : bool :=
  negb (PyStr.is_empty s) && all_name_chars s.

(** A template: literal text that holds no opening brace, and
    placeholders. *)
Inductive segment : Type :=
| Lit (text : string)
| Hole (name : string).

Definition segment_ok (g : segment) : bool :=
  match g with
  | Lit t => negb (PyStr.has_char "{" t)
  | Hole n => is_name n
  end.

Definition render_segment (g : segment) : string :=
  match g with
  | Lit t => t
  | Hole n => "{" ++ n ++ "}"
  end.

Fixpoint render (t : list segment) : string :=
  match t with
  | [] => ""
  | g :: r => render_segment g ++ render r
  end.

(** What a placeholder becomes: the text of its value when it is bound
    and not null, itself otherwise. *)
Definition fill (vars : dict) (g : segment) : segment :=
  match g with
  | Lit t => Lit t
  | Hole n =>
      match dict_get vars n with
      | Some VNone | None => Hole n
      | Some v => Lit (py_str v)
      end
  end.

(** The names of the placeholders of a template, in order. *)
Fixpoint holes (t : list segment) : list string :=
  match t with
  | [] => []
  | Lit _ :: r => holes r
  | Hole n :: r => n :: holes r
  end.

(** [fill] restricted to the placeholders whose name is in [names]. *)
Definition fill_named (vars : dict) (names : list string) (g : segment) : segment :=
  match g with
  | Lit t => Lit t
  | Hole n => if existsb (String.eqb n) names then fill vars g else g
  end.

(** The placeholders named [n] replaced by the text [new]. *)
Definition subst_hole (n new : string) (g : segment) : segment :=
  match g with
  | Lit t => Lit t
  | Hole m => if String.eqb m n then Lit new else g
  end.

(** The text of no value that [fill] puts into the template has an
    opening brace: the filled template is a template again. *)
Definition fills_plain (vars : dict) (t : list segment) : bool :=
  forallb (fun g => segment_ok (fill vars g)) t.

(** The operators that compare their operands as floats. *)
Definition numeric_operator (op : string) : bool :=
  String.eqb op "greater_than" || String.eqb op "less_than"
  || String.eqb op "greater_than_or_equal" || String.eqb op "less_than_or_equal".

(** The operators [_evaluate_structured_condition] knows. *)
Definition known_operator (op : string) : bool :=
  existsb (String.eqb op)
    ["equals"; "=="; "not_equals"; "!="; "is_true"; "is_false"; "contains";
     "starts_with"; "ends_with"; "greater_than"; "less_than";
     "greater_than_or_equal"; "less_than_or_equal"].

Definition is_list (v : value) : bool :=
  match v with VList _ => true | _ => false end.

(** [float(v)] succeeds. *)
Definition coercible (v : value) : bool :=
  match py_float v with Ok _ => true | Raise _ => false end.

(** The value of the variable a rule tests. *)
Definition variable_value_of (r : rule) (vars : dict) : value :=
  match variables_get vars (variable_of r) (VStr "") with
  | Ok v => v
  | Raise _ => VStr ""
  end.

(** The log lines of the evaluator can be written: the three fields of
    the rule are printable. *)
Definition fields_printable (r : rule) : bool :=
  printable (variable_of r) && printable (operator_of r) && printable (value_of r).

(** The evaluator returns on the rule. *)
Definition evaluates (vars : dict) (r : rule) : bool :=
  match _evaluate_structured_condition r vars with
  | Ok _ => true
  | Raise _ => false
  end.

(** The evaluator returns false on the rule. *)
Definition fails (vars : dict) (r : rule) : bool :=
  match _evaluate_structured_condition r vars with
  | Ok b => negb b
  | Raise _ => false
  end.

End Vocabulary.

(** ** A sample environment and sample documents

    The theorems hold for every [Env]. The closed instances below are
    evaluated on this one, which answers as Python does on the texts of
    the instances: floats are read from integer literals and rounded to
    the nearest double, [repr] adds single quotes, [literal_eval] reads
    lists of integers, quoted texts and constants, the identifiers are
    numbered, and the digit limit is the default of 4300. *)

Module Sample.

Fixpoint digits_value (acc : Z) (s : string) : option Z :=
  match s with
  | EmptyString => Some acc
  | String c r =>
      if PyStr.between 48 57 c
      then digits_value (10 * acc + Z.of_nat (PyStr.code c - 48)) r
      else None
  end.

Definition int_literal (s : string) : option Z :=
  match PyStr.strip s with
  | EmptyString => None
  | String "-" (String c r) => option_map Z.opp (digits_value 0 (String c r))
  | String "-" EmptyString => None
  | r => digits_value 0 r
  end.

(** A sample of [ast.literal_eval] on the text of a list: integers in
    decimal, texts in quotes without an escape, and the constants [True],
    [False] and [None], separated by commas. On a text of another form the
    sample answers as on a malformed literal. *)
Definition is_blank (c : ascii) : bool :=
  (PyStr.code c =? 32)%nat || (PyStr.code c =? 9)%nat || (PyStr.code c =? 12)%nat.

Fixpoint skip_blanks (s : string) : string :=
  match s with
  | String c r => if is_blank c then skip_blanks r else s
  | EmptyString => EmptyString
  end.

Fixpoint all_zero (s : string) : bool :=
  match s with
  | EmptyString => true
  | String c r => (PyStr.code c =? 48)%nat && all_zero r
  end.

(** A run of digits; a leading zero is allowed in a run of zeros only. *)
Definition number_item (s : string) : option (value * string) :=
  let '(ds, rest) := PyStr.span (PyStr.between 48 57) s in
  match ds with
  | EmptyString => None
  | String c _ =>
      if (PyStr.code c =? 48)%nat && negb (all_zero ds) then None
      else option_map (fun n => (VInt n, rest)) (digits_value 0 ds)
  end.

Definition signed_item (s : string) : option (value * string) :=
  match s with
  | String "-" r =>
      match number_item (skip_blanks r) with
      | Some (VInt n, rest) => Some (VInt (- n), rest)
      | _ => None
      end
  | String "+" r => number_item (skip_blanks r)
  | _ => number_item s
  end.

(** The text up to the closing quote [q]; a backslash or a line end
    inside is not read. *)
Fixpoint until_quote (q : ascii) (s : string) : option (string * string) :=
  match s with
  | EmptyString => None
  | String c r =>
      if Ascii.eqb c q then Some (EmptyString, r)
      else if (PyStr.code c =? 92)%nat || (PyStr.code c =? 10)%nat
              || (PyStr.code c =? 13)%nat || (PyStr.code c =? 0)%nat
      then None
      else
        match until_quote q r with
        | Some (a, b) => Some (String c a, b)
        | None => None
        end
  end.

Definition keyword_item (s : string) : option (value * string) :=
  let '(w, rest) := PyStr.span PyStr.is_word s in
  if String.eqb w "True" then Some (VBool true, rest)
  else if String.eqb w "False" then Some (VBool false, rest)
  else if String.eqb w "None" then Some (VNone, rest)
  else None.

Definition item (s : string) : option (value * string) :=
  match s with
  | String c r =>
      if (PyStr.code c =? 39)%nat || (PyStr.code c =? 34)%nat then
        match until_quote c r with
        | Some (a, rest) =>
            match rest with
            | String c' _ =>
                if (PyStr.code c' =? 39)%nat || (PyStr.code c' =? 34)%nat
                then None
                else Some (VStr a, rest)
            | EmptyString => Some (VStr a, rest)
            end
        | None => None
        end
      else if PyStr.between 48 57 c || (PyStr.code c =? 45)%nat
              || (PyStr.code c =? 43)%nat
      then signed_item s
      else keyword_item s
  | EmptyString => None
  end.

Definition closes (s : string) : bool :=
  match s with
  | String "]" r => PyStr.is_empty (skip_blanks r)
  | _ => false
  end.

Fixpoint items (fuel : nat) (s : string) (acc : list value) : option (list value) :=
  match fuel with
  | O => None
  | S fuel' =>
      match item (skip_blanks s) with
      | None => None
      | Some (v, rest) =>
          match skip_blanks rest with
          | String "," r =>
              if closes (skip_blanks r) then Some (rev (v :: acc))
              else items fuel' r (v :: acc)
          | r => if closes r then Some (rev (v :: acc)) else None
          end
      end
  end.

Definition list_literal (s : string) : option (list value) :=
  match skip_blanks s with
  | String "[" r =>
      if closes (skip_blanks r) then Some []
      else items (String.length s) r []
  | _ => None
  end.

Definition env : Env := {|
  float_of_str := fun s => option_map (fun n => binary_normalize 53 1024 n 0 false) (int_literal s);
  str_of_float := fun _ => "<float>";
  repr_str := fun s => "'" ++ s ++ "'";
  literal_eval_list := list_literal;
  uuid4 := fun n => "uuid-" ++ PyStr.str_of_Z (Z.of_nat n);
  int_max_str_digits := 4300
|}.

Definition plain (fields : dict) : block := mkBlock fields None.

(** The two-node workflow of the end-to-end scenario. *)
Definition greeting : list node :=
  [ mkNode "n1" [ plain [("type", VStr "PRESENT_CONTENT"); ("payload", VStr "Hi")];
                  plain [("type", VStr "AWAIT_USER_INPUT"); ("target", VStr "Name")] ];
    mkNode "n2" [ plain [("type", VStr "END_WORKFLOW")] ] ].

Definition at_block (id : string) (i : Z) (vars : dict) : world :=
  mkWorld (mkSession (Some (VStr id)) (Some i) (Some vars) None) 0.

(** A one-node workflow made of one block. *)
Definition single (b : block) : list node := [ mkNode "n1" [b] ].

(** A tool that always raises. *)
Definition failing_tool : tool := fun _ _ => Raise (ToolError "boom").

(** Blocks on which the statements are evaluated. *)
Definition await_name : block :=
  plain [("type", VStr "AWAIT_USER_INPUT"); ("target", VStr "Name")].

Definition append_item : block :=
  plain [("type", VStr "UPDATE_VARIABLE"); ("target", VStr "Items");
         ("source", VStr "b"); ("operation", VStr "append")].


Definition analyze_reply : block :=
  plain [("type", VStr "ANALYZE_RESPONSE"); ("input", VStr "maybe");
         ("criteria", VStr "is_a_no"); ("output_bool", VStr "Is No")].

Definition condition_without_rules : block :=
  mkBlock [("type", VStr "CONDITION")] (Some []).

Definition failing_registry : registry := [("is_a_no", failing_tool)].




(** The rules of the tie-break and fallback examples. *)
Definition x_is_1 : rule :=
  mkRule (Some (VStr "x")) (Some (VStr "equals")) (Some (VStr "1"))
         (Some [[("type", VStr "A")]]) None.

Definition x_is_2 : rule :=
  mkRule (Some (VStr "x")) (Some (VStr "equals")) (Some (VStr "2"))
         (Some [[("type", VStr "B")]]) (Some [[("type", VStr "C")]]).

Definition two_rules : list rule := [x_is_1; x_is_2].

End Sample.

(** * The rest of the orchestrator and the registries *)

Section MoreOrchestrator.
Context {E : Env}.

(** [Orchestrator.get_variable]. *)
Definition get_variable (s : session) (var_name : string) (default : value) : value :=
  dict_get_default (variables_of s) var_name default.

End MoreOrchestrator.

(** ** Tool registry: registration and catalogue ([tool_registry.py]) *)

(** A type hint as [_get_type_string] tells them apart: no annotation (or
    [None]), the builtin types it names, a subscripted generic with its
    [__origin__], and any other type; the last two carry their [str()]. *)
Inductive type_hint : Type :=
| HNone
| HStr | HInt | HFloat | HBool | HList | HDict
| HGeneric (origin : type_hint) (text : string)
| HClass (text : string).

(** A parameter of a signature: its name and its default, if any. *)
Record parameter : Type := mkParameter {
  parameter_name : string;
  parameter_default : option value
}.

(** What [register] reads of a callable: the function itself, what
    [inspect.signature] and [get_type_hints] answer on it (the parameters
    in order; the annotations by name, the return annotation under
    [return]), each of which can raise, and its docstring. An exception
    that has no constructor of its own in [exn], such as the [NameError]
    of an annotation that does not resolve, is a [ToolError]. *)
Record callable : Type := mkCallable {
  callable_run : tool;
  callable_signature : result (list parameter);
  callable_type_hints : result (list (string * type_hint));
  callable_doc : option string
}.

(** [ToolArgument]. *)
Record ToolArgument : Type := mkToolArgument {
  argument_name : string;
  argument_type : string;
  argument_default : value;
  argument_required : bool;
  argument_description : option string
}.

(** [ToolDefinition]. *)
Record ToolDefinition : Type := mkToolDefinition {
  definition_id : string;
  definition_name : string;
  definition_description : string;
  definition_arguments : list ToolArgument;
  definition_return_type : string;
  definition_category : string;
  definition_examples : list string
}.

(** [ToolRegistry]: the two dicts of [__init__]. *)
Record ToolRegistry : Type := mkToolRegistry {
  tools : registry;
  definitions : list (string * ToolDefinition)
}.

(** [d[k] = v] on a dict of any values. *)
Fixpoint assoc_set {A : Type} (d : list (string * A)) (k : string) (v : A)
    : list (string * A) :=
  match d with
  | [] => [(k, v)]
  | (k', v') :: r =>
      if String.eqb k' k then (k', v) :: r else (k', v') :: assoc_set r k v
  end.

(** [d.get(k)] on a dict of any values. *)
Fixpoint assoc_get {A : Type} (d : list (string * A)) (k : string) : option A :=
  match d with
  | [] => None
  | (k', v) :: r => if String.eqb k' k then Some v else assoc_get r k
  end.

(** [ToolRegistry._get_type_string]. *)
Definition _get_type_string (h : type_hint) : string :=
  match h with
  | HNone => "any"
  | HStr => "string"
  | HInt => "number"
  | HFloat => "number"
  | HBool => "boolean"
  | HList | HGeneric HList _ => "array"
  | HDict | HGeneric HDict _ => "object"
  | HGeneric _ text | HClass text =>
      PyStr.replace "typing." ""
        (PyStr.replace "'>" "" (PyStr.replace "<class '" "" text))
  end.

(** [type_hints.get(name, type(None))]. *)
Definition hint_of (type_hints : list (string * type_hint)) (name : string)
    : type_hint :=
  match assoc_get type_hints name with Some x => x | None => HNone end.

(** The [ToolArgument] [register] builds for a parameter. *)
Definition argument_of (type_hints : list (string * type_hint)) (p : parameter)
    : ToolArgument :=
  let type_str := _get_type_string (hint_of type_hints (parameter_name p)) in
  mkToolArgument
    (parameter_name p)
    type_str
    (match parameter_default p with Some d => d | None => VNone end)
    (match parameter_default p with Some _ => false | None => true end)
    (Some ("Parameter " ++ parameter_name p ++ " of type " ++ type_str)).

(** [description or func.__doc__ or f"Tool {name}"]. *)
Definition description_of (name description : string) (doc : option string) : string :=
  if negb (PyStr.is_empty description) then description
  else
    match doc with
    | Some d => if negb (PyStr.is_empty d) then d else "Tool " ++ name
    | None => "Tool " ++ name
    end.

(** The registry with the callable stored and no definition written:
    the state [register] leaves when it raises. *)
Definition store_tool (reg : ToolRegistry) (name : string) (func : callable)
    : ToolRegistry :=
  mkToolRegistry (assoc_set (tools reg) name (callable_run func)) (definitions reg).

(** [ToolRegistry.register(name, func, description, category, examples)]:
    the callable is stored first; the signature and the type hints are
    read next, and what reading them raises leaves the method with the
    definition unwritten. The fields of the definition have the types
    pydantic validates, so its construction returns. *)
Definition register (reg : ToolRegistry) (name : string) (func : callable)
    (description category : string) (examples : option (list string))
    : result unit * ToolRegistry :=
  let stored := store_tool reg name func in
  match callable_signature func with
  | Raise e => (Raise e, stored)
  | Ok parameters =>
      match callable_type_hints func with
      | Raise e => (Raise e, stored)
      | Ok type_hints =>
          let arguments := map (argument_of type_hints) parameters in
          let return_type_str := _get_type_string (hint_of type_hints "return") in
          let tool_def :=
            mkToolDefinition name name
              (description_of name description (callable_doc func))
              arguments return_type_str category
              (match examples with Some (x :: l) => x :: l | _ => [] end) in
          (Ok tt,
           mkToolRegistry (tools stored)
                          (assoc_set (definitions stored) name tool_def))
      end
  end.

(** [ToolRegistry()]. *)
Definition empty_registry : ToolRegistry := mkToolRegistry [] [].

(** [ToolRegistry.get_tool_definition]. *)
Definition get_tool_definition (reg : ToolRegistry) (name : string)
    : option ToolDefinition :=
  assoc_get (definitions reg) name.

(** [ToolRegistry.list_tools]. *)
Definition list_tools (reg : ToolRegistry) : list ToolDefinition :=
  map snd (definitions reg).

(** [ToolRegistry.get_tools_by_category]. *)
Definition get_tools_by_category (reg : ToolRegistry) (category : string)
    : list ToolDefinition :=
  filter (fun d => String.eqb (definition_category d) category)
         (map snd (definitions reg)).

(** One call of [register], and a run of them from a new registry. *)
Record registration : Type := mkRegistration {
  registration_name : string;
  registration_func : callable;
  registration_description : string;
  registration_category : string;
  registration_examples : option (list string)
}.

Definition register_one (reg : ToolRegistry) (x : registration)
    : result unit * ToolRegistry :=
  register reg (registration_name x) (registration_func x)
    (registration_description x) (registration_category x)
    (registration_examples x).

(** The registry after the calls, the caller going on after a call that
    raises. *)
Definition register_all (l : list registration) : ToolRegistry :=
  fold_left (fun reg x => snd (register_one reg x)) l empty_registry.

(** Every call of the run returned. *)
Fixpoint all_registered (l : list registration) (reg : ToolRegistry) : bool :=
  match l with
  | [] => true
  | x :: r =>
      match register_one reg x with
      | (Ok _, reg') => all_registered r reg'
      | (Raise _, _) => false
      end
  end.

(** No definition is listed twice, every definition is filed under its
    own id, and every name that has a definition has a callable. *)
Definition catalogued (reg : ToolRegistry) : Prop :=
  NoDup (map fst (definitions reg))
  /\ Forall (fun kd => definition_id (snd kd) = fst kd) (definitions reg)
  /\ incl (map fst (definitions reg)) (map fst (tools reg)).

(** The two tables have the same names in the same order. *)
Definition consistent (reg : ToolRegistry) : Prop :=
  map fst (tools reg) = map fst (definitions reg).

(** ** Action registry: the built-in verbs ([action_registry.py]) *)

Module ActionRegistry.
Section Builtins.
Context {E : Env}.

(** [context.get('variables', {})] and [context.setdefault('variables', {})]
    on the context dict, which has the keys of a session. *)
Definition present_content (context : session) (payload : value) : value :=
  interpolate_variables payload (variables_of context).

Definition await_user_input (target : string) : string := "AWAIT_INPUT:" ++ target.

Definition set_variable (context : session) (target : string) (v : value)
    : value * session :=
  let interpolated_value := interpolate_variables v (variables_of context) in
  (interpolated_value,
   set_variables (dict_set (variables_of context) target interpolated_value) context).

Definition update_variable (context : session) (target : string) (v : value)
    (operation : string) : value * session :=
  let interpolated_value := interpolate_variables v (variables_of context) in
  let variables := variables_of context in
  let variables' :=
    if String.eqb operation "append" then
      match dict_get variables target with
      | None => dict_set variables target (VList [interpolated_value])
      | Some (VList l) =>
          dict_set variables target (VList (l ++ [interpolated_value])%list)
      | Some x => dict_set variables target (VList [x; interpolated_value])
      end
    else dict_set variables target interpolated_value in
  (dict_get_default variables' target VNone, set_variables variables' context).

Definition goto_node (target : string) : string := "GOTO_NODE:" ++ target.

Definition end_workflow : string := "END_WORKFLOW".

End Builtins.
End ActionRegistry.

(** ** More vocabulary *)

Section MoreVocabulary.
Context {E : Env}.
Local Open Scope Z_scope.

(** The session names a node: [current_node_id] is there and true. *)
Definition started (s : session) : bool :=
  match current_node_id s with
  | Some v => truthy v
  | None => false
  end.

(** [session_state.get('current_block_index', 0)]. *)
Definition index_of_session (s : session) : Z :=
  match current_block_index s with Some i => i | None => 0 end.

(** The world in which the session is at the start of a node. *)
Definition enter_node (id : value) (w : world) : world :=
  mkWorld (set_block_index 0 (set_node_id id (session_state w))) (uuid_calls w).

(** The types [_process_actions_internally] consumes. *)
Definition is_internal (ty : value) : bool :=
  is_str ty "SET_VARIABLE" || is_str ty "UPDATE_VARIABLE"
  || is_str ty "ANALYZE_RESPONSE".

(** What the [except ValueError] around the move to the next node does to
    the outcome of the continued step. *)
Definition swallow_ValueError (r : result (list dict) * world)
    : result (list dict) * world :=
  match r with
  | (Raise ValueError, w) => (Ok END_WORKFLOW, w)
  | _ => r
  end.

(** A callable name: a non-empty run of word characters. *)
Fixpoint all_word_chars (s : string) : bool :=
  match s with
  | EmptyString => true
  | String c r => PyStr.is_word c && all_word_chars r
  end.

Definition is_word_name (s : string) : bool :=
  negb (PyStr.is_empty s) && all_word_chars s.

(** The arguments [parse_function_call] makes of the text between the
    parentheses. *)
Definition arguments_of (inner : string) : list value :=
  let args_str := PyStr.strip inner in
  if PyStr.is_empty args_str then []
  else
    match literal_eval_list ("[" ++ args_str ++ "]") with
    | Some args => args
    | None => [VStr args_str]
    end.

(** The rule [r] with another operator. *)
Definition with_operator (op : option value) (r : rule) : rule :=
  mkRule (rule_variable r) op (rule_value r) (rule_then r) (rule_else r).

Definition rule_test (op : string) (r : rule) (vars : dict) : bool :=
  holds vars (with_operator (Some (VStr op)) r).

(** The statements before the [try] pass on the rule; they do not read
    the operator. *)
Definition passes (r : rule) (vars : dict) : bool :=
  printable (variable_of r) && printable (value_of r)
  && hashable (variable_of r) && printable (variable_value_of r vars).

(** The list a variable holds for an append: empty when the variable is
    not there, nothing when it holds something else. *)
Definition list_at (vars : dict) (k : string) : option (list value) :=
  match dict_get vars k with
  | None => Some []
  | Some (VList l) => Some l
  | Some _ => None
  end.

(** An UPDATE_VARIABLE action that appends [v] to the variable [k]. *)
Definition appends (k : string) (v : value) (a : dict) : Prop :=
  action_type a = VStr "UPDATE_VARIABLE"
  /\ dict_get a "target" = Some (VStr k)
  /\ dict_get a "source" = Some v
  /\ dict_get a "operation" = Some (VStr "append").

(** A value that is no list and no dict: it is not mutated in place, and
    it shares nothing with the list of a variable. *)
Definition immutable (v : value) : bool :=
  match v with
  | VList _ | VDict _ => false
  | _ => true
  end.

(** The world with other variables. *)
Definition with_variables (vars : dict) (w : world) : world :=
  mkWorld (set_variables vars (session_state w)) (uuid_calls w).

(** The world in which [get_next_step] can call itself from the world
    [w]: the start of the first node for a session that has not started,
    the start of the successor past the last block of a node, and the next
    block where a CONDITION block may have nothing to perform. *)
Definition next_call (o : Orchestrator) (w : world) : option world :=
  let s := session_state w in
  if negb (started s) then
    match node_order o with
    | first :: _ => Some (enter_node (VStr first) w)
    | [] => None
    end
  else
    match current_node_id s with
    | Some (VStr id) =>
        match find_node (workflow_nodes o) id with
        | Some nd =>
            if index_of_session s >=? Z.of_nat (List.length (node_blocks nd)) then
              match index_from 0 (node_order o) (VStr id) with
              | Ok p =>
                  if p + 1 <? Z.of_nat (List.length (node_order o)) then
                    match list_getitem (node_order o) (p + 1) with
                    | Ok next => Some (enter_node (VStr next) w)
                    | Raise _ => None
                    end
                  else None
              | Raise _ => None
              end
            else
              match current_block_index s with
              | Some i => Some (mkWorld (set_block_index (i + 1) s) (uuid_calls w))
              | None => None
              end
        | None => None
        end
    | _ => None
    end.

(** One call for every block and one more for every node. *)
Definition weight (nodes : list node) : nat :=
  fold_right (fun nd acc => (List.length (node_blocks nd) + 1 + acc)%nat) 0%nat nodes.

(** The first node of an identifier and the nodes declared after it. *)
Fixpoint after (nodes : list node) (id : string) : option (node * list node) :=
  match nodes with
  | [] => None
  | nd :: rest =>
      if String.eqb (node_id nd) id then Some (nd, rest) else after rest id
  end.

(** A bound on the nested calls of [get_next_step] that are still to
    come. *)
Definition calls_left (o : Orchestrator) (s : session) : nat :=
  if negb (started s) then S (weight (workflow_nodes o))
  else
    match current_node_id s with
    | Some (VStr id) =>
        match after (workflow_nodes o) id with
        | Some (nd, post) =>
            (Z.to_nat (Z.of_nat (List.length (node_blocks nd)) - index_of_session s)
             + 1 + weight post)%nat
        | None => 0%nat
        end
    | _ => 0%nat
    end.

(** The recursion depth that is enough for a step from the session. *)
Definition enough_depth (o : Orchestrator) (s : session) : nat :=
  (weight (workflow_nodes o) + Z.to_nat (- index_of_session s) + 2)%nat.

(** [get_next_step] with the computation [bottom] in the place of the
    [RecursionError] of an exhausted depth. *)
Fixpoint get_next_step_or (bottom : M (list dict)) (depth : nat)
    (o : Orchestrator) : M (list dict) :=
  match depth with
  | O => bottom
  | S depth' => get_next_step_body o (get_next_step_or bottom depth' o)
  end.

(** The actions a non-empty list of rules selects: the [then] list of the
    first rule that holds, and the [else] list of the last rule when none
    holds. *)
Definition selected (rules : list rule) (vars : dict) : list dict :=
  match find (holds vars) rules with
  | Some r => or_empty (rule_then r)
  | None =>
      or_empty (rule_else (last rules (mkRule None None None None None)))
  end.

(** A computation whose returned list satisfies [P]. *)
Definition emits {A : Type} (P : A -> Prop) (m : M A) : Prop :=
  forall w a w', m w = (Ok a, w') -> P a.

(** No action of the list is of a type the engine consumes. *)
Definition client_only (l : list dict) : Prop :=
  forall a, In a l -> is_internal (action_type a) = false.

(** The worlds a client can bring about from an empty session: it calls
    the two operations of the engine with any arguments, and between two
    calls it may rewrite the variables of the session it holds. *)
Inductive reachable (o : Orchestrator) : world -> Prop :=
| reach_fresh (n : nat) :
    reachable o (mkWorld (mkSession None None None None) n)
| reach_next (depth : nat) (w : world) :
    reachable o w -> reachable o (snd (get_next_step depth o w))
| reach_respond (action_id : string) (response : value) (w : world) :
    reachable o w ->
    reachable o (snd (process_user_response action_id response w))
| reach_client (vars : option dict) (w : world) :
    reachable o w ->
    reachable o
      (mkWorld (mkSession (current_node_id (session_state w))
                          (current_block_index (session_state w))
                          vars
                          (pending_action (session_state w)))
               (uuid_calls w)).

End MoreVocabulary.

(** ** More sample documents *)

Module Demo.

(** A session that has not started. *)
Definition fresh : world := mkWorld (mkSession None None None None) 0.

Definition engine (nodes : list node) : Orchestrator := mkOrchestrator nodes None.

Definition hello : block :=
  Sample.plain [("type", VStr "PRESENT_CONTENT"); ("payload", VStr "Hi")].

Definition first_node : node := mkNode "n1" [hello; Sample.await_name].

Definition last_node : node :=
  mkNode "n2" [Sample.plain [("type", VStr "END_WORKFLOW")]].

(** A node that jumps to the second node of the greeting workflow. *)
Definition jump : block :=
  Sample.plain [("type", VStr "GOTO_NODE"); ("target", VStr "n2")].

Definition jumping : list node := [mkNode "n0" [jump]; first_node; last_node].

(** A CONDITION block over the two sample rules. *)
Definition choice : block :=
  mkBlock [("type", VStr "CONDITION")] (Some Sample.two_rules).

(** A rule whose variable is a list, and a CONDITION block over it. *)
Definition list_rule : rule :=
  mkRule (Some (VList [VStr "a"])) (Some (VStr "equals")) (Some (VStr "x"))
         (Some [[("type", VStr "A")]]) None.

Definition unreadable : block :=
  mkBlock [("type", VStr "CONDITION")] (Some [list_rule]).

(** A workflow whose first node has no identifier. *)
Definition nameless : list node := [mkNode "" [hello]; last_node].

(** A callable that returns its positional arguments. *)
Definition echo : callable :=
  mkCallable (fun args _ => Ok (VList args))
    (Ok [mkParameter "item" None; mkParameter "times" (Some (VInt 1))])
    (Ok [("item", HStr); ("times", HInt); ("return", HList)])
    (Some "Return the arguments.").

(** A callable whose signature cannot be read. *)
Definition opaque : callable :=
  mkCallable (fun args _ => Ok (VList args)) (Raise ValueError) (Ok [])
    (Some "Return the arguments.").

(** The session after the question of the greeting workflow was emitted. *)
Definition asked : world :=
  mkWorld
    (mkSession (Some (VStr "n1")) (Some 1%Z) None
       (Some [("type", VStr "AWAIT_USER_INPUT"); ("target", VStr "Name");
              ("id", VStr "uuid-0")]))
    1.

Definition append_to_items (v : value) : dict :=
  [("type", VStr "UPDATE_VARIABLE"); ("target", VStr "Items");
   ("source", v); ("operation", VStr "append")].

End Demo.

(** * Properties *)

(** Decides the comparisons of a known type with the type names. *)
Ltac decide_types :=
  repeat match goal with
         | |- context [is_str (VStr ?a) ?b] =>
             let r := eval vm_compute in (is_str (VStr a) b) in
             change (is_str (VStr a) b) with r
         end;
  cbv iota.


(** ** Condition evaluator *)

Section ConditionFacts.
Context {E : Env}.

Lemma py_float_raises (v : value) (e : exn) :
  py_float v = Raise e ->
  e = ValueError \/ e = TypeError \/ e = OverflowError.
Proof.
  destruct v as [ | b | n | f | s | l | d ]; simpl; try discriminate;
    try (intros [= <-]; auto; fail).
  - unfold float_of_int.
    destruct (binary_normalize 53 1024 _ 0 false); try discriminate.
    intros [= <-]; auto.
  - unfold float_of_int.
    destruct (binary_normalize 53 1024 n 0 false); try discriminate.
    intros [= <-]; auto.
  - destruct (float_of_str s); try discriminate. intros [= <-]; auto.
Qed.

(** A comparison as floats lets nothing but [OverflowError] out, and is
    false as soon as one operand has no float. *)
Lemma compare_as_float_cases cmp (a b : value) :
  (exists x y, py_float a = Ok x /\ py_float b = Ok y
               /\ compare_as_float cmp a b = Ok (cmp x y))
  \/ (coercible a && coercible b = false
      /\ (compare_as_float cmp a b = Ok false
          \/ compare_as_float cmp a b = Raise OverflowError)).
Proof.
  unfold compare_as_float, coercible.
  destruct (py_float a) as [x | e] eqn:Ha.
  - destruct (py_float b) as [y | e] eqn:Hb.
    + left. exists x, y. auto.
    + right. split; [reflexivity | ].
      destruct (py_float_raises _ _ Hb) as [-> | [-> | ->]]; simpl; auto.
  - right. split; [reflexivity | ].
    destruct (py_float_raises _ _ Ha) as [-> | [-> | ->]]; simpl; auto.
Qed.

Lemma numeric_operator_body (op : string) (a b : value) :
  numeric_operator op = true ->
  exists cmp, condition_body op a b = compare_as_float cmp a b.
Proof.
  unfold numeric_operator. intros H.
  repeat (apply orb_prop in H; destruct H as [H | H]);
    apply String.eqb_eq in H; subst op; eexists; reflexivity.
Qed.

Lemma unknown_operator_body (op : string) (a b : value) :
  known_operator op = false -> condition_body op a b = Ok false.
Proof.
  unfold known_operator. simpl. intros H.
  repeat (apply orb_false_elim in H; destruct H as [?H H]).
  unfold condition_body.
  repeat match goal with
         | H : String.eqb op _ = false |- _ => rewrite H; clear H
         end.
  reflexivity.
Qed.

Lemma fields_printable_format (r : rule) :
  fields_printable r = true ->
  py_format (variable_of r) = Ok (py_str (variable_of r))
  /\ py_format (operator_of r) = Ok (py_str (operator_of r))
  /\ py_format (value_of r) = Ok (py_str (value_of r)).
Proof.
  unfold fields_printable, py_format. intros H.
  apply andb_prop in H as [H Hv]. apply andb_prop in H as [Hx Ho].
  now rewrite Hx, Ho, Hv.
Qed.

Lemma variables_get_hashable (vars : dict) (k default : value) :
  hashable k = true ->
  variables_get vars k default
  = Ok (match variables_get vars k default with Ok v => v | Raise _ => VStr "" end).
Proof. destruct k; try reflexivity; discriminate. Qed.

(** What is left of the evaluator once the statements before the [try]
    have passed: the [try] itself. *)
Lemma evaluate_tried (r : rule) (vars : dict) :
  fields_printable r = true ->
  hashable (variable_of r) = true ->
  printable (variable_value_of r vars) = true ->
  _evaluate_structured_condition r vars
  = try_except_Exception
      (match operator_of r with
       | VStr op => condition_body op (variable_value_of r vars) (value_of r)
       | _ => Ok false
       end)
      (fun _ => Ok false).
Proof.
  intros Hf Hh Hp. unfold _evaluate_structured_condition.
  destruct (fields_printable_format r Hf) as (-> & -> & ->).
  cbn [bind_result]. unfold variable_value_of in *.
  rewrite (variables_get_hashable vars _ _ Hh). cbn [bind_result].
  unfold py_format. now rewrite Hp.
Qed.

(** The evaluator returns a boolean when the statements before the [try]
    pass. *)
Lemma evaluate_returns (r : rule) (vars : dict) :
  fields_printable r = true ->
  hashable (variable_of r) = true ->
  printable (variable_value_of r vars) = true ->
  exists b, _evaluate_structured_condition r vars = Ok b.
Proof.
  intros Hf Hh Hp. rewrite (evaluate_tried r vars Hf Hh Hp).
  destruct (operator_of r); cbn [try_except_Exception]; eauto.
  destruct (condition_body _ _ _); cbn [try_except_Exception]; eauto.
Qed.

(** C9, at the inputs where the code departs from it. The lookup of the
    rule's variable stands before the [try]: on a rule whose variable is a
    list or a dict it raises [TypeError], and the evaluator raises. The
    two log lines stand there as well: a field of the rule, or the value
    of the variable, that [str] does not print (an integer beyond the
    digit limit) raises [ValueError]. On every other rule the claim holds:
    the evaluator returns a boolean; a numeric comparison whose operands
    cannot both be coerced to float is false, an unknown operator is
    false, and whatever the body of the [try] raises is turned into
    false. *)
Theorem evaluate_structured_condition_raises (r : rule) (vars : dict) :
  (fields_printable r = true ->
   hashable (variable_of r) = false ->
   _evaluate_structured_condition r vars = Raise TypeError)
  /\ (fields_printable r = false ->
      _evaluate_structured_condition r vars = Raise ValueError)
  /\ (fields_printable r = true ->
      hashable (variable_of r) = true ->
      printable (variable_value_of r vars) = false ->
      _evaluate_structured_condition r vars = Raise ValueError)
  /\ (fields_printable r = true ->
      hashable (variable_of r) = true ->
      printable (variable_value_of r vars) = true ->
      (exists b, _evaluate_structured_condition r vars = Ok b)
      /\ (forall op,
            operator_of r = VStr op ->
            numeric_operator op = true ->
            coercible (variable_value_of r vars) && coercible (value_of r) = false ->
            _evaluate_structured_condition r vars = Ok false)
      /\ ((forall op, operator_of r = VStr op -> known_operator op = false) ->
          _evaluate_structured_condition r vars = Ok false)
      /\ (forall op e,
            operator_of r = VStr op ->
            condition_body op (variable_value_of r vars) (value_of r) = Raise e ->
            _evaluate_structured_condition r vars = Ok false)).
Proof.
  split; [ | split; [ | split ] ].
  - intros Hf Hh. unfold _evaluate_structured_condition.
    destruct (fields_printable_format r Hf) as (-> & -> & ->).
    cbn [bind_result]. destruct (variable_of r); try discriminate Hh; reflexivity.
  - unfold fields_printable, _evaluate_structured_condition, py_format.
    intros Hf.
    destruct (printable (variable_of r)); [ | reflexivity ].
    destruct (printable (operator_of r)); [ | reflexivity ].
    destruct (printable (value_of r)); [ discriminate Hf | reflexivity ].
  - intros Hf Hh Hp. unfold _evaluate_structured_condition.
    destruct (fields_printable_format r Hf) as (-> & -> & ->).
    cbn [bind_result]. unfold variable_value_of in Hp.
    rewrite (variables_get_hashable vars _ _ Hh). cbn [bind_result].
    unfold py_format. now rewrite Hp.
  - intros Hf Hh Hp. rewrite (evaluate_tried r vars Hf Hh Hp).
    set (a := variable_value_of r vars). set (b := value_of r).
    split; [ | split; [ | split ] ].
    + destruct (operator_of r); cbn [try_except_Exception]; eauto.
      destruct (condition_body _ a b); cbn [try_except_Exception]; eauto.
    + intros op -> Hnum Hco.
      destruct (numeric_operator_body op a b Hnum) as [cmp ->].
      destruct (compare_as_float_cases cmp a b)
        as [(x & y & Hx & Hy & _) | (_ & [-> | ->])]; try reflexivity.
      unfold coercible in Hco. rewrite Hx, Hy in Hco. discriminate.
    + intros Hun. destruct (operator_of r) as [ | | | | op | | ]; try reflexivity.
      now rewrite (unknown_operator_body op a b (Hun op eq_refl)).
    + intros op e -> ->. reflexivity.
Qed.

End ConditionFacts.

(** ** Text: spans, placeholders and replacement *)

Section TextFacts.

Lemma append_assoc (a b c : string) : (a ++ b) ++ c = a ++ (b ++ c).
Proof. induction a as [ | x a IH ]; simpl; [ reflexivity | now rewrite IH ]. Qed.

Lemma length_append (a b : string) :
  String.length (a ++ b) = (String.length a + String.length b)%nat.
Proof. induction a as [ | x a IH ]; simpl; [ reflexivity | now rewrite IH ]. Qed.

Lemma append_empty_r (a : string) : a ++ "" = a.
Proof. induction a as [ | x a IH ]; simpl; [ reflexivity | now rewrite IH ]. Qed.

Lemma span_name_chars (n : string) (c : ascii) (r : string) :
  all_name_chars n = true ->
  PyStr.is_name_char c = false ->
  PyStr.span PyStr.is_name_char (n ++ String c r) = (n, String c r).
Proof.
  intros Hn Hc. induction n as [ | x n IH ]; simpl.
  - now rewrite Hc.
  - simpl in Hn. apply andb_prop in Hn as [Hx Hn].
    now rewrite Hx, (IH Hn).
Qed.

Lemma is_name_inv (n : string) :
  is_name n = true ->
  exists c r, n = String c r /\ all_name_chars n = true.
Proof.
  unfold is_name. destruct n as [ | c r ]; simpl; [ discriminate | ].
  intros H. exists c, r. auto.
Qed.

Lemma placeholder_at_hole (n r : string) :
  is_name n = true ->
  placeholder_at (String "{" (n ++ String "}" r)) = Some n.
Proof.
  intros Hn. destruct (is_name_inv n Hn) as (c & m & -> & Hall).
  unfold placeholder_at.
  rewrite (span_name_chars (String c m) "}" r Hall eq_refl).
  reflexivity.
Qed.

Lemma placeholder_at_not_brace (c : ascii) (r : string) :
  Ascii.eqb c "{" = false -> placeholder_at (String c r) = None.
Proof.
  destruct c as [[] [] [] [] [] [] [] []]; simpl; intros H;
    solve [ reflexivity | discriminate H ].
Qed.

Lemma findall_skip (p s : string) :
  findall_from (String.length p) (p ++ s) = findall_from 0 s.
Proof. induction p as [ | x p IH ]; simpl; [ reflexivity | exact IH ]. Qed.

Lemma findall_literal (t s : string) :
  PyStr.has_char "{" t = false ->
  findall_from 0 (t ++ s) = findall_from 0 s.
Proof.
  induction t as [ | x t IH ]; intros H; [ reflexivity | ].
  cbn [PyStr.has_char] in H. apply orb_false_elim in H as [Hx Ht].
  cbn [append findall_from].
  rewrite (placeholder_at_not_brace x (t ++ s) Hx). exact (IH Ht).
Qed.

Lemma findall_hole (n s : string) :
  is_name n = true ->
  findall_from 0 (("{" ++ n ++ "}") ++ s) = n :: findall_from 0 s.
Proof.
  intros Hn.
  replace (("{" ++ n ++ "}") ++ s) with (String "{" (n ++ String "}" s))
    by (simpl; now rewrite append_assoc).
  cbn [findall_from]. rewrite (placeholder_at_hole n s Hn).
  f_equal.
  replace (n ++ String "}" s) with ((n ++ "}") ++ s)
    by (now rewrite append_assoc).
  replace (S (String.length n)) with (String.length (n ++ "}"))
    by (rewrite length_append; simpl; lia).
  apply findall_skip.
Qed.

(** [re.findall] on a template finds its placeholders, in order. *)
Lemma findall_render (t : list segment) :
  forallb segment_ok t = true ->
  findall_placeholders (render t) = holes t.
Proof.
  unfold findall_placeholders.
  induction t as [ | g t IH ]; intros H; [ reflexivity | ].
  cbn [forallb] in H. apply andb_prop in H as [Hg Ht].
  destruct g as [ x | n ]; cbn [render render_segment holes segment_ok] in *.
  - apply negb_true_iff in Hg. rewrite (findall_literal x _ Hg). auto.
  - rewrite (findall_hole n _ Hg). now rewrite IH.
Qed.

Lemma replace_skip (p old new s : string) :
  PyStr.replace_from (String.length p) old new (p ++ s)
  = PyStr.replace_from 0 old new s.
Proof. induction p as [ | x p IH ]; simpl; [ reflexivity | exact IH ]. Qed.

Lemma startswith_self (p s : string) : PyStr.startswith p (p ++ s) = true.
Proof.
  induction p as [ | x p IH ]; simpl; [ reflexivity | ].
  now rewrite Ascii.eqb_refl, IH.
Qed.

Lemma replace_literal (t o new s : string) :
  PyStr.has_char "{" t = false ->
  PyStr.replace_from 0 (String "{" o) new (t ++ s)
  = t ++ PyStr.replace_from 0 (String "{" o) new s.
Proof.
  induction t as [ | x t IH ]; intros H; [ reflexivity | ].
  cbn [PyStr.has_char] in H. apply orb_false_elim in H as [Hx Ht].
  cbn [append PyStr.replace_from PyStr.startswith].
  rewrite Ascii.eqb_sym, Hx. cbn [andb]. now rewrite (IH Ht).
Qed.

(** Two placeholders that start at the same place are the same. *)
Lemma startswith_name (n m s : string) :
  all_name_chars n = true ->
  all_name_chars m = true ->
  PyStr.startswith (n ++ "}") (m ++ String "}" s) = true ->
  n = m.
Proof.
  revert m. induction n as [ | x n IH ]; intros [ | y m ] Hn Hm H.
  - reflexivity.
  - cbn [append PyStr.startswith] in H. cbn [all_name_chars] in Hm.
    apply andb_prop in Hm as [Hy _]. apply andb_prop in H as [H _].
    apply Ascii.eqb_eq in H. subst y. discriminate Hy.
  - cbn [append PyStr.startswith] in H. cbn [all_name_chars] in Hn.
    apply andb_prop in Hn as [Hx _]. apply andb_prop in H as [H _].
    apply Ascii.eqb_eq in H. subst x. discriminate Hx.
  - cbn [append PyStr.startswith] in H. cbn [all_name_chars] in Hn, Hm.
    apply andb_prop in Hn as [_ Hn]. apply andb_prop in Hm as [_ Hm].
    apply andb_prop in H as [Hxy H]. apply Ascii.eqb_eq in Hxy. subst y.
    f_equal. exact (IH m Hn Hm H).
Qed.

Lemma replace_hole (n m new s : string) :
  is_name n = true ->
  is_name m = true ->
  PyStr.replace_from 0 ("{" ++ n ++ "}") new (("{" ++ m ++ "}") ++ s)
  = render_segment (subst_hole n new (Hole m))
    ++ PyStr.replace_from 0 ("{" ++ n ++ "}") new s.
Proof.
  intros Hn Hm.
  destruct (is_name_inv n Hn) as (_ & _ & _ & Hn').
  destruct (is_name_inv m Hm) as (_ & _ & _ & Hm').
  cbn [subst_hole]. destruct (String.eqb_spec m n) as [-> | Hne].
  - cbn [render_segment].
    change (("{" ++ n ++ "}") ++ s) with (String "{" ((n ++ "}") ++ s)).
    cbn [PyStr.replace_from].
    change (String "{" ((n ++ "}") ++ s)) with (("{" ++ n ++ "}") ++ s).
    rewrite startswith_self. f_equal.
    replace (String.length ("{" ++ n ++ "}") - 1)%nat with (String.length (n ++ "}"))
      by (simpl; lia).
    apply replace_skip.
  - cbn [render_segment].
    change (("{" ++ m ++ "}") ++ s) with (String "{" ((m ++ "}") ++ s)).
    change ("{" ++ n ++ "}") with (String "{" (n ++ "}")).
    cbn [PyStr.replace_from PyStr.startswith]. rewrite Ascii.eqb_refl. cbn [andb].
    destruct (PyStr.startswith (n ++ "}") ((m ++ "}") ++ s)) eqn:Hs.
    + exfalso. apply Hne. symmetry.
      rewrite append_assoc in Hs.
      exact (startswith_name n m s Hn' Hm' Hs).
    + cbn [append]. f_equal.
      rewrite (replace_literal (m ++ "}") (n ++ "}") new s).
      * reflexivity.
      * clear - Hm'. induction m as [ | y m IH ]; [ reflexivity | ].
        cbn [all_name_chars] in Hm'. apply andb_prop in Hm' as [Hy Hm'].
        cbn [append PyStr.has_char]. rewrite (IH Hm'), orb_false_r.
        destruct (Ascii.eqb_spec y "{") as [-> | ]; [ discriminate Hy | reflexivity ].
Qed.

(** [str.replace] of a placeholder on a template replaces exactly the
    placeholders of that name. *)
Lemma replace_render (n new : string) (t : list segment) :
  is_name n = true ->
  forallb segment_ok t = true ->
  PyStr.replace ("{" ++ n ++ "}") new (render t)
  = render (map (subst_hole n new) t).
Proof.
  intros Hn. unfold PyStr.replace.
  change (PyStr.is_empty ("{" ++ n ++ "}")) with false. cbv iota.
  induction t as [ | g t IH ]; intros H; [ reflexivity | ].
  cbn [forallb] in H. apply andb_prop in H as [Hg Ht].
  cbn [map render]. destruct g as [ x | m ].
  - cbn [segment_ok] in Hg. apply negb_true_iff in Hg.
    cbn [render_segment subst_hole].
    change ("{" ++ n ++ "}") with (String "{" (n ++ "}")).
    rewrite (replace_literal x _ new _ Hg). f_equal. exact (IH Ht).
  - cbn [segment_ok] in Hg. cbn [render_segment].
    rewrite (replace_hole n m new _ Hn Hg). f_equal. exact (IH Ht).
Qed.

End TextFacts.

(** ** Interpolator *)

Section InterpolatorFacts.
Context {E : Env}.

(** One turn of the loop of [interpolate_variables], read on [fill]. *)
Lemma interpolate_step_fill (vars : dict) (text n : string) :
  interpolate_step vars text n
  = match fill vars (Hole n) with
    | Lit new => PyStr.replace ("{" ++ n ++ "}") new text
    | Hole _ => text
    end.
Proof.
  unfold interpolate_step, fill.
  destruct (dict_get vars n) as [ [ | | | | | | ] | ]; reflexivity.
Qed.

Lemma fill_hole_name (vars : dict) (n k : string) :
  fill vars (Hole n) = Hole k -> k = n.
Proof.
  unfold fill.
  destruct (dict_get vars n) as [ [ | | | | | | ] | ]; congruence.
Qed.

Lemma fill_named_one (vars : dict) (n : string) (g : segment) :
  fill_named vars [n] g
  = match fill vars (Hole n) with
    | Lit new => subst_hole n new g
    | Hole _ => g
    end.
Proof.
  destruct g as [ x | m ]; cbn [fill_named subst_hole existsb].
  - now destruct (fill vars (Hole n)).
  - rewrite orb_false_r. destruct (String.eqb_spec m n) as [-> | _].
    + destruct (fill vars (Hole n)) as [ | k ] eqn:Hf; [ reflexivity | ].
      now rewrite (fill_hole_name _ _ _ Hf).
    + now destruct (fill vars (Hole n)).
Qed.

Lemma fill_twice (vars : dict) (g : segment) :
  fill vars (fill vars g) = fill vars g.
Proof.
  destruct g as [ x | m ]; [ reflexivity | ].
  cbn [fill]. destruct (dict_get vars m) as [ [ | | | | | | ] | ] eqn:Hm;
    cbn [fill]; rewrite ?Hm; reflexivity.
Qed.

Lemma fill_named_cases (vars : dict) (names : list string) (g : segment) :
  fill_named vars names g = g \/ fill_named vars names g = fill vars g.
Proof.
  destruct g as [ x | m ]; [ now left | ].
  cbn [fill_named]. destruct (existsb (String.eqb m) names); [ now right | now left ].
Qed.

Lemma fill_named_ok (vars : dict) (names : list string) (t : list segment) :
  forallb segment_ok t = true ->
  fills_plain vars t = true ->
  forallb segment_ok (map (fill_named vars names) t) = true
  /\ fills_plain vars (map (fill_named vars names) t) = true.
Proof.
  unfold fills_plain. induction t as [ | g t IH ]; [ now split | ].
  cbn [forallb map]. intros H1 H2.
  apply andb_prop in H1 as [Hg Ht]. apply andb_prop in H2 as [Hf Hft].
  destruct (IH Ht Hft) as [-> ->]. rewrite !andb_true_r.
  destruct (fill_named_cases vars names g) as [-> | ->].
  - now split.
  - now rewrite fill_twice.
Qed.

Lemma interpolate_step_render (vars : dict) (n : string) (t : list segment) :
  is_name n = true ->
  forallb segment_ok t = true ->
  interpolate_step vars (render t) n = render (map (fill_named vars [n]) t).
Proof.
  intros Hn Ht. rewrite interpolate_step_fill.
  rewrite (map_ext _ _ (fill_named_one vars n)).
  destruct (fill vars (Hole n)) as [ new | k ].
  - now apply replace_render.
  - now rewrite map_id.
Qed.

Lemma fill_named_cons (vars : dict) (n : string) (names : list string) (g : segment) :
  fill_named vars names (fill_named vars [n] g) = fill_named vars (n :: names) g.
Proof.
  destruct g as [ x | m ]; [ reflexivity | ].
  cbn [fill_named existsb]. rewrite orb_false_r.
  destruct (String.eqb m n); cbn [orb].
  - destruct (fill vars (Hole m)) as [ y | k ] eqn:Hf; [ reflexivity | ].
    pose proof (fill_hole_name _ _ _ Hf) as ->.
    cbn [fill_named]. rewrite Hf. now destruct (existsb _ names).
  - reflexivity.
Qed.

(** The whole loop, on a template. *)
Lemma interpolate_fold_render (vars : dict) (names : list string) :
  forallb is_name names = true ->
  forall t : list segment,
    forallb segment_ok t = true ->
    fills_plain vars t = true ->
    fold_left (interpolate_step vars) names (render t)
    = render (map (fill_named vars names) t).
Proof.
  induction names as [ | n names IH ]; intros Hn t Ht Hv.
  - cbn [fold_left]. f_equal. symmetry.
    rewrite <- (map_id t) at 2. apply map_ext. now intros [ | ].
  - cbn [forallb] in Hn. apply andb_prop in Hn as [Hn Hns].
    cbn [fold_left]. rewrite (interpolate_step_render vars n t Hn Ht).
    destruct (fill_named_ok vars [n] t Ht Hv) as [Ht' Hv'].
    rewrite (IH Hns _ Ht' Hv').
    rewrite map_map. f_equal. apply map_ext. apply fill_named_cons.
Qed.

Lemma holes_are_names (t : list segment) :
  forallb segment_ok t = true -> forallb is_name (holes t) = true.
Proof.
  induction t as [ | [ x | m ] t IH ]; cbn [forallb holes segment_ok]; intros H.
  - reflexivity.
  - apply andb_prop in H as [_ H]. auto.
  - apply andb_prop in H as [Hm H]. now rewrite Hm, IH.
Qed.

Lemma fill_named_all (vars : dict) (names : list string) (t : list segment) :
  (forall m, In m (holes t) -> In m names) ->
  map (fill_named vars names) t = map (fill vars) t.
Proof.
  induction t as [ | g t IH ]; intros H; [ reflexivity | ].
  cbn [map]. f_equal.
  - destruct g as [ x | m ]; [ reflexivity | ].
    cbn [fill_named].
    assert (Hin : existsb (String.eqb m) names = true).
    { apply existsb_exists. exists m. split; [ | apply String.eqb_refl ].
      apply H. cbn [holes]. now left. }
    now rewrite Hin.
  - apply IH. intros m Hm. apply H.
    destruct g; cbn [holes]; [ exact Hm | now right ].
Qed.

(** On a template into which no value brings an opening brace,
    interpolation is the simultaneous replacement of every bound,
    non-null placeholder by the text of its value. *)
Lemma interpolate_text_render (vars : dict) (t : list segment) :
  forallb segment_ok t = true ->
  fills_plain vars t = true ->
  interpolate_text (render t) vars = render (map (fill vars) t).
Proof.
  intros Ht Hv. unfold interpolate_text.
  rewrite (findall_render t Ht).
  rewrite (interpolate_fold_render vars (holes t) (holes_are_names t Ht) t Ht Hv).
  now rewrite (fill_named_all vars (holes t) t).
Qed.

Lemma span_name_spec (s a b : string) :
  PyStr.span PyStr.is_name_char s = (a, b) ->
  s = a ++ b /\ all_name_chars a = true.
Proof.
  revert a b. induction s as [ | c s IH ]; intros a b; cbn [PyStr.span].
  - intros [= <- <-]. split; reflexivity.
  - destruct (PyStr.is_name_char c) eqn:Hc.
    + destruct (PyStr.span PyStr.is_name_char s) as [a' b'] eqn:Hs.
      intros [= <- <-]. destruct (IH a' b' eq_refl) as [-> Hall].
      split; [ reflexivity | ]. cbn [all_name_chars]. now rewrite Hc.
    + intros [= <- <-]. split; reflexivity.
Qed.

Lemma rstrip_keeps_last (a : string) (c : ascii) :
  PyStr.is_space c = false ->
  PyStr.rstrip (a ++ String c "") = a ++ String c "".
Proof.
  intros Hc. induction a as [ | x a IH ]; cbn [append PyStr.rstrip].
  - now rewrite Hc.
  - rewrite IH. replace (PyStr.is_empty (a ++ String c "")) with false
      by (now destruct a).
    now rewrite andb_false_r.
Qed.

Lemma rstrip_last_not_space (s a : string) (c : ascii) :
  PyStr.rstrip s = a ++ String c "" -> PyStr.is_space c = false.
Proof.
  revert a. induction s as [ | x s IH ]; intros a; cbn [PyStr.rstrip].
  - now destruct a.
  - destruct (PyStr.is_space x && PyStr.is_empty (PyStr.rstrip s)) eqn:Hx.
    + now destruct a.
    + destruct a as [ | y a ]; cbn [append].
      * intros [= -> Hr]. rewrite Hr in Hx. cbn [PyStr.is_empty] in Hx.
        now rewrite andb_true_r in Hx.
      * intros [= _ Hr]. exact (IH a Hr).
Qed.

(** Trimming leaves a braced name as it is. *)
Lemma strip_braced (n : string) :
  PyStr.strip ("{" ++ n ++ "}") = "{" ++ n ++ "}".
Proof.
  unfold PyStr.strip. cbn [append PyStr.lstrip].
  change (PyStr.is_space "{") with false. cbv iota.
  change (String "{" (n ++ "}")) with (("{" ++ n) ++ "}").
  now apply rstrip_keeps_last.
Qed.

Lemma single_var_match_braced (n : string) :
  is_name n = true -> single_var_match ("{" ++ n ++ "}") = Some n.
Proof.
  intros Hn. destruct (is_name_inv n Hn) as (c & m & -> & Hall).
  unfold single_var_match. cbn [append].
  change (String c (m ++ "}")) with (String c m ++ String "}" "").
  rewrite (span_name_chars (String c m) "}" "" Hall eq_refl).
  reflexivity.
Qed.

Lemma single_var_match_inv (s n : string) :
  single_var_match s = Some n ->
  is_name n = true
  /\ (s = "{" ++ n ++ "}" \/ s = ("{" ++ n ++ "}") ++ String "010" "").
Proof.
  unfold single_var_match.
  destruct s as [ | c r ]; [ discriminate | ].
  destruct c as [[] [] [] [] [] [] [] []]; try discriminate.
  destruct (PyStr.span PyStr.is_name_char r) as [a b] eqn:Hs.
  destruct (span_name_spec _ _ _ Hs) as [-> Hall].
  destruct a as [ | x a ]; [ discriminate | ].
  destruct b as [ | y b ]; [ discriminate | ].
  destruct y as [[] [] [] [] [] [] [] []]; try discriminate.
  assert (Hname : is_name (String x a) = true)
    by (unfold is_name; cbn [PyStr.is_empty negb andb]; exact Hall).
  destruct b as [ | z b ].
  - intros [= <-]. split; [ exact Hname | left; reflexivity ].
  - destruct z as [[] [] [] [] [] [] [] []]; try discriminate.
    destruct b; try discriminate.
    intros [= <-]. split; [ exact Hname | right ].
    cbn [append]. f_equal. now rewrite append_assoc.
Qed.

(** The test of [_interpolate_with_types]: the trimmed text is exactly
    one placeholder. *)
Lemma single_var_match_strip (s n : string) :
  single_var_match (PyStr.strip s) = Some n
  <-> is_name n = true /\ PyStr.strip s = "{" ++ n ++ "}".
Proof.
  split.
  - intros H. destruct (single_var_match_inv _ _ H) as [Hn [Hs | Hs]].
    + auto.
    + unfold PyStr.strip in Hs.
      now pose proof (rstrip_last_not_space _ _ _ Hs).
  - intros [Hn ->]. now apply single_var_match_braced.
Qed.

(** C8, as the code has it. With [Count] bound to 42, the text of the
    single placeholder yields the integer 42 and the mixed text yields a
    string; whenever the trimmed input is exactly one bound placeholder
    the bound value itself is returned; otherwise the result is the
    interpolated text. The placeholders are replaced one name after the
    other on the whole text, in the order in which the names are first
    found: on a text whose opening braces are those of its placeholders,
    and when the text of no value that is put in has an opening brace,
    every bound, non-null placeholder is replaced by the text of its
    value and the others are left as they are. *)
Theorem interpolate_with_types_preserves_type :
  _interpolate_with_types (VStr "{Count}") [("Count", VInt 42)] = VInt 42
  /\ _interpolate_with_types (VStr "Total: {Count}") [("Count", VInt 42)]
     = VStr "Total: 42"
  /\ (forall (s name : string) (vars : dict) (v : value),
        is_name name = true ->
        PyStr.strip s = "{" ++ name ++ "}" ->
        dict_get vars name = Some v ->
        _interpolate_with_types (VStr s) vars = v)
  /\ (forall (s : string) (vars : dict),
        (forall name, is_name name = true ->
                      PyStr.strip s = "{" ++ name ++ "}" ->
                      dict_get vars name = None) ->
        _interpolate_with_types (VStr s) vars = VStr (interpolate_text s vars))
  /\ (forall (t : list segment) (vars : dict),
        forallb segment_ok t = true ->
        fills_plain vars t = true ->
        interpolate_text (render t) vars = render (map (fill vars) t)).
Proof.
  split; [ reflexivity | ]. split; [ reflexivity | ].
  split; [ | split ].
  - intros s name vars v Hn Hs Hv. unfold _interpolate_with_types.
    rewrite (proj2 (single_var_match_strip s name) (conj Hn Hs)).
    now rewrite Hv.
  - intros s vars H. unfold _interpolate_with_types.
    destruct (single_var_match (PyStr.strip s)) as [ name | ] eqn:Hm;
      [ | reflexivity ].
    apply single_var_match_strip in Hm as [Hn Hs].
    now rewrite (H name Hn Hs).
  - intros t vars Ht Hv. now apply interpolate_text_render.
Qed.

(** C10. On a name bound to null the two modes disagree: the
    type-preserving interpolation of the single placeholder returns the
    null, the plain interpolation leaves the placeholder in the text, on
    its own and between literal text. *)
Theorem interpolate_null_binding (vars : dict) (N : string) :
  is_name N = true ->
  dict_get vars N = Some VNone ->
  _interpolate_with_types (VStr ("{" ++ N ++ "}")) vars = VNone
  /\ interpolate_variables (VStr ("{" ++ N ++ "}")) vars = VStr ("{" ++ N ++ "}")
  /\ _interpolate_with_types (VStr ("{" ++ N ++ "}")) vars
     <> interpolate_variables (VStr ("{" ++ N ++ "}")) vars
  /\ (forall before after : string,
        PyStr.has_char "{" before = false ->
        PyStr.has_char "{" after = false ->
        interpolate_text (before ++ ("{" ++ N ++ "}") ++ after) vars
        = before ++ ("{" ++ N ++ "}") ++ after).
Proof.
  intros Hn Hv.
  assert (H1 : _interpolate_with_types (VStr ("{" ++ N ++ "}")) vars = VNone).
  { unfold _interpolate_with_types.
    rewrite strip_braced, (single_var_match_braced N Hn). now rewrite Hv. }
  assert (H3 : forall before after : string,
             PyStr.has_char "{" before = false ->
             PyStr.has_char "{" after = false ->
             interpolate_text (before ++ ("{" ++ N ++ "}") ++ after) vars
             = before ++ ("{" ++ N ++ "}") ++ after).
  { intros before after Hb Ha.
    unfold interpolate_text, findall_placeholders.
    rewrite (findall_literal before _ Hb), (findall_hole N after Hn).
    rewrite <- (append_empty_r after) at 1. rewrite (findall_literal after "" Ha).
    cbn [findall_from fold_left]. unfold interpolate_step. now rewrite Hv. }
  assert (H2 : interpolate_variables (VStr ("{" ++ N ++ "}")) vars
               = VStr ("{" ++ N ++ "}")).
  { cbn [interpolate_variables]. f_equal.
    specialize (H3 "" "" eq_refl eq_refl). cbn [append] in H3.
    now rewrite append_empty_r in H3. }
  rewrite H1, H2. split; [ reflexivity | ]. split; [ reflexivity | ].
  split; [ discriminate | exact H3 ].
Qed.

End InterpolatorFacts.

(** ** The state machine *)

Section EngineFacts.
Context {E : Env}.
Local Open Scope Z_scope.


(** A session positioned at a block: the call inspects that block. *)
Lemma get_next_step_at_block (depth : nat) (o : Orchestrator) (w : world)
    (blk : block) :
  current_block o (session_state w) = Some blk ->
  get_next_step (S depth) o w
  = inspect_block o (variables_of (session_state w)) (get_next_step depth o) blk w.
Proof.
  unfold current_block. intros H.
  destruct (current_node_id (session_state w)) as [ id | ] eqn:Hid; [ | discriminate ].
  destruct (truthy id) eqn:Hset; [ | discriminate ].
  destruct (nodes_get o id) as [ [ nd | ] | ] eqn:Hnd; try discriminate.
  set (i := match current_block_index (session_state w) with
            | Some i => i | None => 0 end) in *.
  destruct (i >=? Z.of_nat (List.length (node_blocks nd))) eqn:Hi; [ discriminate | ].
  destruct (list_getitem (node_blocks nd) i) as [ b | ] eqn:Hb; [ | discriminate ].
  injection H as ->.
  cbn [get_next_step]. unfold get_next_step_body. unfold bind at 1. unfold get_session at 1.
  cbv beta iota. rewrite Hid, Hset. cbn [negb].
  unfold bind at 1. unfold lift at 1. rewrite Hnd.
  fold i. rewrite Hi.
  unfold bind at 1. unfold lift at 1. now rewrite Hb.
Qed.

Lemma dict_get_set_same (d : dict) (k : string) (v : value) :
  dict_get (dict_set d k v) k = Some v.
Proof.
  induction d as [ | [k' v'] d IH ]; cbn [dict_set dict_get].
  - now rewrite String.eqb_refl.
  - destruct (String.eqb k' k) eqn:Hk; cbn [dict_get]; now rewrite Hk.
Qed.

Lemma dict_get_set_other (d : dict) (k k' : string) (v : value) :
  k <> k' -> dict_get (dict_set d k v) k' = dict_get d k'.
Proof.
  intros Hne. induction d as [ | [x v'] d IH ]; cbn [dict_set dict_get].
  - now rewrite (proj2 (String.eqb_neq k k') Hne).
  - destruct (String.eqb x k) eqn:Hk; cbn [dict_get].
    + apply String.eqb_eq in Hk. subst x.
      now rewrite (proj2 (String.eqb_neq k k') Hne).
    + now rewrite IH.
Qed.

(** The fields of the interpolated copy of an action. *)
Lemma dict_get_interpolate_action (vars : dict) (a : dict) (k : string) :
  dict_get (interpolate_action vars a) k
  = option_map
      (fun v =>
         if is_str (action_type a) "SET_VARIABLE"
            && (String.eqb k "action" || String.eqb k "actionArgs")
         then v else interpolate_variables v vars)
      (dict_get a k).
Proof.
  unfold interpolate_action.
  generalize (is_str (action_type a) "SET_VARIABLE"). intros b.
  induction a as [ | [x v] a IH ]; [ reflexivity | ].
  cbn [map]. cbv beta iota.
  destruct (b && (String.eqb x "action" || String.eqb x "actionArgs")) eqn:Hx;
    cbn [dict_get]; destruct (String.eqb x k) eqn:Hk; try exact IH;
    apply String.eqb_eq in Hk; subst x; cbn [option_map]; now rewrite Hx.
Qed.

Lemma process_single_action (o : Orchestrator) (a : dict) (w : world) :
  _process_actions_internally o [a] w = process_action o a w.
Proof.
  cbn [_process_actions_internally]. unfold bind, ret.
  destruct (process_action o a w) as [[c | e] w']; [ | reflexivity ].
  now rewrite app_nil_r.
Qed.

(** A block that is neither a CONDITION nor a GOTO_NODE: the index moves
    on by one and the interpolated copy of the block is processed. *)
Lemma get_next_step_plain_block (depth : nat) (o : Orchestrator) (w : world)
    (blk : block) (ty : value) (i : Z) :
  current_block o (session_state w) = Some blk ->
  current_block_index (session_state w) = Some i ->
  dict_get (block_fields blk) "type" = Some ty ->
  is_str ty "CONDITION" = false ->
  is_str ty "GOTO_NODE" = false ->
  get_next_step (S depth) o w
  = process_action o
      (interpolate_action (variables_of (session_state w)) (block_fields blk))
      (advance_world w).
Proof.
  intros Hblk Hi Hty Hcond Hgoto.
  rewrite (get_next_step_at_block depth o w blk Hblk).
  unfold inspect_block, dict_getitem. rewrite Hty.
  unfold bind at 1. unfold lift at 1. rewrite Hcond.
  unfold perform. cbn [find filter map].
  assert (Hg : is_goto (block_fields blk) = false).
  { unfold is_goto, action_type, dict_get_default. now rewrite Hty. }
  rewrite Hg. cbn [negb map].
  unfold bind at 1. unfold increment_block_index at 1. rewrite Hi.
  unfold modify_session. rewrite process_single_action.
  unfold advance_world, advance. now rewrite Hi.
Qed.

(** The type of an action survives interpolation when it holds no
    placeholder. *)
Lemma interpolated_type (vars : dict) (a : dict) (t : string) :
  dict_get a "type" = Some (VStr t) ->
  interpolate_text t vars = t ->
  action_type (interpolate_action vars a) = VStr t.
Proof.
  intros Ha Ht. unfold action_type, dict_get_default.
  rewrite dict_get_interpolate_action, Ha. cbn [option_map].
  rewrite andb_false_r. cbn [interpolate_variables]. now rewrite Ht.
Qed.

(** C1, at the input where the code departs from it. At an
    AWAIT_USER_INPUT block [get_next_step] emits the interpolated block
    with the next identifier drawn from [uuid4] under the key [id] and
    records that same action (identifier and target included) as the
    pending action, as the claim says; but it has moved the block index on
    by one before, as it does for every block that is not a GOTO_NODE,
    where the claim has the index held. [process_user_response] moves it
    on once more. *)
Theorem get_next_step_await_user_input (depth : nat) (o : Orchestrator)
    (w : world) (blk : block) (i : Z) :
  current_block o (session_state w) = Some blk ->
  current_block_index (session_state w) = Some i ->
  dict_get (block_fields blk) "type" = Some (VStr "AWAIT_USER_INPUT") ->
  let vars := variables_of (session_state w) in
  let id := VStr (uuid4 (uuid_calls w)) in
  let emitted := dict_set (interpolate_action vars (block_fields blk)) "id" id in
  get_next_step (S depth) o w
  = (Ok [emitted],
     mkWorld (set_pending_action (Some emitted)
                (set_block_index (i + 1) (session_state w)))
             (S (uuid_calls w)))
  /\ dict_get emitted "id" = Some id
  /\ dict_get emitted "target"
     = option_map (fun t => interpolate_variables t vars)
                  (dict_get (block_fields blk) "target").
Proof.
  intros Hblk Hi Hty vars id emitted. repeat split.
  - rewrite (get_next_step_plain_block depth o w blk _ i Hblk Hi Hty eq_refl eq_refl).
    unfold process_action.
    rewrite (interpolated_type _ _ "AWAIT_USER_INPUT" Hty eq_refl).
    decide_types. unfold advance_world, advance. rewrite Hi. reflexivity.
  - apply dict_get_set_same.
  - unfold emitted. rewrite dict_get_set_other by discriminate.
    rewrite dict_get_interpolate_action. unfold action_type, dict_get_default.
    rewrite Hty. reflexivity.
Qed.

Lemma variables_of_set_block_index (j : Z) (s : session) :
  variables_of (set_block_index j s) = variables_of s.
Proof. reflexivity. Qed.

Lemma set_variable_named (k : string) (v : value) (w : world) :
  set_variable (VStr k) v w
  = (Ok tt,
     mkWorld (set_variables (dict_set (variables_of (session_state w)) k v)
                            (session_state w))
             (uuid_calls w)).
Proof. reflexivity. Qed.

(** *** UPDATE_VARIABLE *)

Lemma update_variable_append (t : string) (src : value) (w : world) :
  let s := session_state w in
  update_variable (VStr t) src (VStr "append") w
  = match dict_get (variables_of s) t with
    | None =>
        (Ok tt, mkWorld (set_variables (dict_set (variables_of s) t (VList [src])) s)
                        (uuid_calls w))
    | Some (VList l) =>
        (Ok tt, mkWorld (set_variables
                           (dict_set (variables_of s) t (VList (l ++ [src])%list)) s)
                        (uuid_calls w))
    | Some _ =>
        (Raise AttributeError,
         mkWorld (set_variables (variables_of s) s) (uuid_calls w))
    end.
Proof.
  cbv zeta. unfold update_variable. decide_types.
  unfold bind, ensure_variables, modify_session, lift, get_session, as_key, raise.
  cbn [session_state uuid_calls variables_of variables set_variables].
  fold (variables_of (session_state w)).
  destruct (dict_get (variables_of (session_state w)) t) as [ [ | | | | | | ] | ];
    reflexivity.
Qed.

Lemma update_variable_other (target src operation : value) (w : world) :
  is_str operation "append" = false ->
  update_variable target src operation w
  = (Ok tt, mkWorld (set_variables (variables_of (session_state w)) (session_state w))
                    (uuid_calls w)).
Proof.
  intros Hop. unfold update_variable, bind, ensure_variables, modify_session.
  now rewrite Hop.
Qed.

(** An UPDATE_VARIABLE block, once its fields are read. *)
Lemma get_next_step_update_variable (depth : nat) (o : Orchestrator)
    (w : world) (blk : block) (i : Z) (target src operation : value) :
  current_block o (session_state w) = Some blk ->
  current_block_index (session_state w) = Some i ->
  dict_get (block_fields blk) "type" = Some (VStr "UPDATE_VARIABLE") ->
  let a := interpolate_action (variables_of (session_state w)) (block_fields blk) in
  dict_get a "target" = Some target ->
  dict_get a "source" = Some src ->
  dict_get a "operation" = Some operation ->
  get_next_step (S depth) o w
  = match update_variable target src operation (advance_world w) with
    | (Ok _, w') => (Ok [], w')
    | (Raise e, w') => (Raise e, w')
    end.
Proof.
  intros Hblk Hi Hty a Ht Hs Hop.
  rewrite (get_next_step_plain_block depth o w blk _ i Hblk Hi Hty eq_refl eq_refl).
  unfold process_action.
  rewrite (interpolated_type _ _ "UPDATE_VARIABLE" Hty eq_refl).
  decide_types. fold a. unfold dict_getitem. rewrite Ht, Hs, Hop.
  unfold bind, lift, ret.
  now destruct (update_variable target src operation (advance_world w)) as [[[] | e] w'].
Qed.

(** C2, at the input where the code departs from it. An append to a
    variable whose value is not a list raises [AttributeError]: the value
    is not coerced into a one-element list, and the exception leaves
    [get_next_step]. *)
Theorem get_next_step_append_to_non_list (depth : nat) (o : Orchestrator)
    (w : world) (blk : block) (i : Z) (t : string) (src x : value) :
  current_block o (session_state w) = Some blk ->
  current_block_index (session_state w) = Some i ->
  dict_get (block_fields blk) "type" = Some (VStr "UPDATE_VARIABLE") ->
  let vars := variables_of (session_state w) in
  let a := interpolate_action vars (block_fields blk) in
  dict_get a "target" = Some (VStr t) ->
  dict_get a "source" = Some src ->
  dict_get a "operation" = Some (VStr "append") ->
  dict_get vars t = Some x ->
  is_list x = false ->
  get_next_step (S depth) o w
  = (Raise AttributeError,
     mkWorld (set_variables vars (set_block_index (i + 1) (session_state w)))
             (uuid_calls w)).
Proof.
  intros Hblk Hi Hty vars a Ht Hs Hop Hx Hl. subst vars a.
  rewrite (get_next_step_update_variable depth o w blk i _ _ _ Hblk Hi Hty Ht Hs Hop).
  rewrite update_variable_append.
  unfold advance_world, advance. rewrite Hi.
  cbn [session_state uuid_calls]. rewrite !variables_of_set_block_index, Hx.
  destruct x; try reflexivity. discriminate Hl.
Qed.

(** What does hold of UPDATE_VARIABLE: an append creates the list when the
    target is absent and extends it when the target is a list; another
    operation leaves the variables as they are. *)
Lemma get_next_step_append_to_list_or_absent (depth : nat) (o : Orchestrator)
    (w : world) (blk : block) (i : Z) (t : string) (src : value) :
  current_block o (session_state w) = Some blk ->
  current_block_index (session_state w) = Some i ->
  dict_get (block_fields blk) "type" = Some (VStr "UPDATE_VARIABLE") ->
  let vars := variables_of (session_state w) in
  let a := interpolate_action vars (block_fields blk) in
  dict_get a "target" = Some (VStr t) ->
  dict_get a "source" = Some src ->
  dict_get a "operation" = Some (VStr "append") ->
  forall l : list value,
    (dict_get vars t = None /\ l = []) \/ dict_get vars t = Some (VList l) ->
    get_next_step (S depth) o w
    = (Ok [],
       mkWorld (set_variables (dict_set vars t (VList (l ++ [src])%list))
                              (set_block_index (i + 1) (session_state w)))
               (uuid_calls w)).
Proof.
  intros Hblk Hi Hty vars a Ht Hs Hop l Hl. subst vars a.
  rewrite (get_next_step_update_variable depth o w blk i _ _ _ Hblk Hi Hty Ht Hs Hop).
  rewrite update_variable_append.
  unfold advance_world, advance. rewrite Hi.
  cbn [session_state uuid_calls]. rewrite !variables_of_set_block_index.
  destruct Hl as [[-> ->] | ->]; reflexivity.
Qed.

Lemma get_next_step_update_other_operation (depth : nat) (o : Orchestrator)
    (w : world) (blk : block) (i : Z) (target src operation : value) :
  current_block o (session_state w) = Some blk ->
  current_block_index (session_state w) = Some i ->
  dict_get (block_fields blk) "type" = Some (VStr "UPDATE_VARIABLE") ->
  let vars := variables_of (session_state w) in
  let a := interpolate_action vars (block_fields blk) in
  dict_get a "target" = Some target ->
  dict_get a "source" = Some src ->
  dict_get a "operation" = Some operation ->
  is_str operation "append" = false ->
  get_next_step (S depth) o w
  = (Ok [],
     mkWorld (set_variables vars (set_block_index (i + 1) (session_state w)))
             (uuid_calls w)).
Proof.
  intros Hblk Hi Hty vars a Ht Hs Hop Hother.
  rewrite (get_next_step_update_variable depth o w blk i _ _ _ Hblk Hi Hty Ht Hs Hop).
  rewrite (update_variable_other _ _ _ _ Hother).
  unfold advance_world, advance. now rewrite Hi.
Qed.

(** *** ANALYZE_RESPONSE and SET_VARIABLE with a callable *)

(** C4, at the input where the code departs from it. When the criteria
    tool of an ANALYZE_RESPONSE block raises, nothing catches the
    exception: it leaves [get_next_step], and the output variable is not
    assigned. Only the block index has moved. *)
Theorem get_next_step_analyze_response_tool_raises (depth : nat)
    (o : Orchestrator) (w : world) (blk : block) (i : Z)
    (input_val output_var : value) (criteria : string)
    (reg : registry) (f : tool) (e : exn) :
  current_block o (session_state w) = Some blk ->
  current_block_index (session_state w) = Some i ->
  dict_get (block_fields blk) "type" = Some (VStr "ANALYZE_RESPONSE") ->
  let a := interpolate_action (variables_of (session_state w)) (block_fields blk) in
  dict_get a "input" = Some input_val ->
  dict_get a "output_bool" = Some output_var ->
  dict_get a "criteria" = Some (VStr criteria) ->
  criteria <> "" ->
  tool_registry o = Some reg ->
  find_tool reg criteria = Some f ->
  f [input_val] [] = Raise e ->
  get_next_step (S depth) o w
  = (Raise e,
     mkWorld (set_block_index (i + 1) (session_state w)) (uuid_calls w)).
Proof.
  intros Hblk Hi Hty a Hin Hout Hcrit Hne Hreg Hf He. subst a.
  rewrite (get_next_step_plain_block depth o w blk _ i Hblk Hi Hty eq_refl eq_refl).
  unfold process_action.
  rewrite (interpolated_type _ _ "ANALYZE_RESPONSE" Hty eq_refl).
  decide_types. unfold dict_getitem, dict_get_default. rewrite Hin, Hout, Hcrit.
  unfold analyze_and_set_variable, bind, lift.
  rewrite Hreg. cbn [truthy has_tool bind_result py_str].
  replace (PyStr.is_empty criteria) with false
    by (destruct criteria; [ now elim Hne | reflexivity ]).
  cbn [negb]. rewrite Hf. unfold call. rewrite Hf, He.
  unfold advance_world, advance. now rewrite Hi.
Qed.

(** The sibling path: when the callable of a SET_VARIABLE block raises,
    the exception is caught and the target is assigned null. *)
Lemma get_next_step_set_variable_tool_raises (depth : nat)
    (o : Orchestrator) (w : world) (blk : block) (i : Z)
    (t name : string) (kwargs : dict) (reg : registry) (f : tool) (e : exn) :
  current_block o (session_state w) = Some blk ->
  current_block_index (session_state w) = Some i ->
  dict_get (block_fields blk) "type" = Some (VStr "SET_VARIABLE") ->
  let vars := variables_of (session_state w) in
  dict_get (interpolate_action vars (block_fields blk)) "target" = Some (VStr t) ->
  dict_get (block_fields blk) "source" = None ->
  dict_get (block_fields blk) "action" = Some (VStr name) ->
  _interpolate_args_deep
    (dict_get_default (block_fields blk) "actionArgs" (VDict [])) vars
    = VDict kwargs ->
  tool_registry o = Some reg ->
  find_tool reg name = Some f ->
  f [] kwargs = Raise e ->
  get_next_step (S depth) o w
  = (Ok [],
     mkWorld (set_variables (dict_set vars t VNone)
                            (set_block_index (i + 1) (session_state w)))
             (uuid_calls w)).
Proof.
  intros Hblk Hi Hty vars Ht Hsrc Hact Hargs Hreg Hf He. subst vars.
  rewrite (get_next_step_plain_block depth o w blk _ i Hblk Hi Hty eq_refl eq_refl).
  unfold process_action.
  rewrite (interpolated_type _ _ "SET_VARIABLE" Hty eq_refl).
  decide_types. unfold dict_getitem. rewrite Ht.
  assert (Hset : is_str (action_type (block_fields blk)) "SET_VARIABLE" = true)
    by (unfold action_type, dict_get_default; now rewrite Hty).
  unfold dict_get_default.
  rewrite !dict_get_interpolate_action, Hsrc, Hact, Hset.
  cbn [option_map andb orb String.eqb Ascii.eqb Bool.eqb].
  unfold bind at 1. unfold lift at 1. cbv beta iota.
  unfold bind at 1. unfold get_session at 1. cbv beta iota.
  rewrite Hreg.
  unfold advance_world, advance. rewrite Hi.
  cbn [session_state]. rewrite variables_of_set_block_index.
  unfold dict_get_default in Hargs.
  destruct (dict_get (block_fields blk) "actionArgs") as [ args | ];
    cbn [option_map]; rewrite Hargs;
    unfold bind, lift, try_catch, ret, has_tool, call_with_kwargs, call;
    cbn [py_str]; rewrite Hf, He; reflexivity.
Qed.

(** *** SET_VARIABLE with a direct source *)


(** *** CONDITION *)

Lemma evaluate_is_holds (r : rule) (vars : dict) :
  evaluates vars r = true ->
  _evaluate_structured_condition r vars = Ok (holds vars r).
Proof.
  unfold evaluates, holds.
  now destruct (_evaluate_structured_condition r vars).
Qed.

Lemma fails_holds (r : rule) (vars : dict) :
  fails vars r = true -> evaluates vars r = true /\ holds vars r = false.
Proof.
  unfold fails, evaluates, holds.
  destruct (_evaluate_structured_condition r vars) as [ [] | ];
    now intros.
Qed.

Lemma holds_evaluates (r : rule) (vars : dict) :
  holds vars r = true -> evaluates vars r = true.
Proof.
  unfold evaluates, holds.
  now destruct (_evaluate_structured_condition r vars).
Qed.

(** The loop over the rules stops at the first rule that holds, when the
    evaluator returns on each of them. *)
Lemma first_true_rule_find (rules : list rule) (vars : dict) :
  forallb (evaluates vars) rules = true ->
  first_true_rule rules vars = Ok (find (holds vars) rules).
Proof.
  induction rules as [ | r rules IH ]; [ reflexivity | ].
  cbn [first_true_rule find forallb]. intros H. apply andb_prop in H as [Hr H].
  rewrite (evaluate_is_holds r vars Hr). cbn [bind_result].
  destruct (holds vars r); [ reflexivity | exact (IH H) ].
Qed.

(** The loop stops at a rule that holds after rules that are false, and
    does not evaluate the rules that follow. *)
Lemma first_true_rule_first (before after : list rule) (r : rule) (vars : dict) :
  forallb (fails vars) before = true ->
  holds vars r = true ->
  first_true_rule (before ++ r :: after)%list vars = Ok (Some r).
Proof.
  intros Hb Hr. induction before as [ | q before IH ]; cbn [app first_true_rule].
  - rewrite (evaluate_is_holds r vars (holds_evaluates r vars Hr)), Hr.
    reflexivity.
  - cbn [forallb] in Hb. apply andb_prop in Hb as [Hq Hb].
    destruct (fails_holds q vars Hq) as [He Hh].
    rewrite (evaluate_is_holds q vars He), Hh. cbn [bind_result].
    exact (IH Hb).
Qed.

Lemma first_true_rule_none (rules : list rule) (vars : dict) :
  forallb (fails vars) rules = true ->
  first_true_rule rules vars = Ok None.
Proof.
  induction rules as [ | q rules IH ]; [ reflexivity | ].
  cbn [forallb first_true_rule]. intros Hb. apply andb_prop in Hb as [Hq Hb].
  destruct (fails_holds q vars Hq) as [He Hh].
  rewrite (evaluate_is_holds q vars He), Hh. cbn [bind_result].
  exact (IH Hb).
Qed.

Lemma list_getitem_last {A : Type} (l : list A) (x : A) :
  list_getitem (l ++ [x])%list (-1) = Ok x.
Proof.
  unfold list_getitem. rewrite length_app. cbn [List.length].
  change (-1 <? 0) with true. cbv iota.
  replace (Z.of_nat (List.length l + 1) + -1) with (Z.of_nat (List.length l)) by lia.
  replace (0 <=? Z.of_nat (List.length l)) with true by (symmetry; apply Z.leb_le; lia).
  replace (Z.of_nat (List.length l) <? Z.of_nat (List.length l + 1)) with true
    by (symmetry; apply Z.ltb_lt; lia).
  cbn [andb]. rewrite Nat2Z.id, nth_error_app2 by lia.
  now rewrite Nat.sub_diag.
Qed.

(** The first rule that holds gives its [then] list, whatever follows
    it. *)
Lemma condition_actions_first_match (before after : list rule) (r : rule)
    (vars : dict) :
  forallb (fails vars) before = true ->
  holds vars r = true ->
  condition_actions (before ++ r :: after)%list vars = Ok (or_empty (rule_then r)).
Proof.
  intros Hb Hr. unfold condition_actions.
  now rewrite (first_true_rule_first before after r vars Hb Hr).
Qed.

(** When every rule is false, the [else] list of the last rule is used. *)
Lemma condition_actions_no_match (rules : list rule) (final_rule : rule)
    (vars : dict) :
  forallb (fails vars) (rules ++ [final_rule])%list = true ->
  condition_actions (rules ++ [final_rule])%list vars
  = Ok (or_empty (rule_else final_rule)).
Proof.
  intros Hb. unfold condition_actions.
  rewrite (first_true_rule_none _ vars Hb). cbn [bind_result].
  now rewrite (list_getitem_last rules final_rule).
Qed.

(** A CONDITION block whose rules give no action is passed over: the
    index moves on and the next block is inspected. *)
Lemma get_next_step_condition_skip (depth : nat) (o : Orchestrator) (w : world)
    (blk : block) (rules : list rule) (i : Z) :
  current_block o (session_state w) = Some blk ->
  current_block_index (session_state w) = Some i ->
  dict_get (block_fields blk) "type" = Some (VStr "CONDITION") ->
  block_rules blk = Some rules ->
  condition_actions rules (variables_of (session_state w)) = Ok [] ->
  get_next_step (S depth) o w = get_next_step depth o (advance_world w).
Proof.
  intros Hblk Hi Hty Hr Hc.
  rewrite (get_next_step_at_block depth o w blk Hblk).
  unfold inspect_block, dict_getitem. rewrite Hty, Hr.
  unfold bind at 1. unfold lift at 1. decide_types.
  unfold bind at 1. unfold lift at 1. cbv beta iota.
  unfold bind at 1. unfold lift at 1. rewrite Hc.
  unfold bind, increment_block_index, modify_session. rewrite Hi.
  unfold advance_world, advance. now rewrite Hi.
Qed.

(** A CONDITION block whose rules give actions performs them. *)
Lemma get_next_step_condition_perform (depth : nat) (o : Orchestrator) (w : world)
    (blk : block) (rules : list rule) (a : dict) (l : list dict) :
  current_block o (session_state w) = Some blk ->
  dict_get (block_fields blk) "type" = Some (VStr "CONDITION") ->
  block_rules blk = Some rules ->
  condition_actions rules (variables_of (session_state w)) = Ok (a :: l) ->
  get_next_step (S depth) o w
  = perform o (variables_of (session_state w)) (a :: l) w.
Proof.
  intros Hblk Hty Hr Hc.
  rewrite (get_next_step_at_block depth o w blk Hblk).
  unfold inspect_block, dict_getitem. rewrite Hty, Hr.
  unfold bind at 1. unfold lift at 1. decide_types.
  unfold bind at 1. unfold lift at 1. cbv beta iota.
  unfold bind at 1. unfold lift at 1. now rewrite Hc.
Qed.

(** C5, at the input where the code departs from it. A CONDITION block
    with an empty list of rules is not passed over: the lookup of the
    last rule raises [IndexError], which leaves [get_next_step] with the
    session untouched. *)
Theorem get_next_step_condition_without_rules (depth : nat) (o : Orchestrator)
    (w : world) (blk : block) :
  current_block o (session_state w) = Some blk ->
  dict_get (block_fields blk) "type" = Some (VStr "CONDITION") ->
  block_rules blk = Some [] ->
  get_next_step (S depth) o w = (Raise IndexError, w).
Proof.
  intros Hblk Hty Hr.
  rewrite (get_next_step_at_block depth o w blk Hblk).
  unfold inspect_block, dict_getitem. rewrite Hty, Hr.
  reflexivity.
Qed.

(** *** The answer to an AWAIT_USER_INPUT *)

Lemma pending_matches_id (s : session) (action_id : string) :
  pending_matches s action_id = true
  <-> exists p, pending_action s = Some p
                /\ dict_get p "id" = Some (VStr action_id).
Proof.
  unfold pending_matches, dict_get_default. split.
  - destruct (pending_action s) as [ p | ]; [ | discriminate ].
    destruct (dict_get p "id") as [ [ | | | | x | | ] | ] eqn:Hid;
      cbn [is_str]; try discriminate.
    intros H. apply String.eqb_eq in H. subst x. eauto.
  - intros (p & -> & ->). cbn [is_str]. apply String.eqb_refl.
Qed.

(** The test of [process_user_response] is [pending_matches]: a pending
    action that carries an identifier is a non-empty dict. *)
Lemma pending_test (p : dict) (action_id : string) :
  truthy (VDict p) && is_str (dict_get_default p "id" VNone) action_id
  = is_str (dict_get_default p "id" VNone) action_id.
Proof. destruct p; reflexivity. Qed.

Lemma process_user_response_no_match (action_id : string) (response : value)
    (w : world) :
  pending_matches (session_state w) action_id = false ->
  process_user_response action_id response w = (Ok tt, w).
Proof.
  unfold pending_matches, process_user_response, bind, get_session.
  destruct (pending_action (session_state w)) as [ p | ]; [ | reflexivity ].
  rewrite pending_test. now intros ->.
Qed.

Lemma process_user_response_clears (action_id : string) (response : value)
    (w : world) (p : dict) :
  pending_action (session_state w) = Some p ->
  pending_matches (session_state w) action_id = true ->
  target_is_name p = true ->
  pending_action (session_state (snd (process_user_response action_id response w)))
  = None.
Proof.
  unfold pending_matches, process_user_response, bind, get_session, target_is_name.
  intros Hp. rewrite Hp, pending_test. intros -> Ht.
  unfold dict_get_default.
  destruct (dict_get p "target") as [ t | ]; cbn [truthy].
  - destruct (truthy t) eqn:Htr.
    + destruct t; try discriminate Ht.
      rewrite set_variable_named. unfold modify_session, increment_block_index.
      cbn [session_state uuid_calls current_block_index set_pending_action
           set_variables].
      now destruct (current_block_index (session_state w)).
    + unfold ret, modify_session, increment_block_index.
      cbn [session_state uuid_calls current_block_index set_pending_action].
      now destruct (current_block_index (session_state w)).
  - unfold ret, modify_session, increment_block_index.
    cbn [session_state uuid_calls current_block_index set_pending_action].
    now destruct (current_block_index (session_state w)).
Qed.

End EngineFacts.

(** ** The sessions of the engine *)

Create HintDb engine discriminated.

Section SessionInvariant.
Context {E : Env}.
Local Open Scope Z_scope.

Lemma keeps_ret {A : Type} (a : A) : keeps_position (ret a).
Proof. intros w. split; reflexivity. Qed.

Lemma keeps_raise {A : Type} (e : exn) : keeps_position (@raise A e).
Proof. intros w. split; reflexivity. Qed.

Lemma keeps_lift {A : Type} (r : result A) : keeps_position (lift r).
Proof. intros w. split; reflexivity. Qed.

Lemma keeps_get_session : keeps_position get_session.
Proof. intros w. split; reflexivity. Qed.

Lemma keeps_bind {A B : Type} (m : M A) (k : A -> M B) :
  keeps_position m -> (forall a, keeps_position (k a)) -> keeps_position (bind m k).
Proof.
  intros Hm Hk w. unfold bind. specialize (Hm w).
  destruct (m w) as [[a | e] w1]; cbn [snd] in *; [ | exact Hm ].
  destruct (Hk a w1) as [H1 H2]. destruct Hm as [H3 H4].
  split; congruence.
Qed.

Lemma keeps_try_catch {A : Type} (body handler : M A) (caught : exn -> bool) :
  keeps_position body -> keeps_position handler ->
  keeps_position (try_catch body caught handler).
Proof.
  intros Hb Hh w. unfold try_catch. specialize (Hb w).
  destruct (body w) as [[a | e] w1]; cbn [snd] in *; [ exact Hb | ].
  destruct (caught e); [ | exact Hb ].
  destruct (Hh w1) as [H1 H2]. destruct Hb as [H3 H4]. split; congruence.
Qed.

Lemma keeps_modify (f : session -> session) :
  (forall s, current_node_id (f s) = current_node_id s
             /\ current_block_index (f s) = current_block_index s) ->
  keeps_position (modify_session f).
Proof. intros Hf w. exact (Hf (session_state w)). Qed.

Lemma keeps_set_variables (g : session -> dict) :
  keeps_position (modify_session (fun s => set_variables (g s) s)).
Proof. apply keeps_modify. intros s. split; reflexivity. Qed.

Hint Resolve keeps_ret keeps_raise keeps_lift keeps_get_session
  keeps_set_variables : engine.

Lemma keeps_set_variable (var_name v : value) :
  keeps_position (set_variable var_name v).
Proof.
  unfold set_variable, ensure_variables.
  repeat (apply keeps_bind; [ auto with engine | intros ? ]).
  apply (keeps_set_variables (fun s => dict_set (variables_of s) _ v)).
Qed.

Hint Resolve keeps_set_variable : engine.

Lemma keeps_update_variable (target src operation : value) :
  keeps_position (update_variable target src operation).
Proof.
  unfold update_variable, ensure_variables.
  apply keeps_bind; [ auto with engine | intros _ ].
  destruct (is_str operation "append"); [ | auto with engine ].
  repeat (apply keeps_bind; [ auto with engine | intros ? ]).
  destruct (dict_get _ _) as [ [ | | | | | | ] | ]; auto with engine;
    apply (keeps_set_variables (fun _ => _)).
Qed.

Lemma keeps_set_variable_from_source (o : Orchestrator) (var_name source : value) :
  keeps_position (set_variable_from_source o var_name source).
Proof.
  unfold set_variable_from_source.
  destruct (tool_registry o); [ | auto with engine ].
  repeat (apply keeps_bind; [ auto with engine | intros ? ]).
  match goal with |- keeps_position (match ?r with _ => _ end) => destruct r end;
    auto with engine.
Qed.

Lemma keeps_analyze (o : Orchestrator) (input_val output_var criteria : value) :
  keeps_position (analyze_and_set_variable o input_val output_var criteria).
Proof.
  unfold analyze_and_set_variable.
  apply keeps_bind; [ auto with engine | intros ? ]. auto with engine.
Qed.

Hint Resolve keeps_update_variable keeps_set_variable_from_source keeps_analyze
  : engine.

(** Processing an action moves neither the node nor the index. *)
Lemma keeps_process_action (o : Orchestrator) (action : dict) :
  keeps_position (process_action o action).
Proof.
  unfold process_action.
  destruct (is_str (action_type action) "SET_VARIABLE").
  { apply keeps_bind; [ auto with engine | intros target_var ].
    destruct (dict_get action "source").
    - apply keeps_bind; auto with engine.
    - destruct (dict_get action "action"); [ | auto with engine ].
      apply keeps_bind; [ auto with engine | intros s ].
      destruct (tool_registry o); [ | auto with engine ].
      apply keeps_bind; [ auto with engine | intros h ].
      destruct h; [ | auto with engine ].
      apply keeps_bind; [ | auto with engine ].
      apply keeps_try_catch; [ | auto with engine ].
      apply keeps_bind; auto with engine. }
  destruct (is_str (action_type action) "UPDATE_VARIABLE").
  { repeat (apply keeps_bind; [ auto with engine | intros ? ]). auto with engine. }
  destruct (is_str (action_type action) "ANALYZE_RESPONSE").
  { repeat (apply keeps_bind; [ auto with engine | intros ? ]). auto with engine. }
  destruct (is_str (action_type action) "AWAIT_USER_INPUT").
  { apply keeps_bind; [ intros w; split; reflexivity | intros action_id ].
    apply keeps_bind; [ | auto with engine ].
    apply keeps_modify. intros s. split; reflexivity. }
  destruct (is_str (action_type action) "PRESENT_CONTENT"); [ auto with engine | ].
  destruct (is_str (action_type action) "END_WORKFLOW"); auto with engine.
Qed.

Lemma keeps_process_actions (o : Orchestrator) (actions : list dict) :
  keeps_position (_process_actions_internally o actions).
Proof.
  induction actions as [ | a actions IH ]; cbn [_process_actions_internally];
    [ auto with engine | ].
  apply keeps_bind; [ apply keeps_process_action | intros c ].
  apply keeps_bind; [ exact IH | auto with engine ].
Qed.

Lemma stored_well_formed (s : session) : stored s -> well_formed s.
Proof. intros H _. exact H. Qed.

Lemma preserves_unchanged {A : Type} (m : M A) :
  (forall w, snd (m w) = w) -> preserves m.
Proof. intros H w Hw. now rewrite H. Qed.

Lemma preserves_bind {A B : Type} (m : M A) (k : A -> M B) :
  preserves m -> (forall a, preserves (k a)) -> preserves (bind m k).
Proof.
  intros Hm Hk w Hw. unfold bind. specialize (Hm w Hw).
  destruct (m w) as [[a | e] w1]; cbn [snd] in *; [ | exact Hm ].
  exact (Hk a w1 Hm).
Qed.

Lemma preserves_try_catch {A : Type} (body handler : M A) (caught : exn -> bool) :
  preserves body -> preserves handler -> preserves (try_catch body caught handler).
Proof.
  intros Hb Hh w Hw. unfold try_catch. specialize (Hb w Hw).
  destruct (body w) as [[a | e] w1]; cbn [snd] in *; [ exact Hb | ].
  destruct (caught e); [ exact (Hh w1 Hb) | exact Hb ].
Qed.

(** A step that stores the index, followed by steps that keep it. *)
Lemma preserves_stores_then_keeps {A B : Type} (m : M A) (k : A -> M B) :
  stores_index m -> (forall a, keeps_position (k a)) -> preserves (bind m k).
Proof.
  intros Hm Hk w Hw. unfold bind. specialize (Hm w).
  destruct (m w) as [[a | e] w1]; cbn [snd].
  - apply stored_well_formed. destruct Hm as [i Hi].
    exists i. now rewrite (proj2 (Hk a w1)).
  - now subst w1.
Qed.

Lemma stores_increment : stores_index increment_block_index.
Proof.
  intros w. unfold increment_block_index, modify_session.
  destruct (current_block_index (session_state w)) as [ i | ]; [ | reflexivity ].
  now exists (i + 1).
Qed.

Lemma stores_set_position (v : value) :
  stores_index (modify_session (fun s => set_block_index 0 (set_node_id v s))).
Proof. intros w. now exists 0. Qed.

Lemma preserves_of_stores {A : Type} (m : M A) : stores_index m -> preserves m.
Proof.
  intros Hm w Hw. specialize (Hm w).
  destruct (m w) as [[a | e] w1]; cbn [snd].
  - now apply stored_well_formed.
  - now subst w1.
Qed.

Lemma stores_bind_lift {A B : Type} (r : result A) (k : A -> M B) :
  (forall a, stores_index (k a)) -> stores_index (bind (lift r) k).
Proof.
  intros Hk w. unfold bind, lift. destruct r as [ a | e ]; [ apply Hk | reflexivity ].
Qed.

Lemma preserves_perform (o : Orchestrator) (vars : dict) (actions : list dict) :
  preserves (perform o vars actions).
Proof.
  unfold perform. apply preserves_stores_then_keeps.
  - destruct (find is_goto actions) as [ g | ]; [ | apply stores_increment ].
    apply stores_bind_lift. intros target. apply stores_set_position.
  - intros _. apply keeps_process_actions.
Qed.

(** Every call of [get_next_step] maps a well-formed session to a
    well-formed session: whenever the engine names a node or records a
    pending action it has stored the block index. *)
Lemma get_next_step_well_formed (depth : nat) (o : Orchestrator) :
  preserves (get_next_step depth o).
Proof.
  induction depth as [ | depth IH ]; cbn [get_next_step]; unfold get_next_step_body.
  - now apply preserves_unchanged.
  - apply preserves_bind; [ now apply preserves_unchanged | intros s ].
    destruct (negb (truthy _)).
    + apply preserves_bind; [ now apply preserves_unchanged | intros first ].
      apply preserves_bind; [ | intros _; exact IH ].
      apply preserves_of_stores, stores_set_position.
    + apply preserves_bind; [ now apply preserves_unchanged | intros found ].
      destruct found as [ nd | ]; [ | now apply preserves_unchanged ].
      destruct (_ >=? _).
      * apply preserves_try_catch; [ | now apply preserves_unchanged ].
        apply preserves_bind; [ now apply preserves_unchanged | intros idx ].
        destruct (_ <? _); [ | now apply preserves_unchanged ].
        apply preserves_bind; [ now apply preserves_unchanged | intros next ].
        apply preserves_bind; [ | intros _; exact IH ].
        apply preserves_of_stores, stores_set_position.
      * apply preserves_bind; [ now apply preserves_unchanged | intros blk ].
        unfold inspect_block.
        apply preserves_bind; [ now apply preserves_unchanged | intros ty ].
        destruct (is_str ty "CONDITION"); [ | apply preserves_perform ].
        apply preserves_bind; [ now apply preserves_unchanged | intros rules ].
        apply preserves_bind; [ now apply preserves_unchanged | intros acts ].
        destruct acts; [ | apply preserves_perform ].
        apply preserves_bind; [ | intros _; exact IH ].
        apply preserves_of_stores, stores_increment.
Qed.

Lemma empty_session_well_formed : well_formed (mkSession None None None None).
Proof. intros [[] | H]; now elim H. Qed.

(** [process_user_response] maps a well-formed session to a well-formed
    session, and on a well-formed session with a matching pending action
    the block index is stored, so the increment does not raise. *)
Lemma process_user_response_well_formed (action_id : string) (response : value) :
  preserves (process_user_response action_id response).
Proof.
  intros w Hw. unfold process_user_response, bind, get_session.
  destruct (pending_action (session_state w)) as [ p | ] eqn:Hp; [ | exact Hw ].
  destruct (truthy (VDict p) && _); [ | exact Hw ].
  assert (Hs : stored (session_state w)).
  { apply Hw. right. rewrite Hp. discriminate. }
  destruct Hs as [i Hi].
  assert (Hk : keeps_position
                 (if truthy (dict_get_default p "target" VNone)
                  then set_variable (dict_get_default p "target" VNone) response
                  else ret tt)).
  { destruct (truthy _); auto with engine. }
  specialize (Hk w).
  destruct ((if truthy (dict_get_default p "target" VNone)
             then set_variable (dict_get_default p "target" VNone) response
             else ret tt) w) as [[[] | e] w1]; cbn [snd] in *.
  - unfold modify_session, increment_block_index.
    cbn [session_state current_block_index set_pending_action].
    rewrite (proj2 Hk), Hi. apply stored_well_formed. now exists (i + 1).
  - apply stored_well_formed. exists i. now rewrite (proj2 Hk).
Qed.

Lemma well_formed_pending_stored (s : session) (p : dict) :
  well_formed s -> pending_action s = Some p -> stored s.
Proof. intros Hw Hp. apply Hw. right. rewrite Hp. discriminate. Qed.

End SessionInvariant.

(** ** The answer to a pending action *)

Section ResponseFacts.
Context {E : Env}.
Local Open Scope Z_scope.

(** C6. [process_user_response] changes the session exactly when the
    session holds a pending action with the given identifier. Then the
    target variable receives the response, the pending action is removed
    and the block index grows by one. Otherwise the session is left as it
    is and nothing is raised. *)
Theorem process_user_response_effect (action_id : string) (response : value)
    (w : world) :
  let s := session_state w in
  (pending_matches s action_id = false ->
     process_user_response action_id response w = (Ok tt, w))
  /\ (forall (p : dict) (target : string),
        well_formed s ->
        pending_action s = Some p ->
        dict_get p "id" = Some (VStr action_id) ->
        dict_get p "target" = Some (VStr target) ->
        target <> "" ->
        exists i,
          current_block_index s = Some i
          /\ process_user_response action_id response w
             = (Ok tt,
                mkWorld (mkSession (current_node_id s) (Some (i + 1))
                                   (Some (dict_set (variables_of s) target response))
                                   None)
                        (uuid_calls w)))
  /\ ((forall p, pending_action s = Some p -> target_is_name p = true) ->
      (session_state (snd (process_user_response action_id response w)) <> s
       <-> pending_matches s action_id = true)).
Proof.
  cbv zeta. split; [ | split ].
  - apply process_user_response_no_match.
  - intros p target Hw Hp Hid Ht Hne.
    destruct (well_formed_pending_stored _ p Hw Hp) as [i Hi].
    exists i. split; [ exact Hi | ].
    unfold process_user_response, bind, get_session. rewrite Hp, pending_test.
    unfold dict_get_default. rewrite Hid, Ht. cbn [is_str truthy].
    rewrite String.eqb_refl.
    replace (PyStr.is_empty target) with false
      by (destruct target; [ now elim Hne | reflexivity ]).
    cbn [negb]. rewrite set_variable_named.
    unfold modify_session, increment_block_index.
    cbn [session_state uuid_calls current_block_index set_pending_action
         set_variables].
    rewrite Hi. reflexivity.
  - intros Hname. split.
    + intros Hchg.
      destruct (pending_matches (session_state w) action_id) eqn:Hm;
        [ reflexivity | ].
      rewrite (process_user_response_no_match _ response _ Hm) in Hchg.
      now elim Hchg.
    + intros Hm Heq.
      destruct (proj1 (pending_matches_id _ _) Hm) as (p & Hp & _).
      pose proof (process_user_response_clears action_id response w p Hp Hm
                    (Hname p Hp)) as Hc.
      rewrite Heq, Hp in Hc. discriminate Hc.
Qed.

End ResponseFacts.

(** * Further properties *)

(** ** The state machine: start, end of a node, navigation *)

Section NavigationFacts.
Context {E : Env}.
Local Open Scope Z_scope.

(** A session that has not started enters the first node. *)
Lemma get_next_step_start (depth : nat) (o : Orchestrator) (w : world)
    (nd : node) (rest : list node) :
  started (session_state w) = false ->
  workflow_nodes o = nd :: rest ->
  get_next_step (S depth) o w
  = get_next_step depth o (enter_node (VStr (node_id nd)) w).
Proof.
  unfold started. intros Hs Hn.
  cbn [get_next_step]. unfold get_next_step_body. unfold bind at 1. unfold get_session at 1. cbv beta iota.
  replace (truthy match current_node_id (session_state w) with
                  | Some v => v | None => VNone end) with false
    by (destruct (current_node_id (session_state w)); [ now rewrite Hs | reflexivity ]).
  cbn [negb]. unfold node_order. rewrite Hn. reflexivity.
Qed.


Lemma index_from_skip (i : Z) (before : list string) (x : string) (after : list string) :
  ~ In x before ->
  index_from i (before ++ x :: after)%list (VStr x)
  = Ok (i + Z.of_nat (List.length before)).
Proof.
  revert i. induction before as [ | y before IH ]; intros i Hx.
  - cbn [app index_from is_str List.length]. rewrite String.eqb_refl.
    f_equal. cbn. lia.
  - cbn [app index_from is_str].
    destruct (String.eqb_spec x y) as [-> | Hne].
    + elim Hx. now left.
    + rewrite IH by (intros H; apply Hx; now right).
      f_equal. cbn [List.length]. lia.
Qed.


(** X2. Past the last block of a node that has a successor, the step goes
    on in the successor from its first block; a [ValueError] that leaves
    the continued step is turned into [[END_WORKFLOW]]. *)
Theorem get_next_step_next_node (depth : nat) (o : Orchestrator) (w : world)
    (id : value) (nd : node) (p : Z) (next : string) :
  current_node_id (session_state w) = Some id ->
  truthy id = true ->
  nodes_get o id = Ok (Some nd) ->
  index_of_session (session_state w) >= Z.of_nat (List.length (node_blocks nd)) ->
  index_from 0 (node_order o) id = Ok p ->
  p + 1 < Z.of_nat (List.length (node_order o)) ->
  list_getitem (node_order o) (p + 1) = Ok next ->
  get_next_step (S depth) o w
  = swallow_ValueError (get_next_step depth o (enter_node (VStr next) w)).
Proof.
  intros Hcur Hset Hnd Hi Hp Hlt Hnext.
  cbn [get_next_step]. unfold get_next_step_body. unfold bind at 1. unfold get_session at 1. cbv beta iota.
  rewrite Hcur, Hset. cbn [negb]. unfold bind at 1. unfold lift at 1. rewrite Hnd.
  unfold index_of_session in Hi.
  replace (_ >=? _) with true by (symmetry; apply Z.geb_le; lia).
  unfold try_catch. unfold bind at 1. unfold lift at 1. rewrite Hp.
  replace (_ <? _) with true by (symmetry; apply Z.ltb_lt; lia).
  unfold bind at 1. unfold lift at 1. rewrite Hnext.
  unfold bind at 1. unfold modify_session at 1. cbv beta iota.
  fold (enter_node (VStr next) w).
  unfold swallow_ValueError, ret.
  destruct (get_next_step depth o (enter_node (VStr next) w)) as [[l | e] w'];
    [ reflexivity | ].
  destruct e; reflexivity.
Qed.

(** X3. A GOTO_NODE block emits nothing: it places the session at the
    first block of its target, taken as written, and touches neither the
    variables nor the pending action. Without a target it raises
    [KeyError] and the session stays where it was. *)
Theorem get_next_step_goto_node (depth : nat) (o : Orchestrator) (w : world)
    (blk : block) :
  current_block o (session_state w) = Some blk ->
  dict_get (block_fields blk) "type" = Some (VStr "GOTO_NODE") ->
  get_next_step (S depth) o w
  = match dict_get (block_fields blk) "target" with
    | Some target => (Ok [], enter_node target w)
    | None => (Raise KeyError, w)
    end.
Proof.
  intros Hblk Hty.
  rewrite (get_next_step_at_block depth o w blk Hblk).
  unfold inspect_block, dict_getitem. rewrite Hty.
  unfold bind at 1. unfold lift at 1. decide_types.
  unfold perform. cbn [find filter map].
  assert (Hg : is_goto (block_fields blk) = true).
  { unfold is_goto, action_type, dict_get_default. now rewrite Hty. }
  rewrite Hg. cbn [negb map _process_actions_internally].
  unfold bind, lift, ret, modify_session, dict_getitem.
  now destruct (dict_get (block_fields blk) "target").
Qed.


End NavigationFacts.

(** ** What reaches the client *)

Section ClientFacts.
Context {E : Env}.
Local Open Scope Z_scope.

Lemma emits_ret {A : Type} (P : A -> Prop) (a : A) : P a -> emits P (ret a).
Proof. intros H w x w' [= <- _]. exact H. Qed.

Lemma emits_raise {A : Type} (P : A -> Prop) (e : exn) : emits P (raise e).
Proof. intros w x w' [=]. Qed.

Lemma emits_bind {A B : Type} (P : B -> Prop) (m : M A) (k : A -> M B) :
  (forall a, emits P (k a)) -> emits P (bind m k).
Proof.
  intros Hk w x w'. unfold bind.
  destruct (m w) as [[a | e] w1]; [ apply Hk | discriminate ].
Qed.

Lemma emits_try_catch {A : Type} (P : A -> Prop) (body handler : M A)
    (caught : exn -> bool) :
  emits P body -> emits P handler -> emits P (try_catch body caught handler).
Proof.
  intros Hb Hh w x w'. unfold try_catch.
  destruct (body w) as [[a | e] w1] eqn:Hbody.
  - intros [= <- <-]. exact (Hb w a w1 Hbody).
  - destruct (caught e); [ apply Hh | discriminate ].
Qed.

Lemma client_only_nil : client_only [].
Proof. intros a []. Qed.

Lemma client_only_one (a : dict) :
  is_internal (action_type a) = false -> client_only [a].
Proof. intros H x [<- | []]. exact H. Qed.

Lemma client_only_app (l1 l2 : list dict) :
  client_only l1 -> client_only l2 -> client_only (l1 ++ l2)%list.
Proof.
  intros H1 H2 a Ha. apply in_app_or in Ha as [Ha | Ha]; auto.
Qed.

(** One action: what it hands to the client is not of an internal type. *)
Lemma process_action_client_only (o : Orchestrator) (action : dict) :
  emits client_only (process_action o action).
Proof.
  unfold process_action.
  destruct (is_str (action_type action) "SET_VARIABLE") eqn:H1.
  { apply emits_bind. intros target_var.
    destruct (dict_get action "source").
    - apply emits_bind. intros _. apply emits_ret, client_only_nil.
    - destruct (dict_get action "action").
      + apply emits_bind. intros s.
        destruct (tool_registry o); [ | apply emits_ret, client_only_nil ].
        apply emits_bind. intros [ | ].
        * apply emits_bind. intros _. apply emits_ret, client_only_nil.
        * apply emits_ret, client_only_nil.
      + apply emits_ret, client_only_nil. }
  destruct (is_str (action_type action) "UPDATE_VARIABLE") eqn:H2.
  { repeat (apply emits_bind; intros ?). apply emits_ret, client_only_nil. }
  destruct (is_str (action_type action) "ANALYZE_RESPONSE") eqn:H3.
  { repeat (apply emits_bind; intros ?). apply emits_ret, client_only_nil. }
  assert (Hme : is_internal (action_type action) = false)
    by (unfold is_internal; now rewrite H1, H2, H3).
  destruct (is_str (action_type action) "AWAIT_USER_INPUT") eqn:H4.
  { apply emits_bind. intros action_id. apply emits_bind. intros _.
    apply emits_ret, client_only_one.
    unfold action_type, dict_get_default in *.
    now rewrite dict_get_set_other by discriminate. }
  destruct (is_str (action_type action) "PRESENT_CONTENT");
    [ now apply emits_ret, client_only_one | ].
  destruct (is_str (action_type action) "END_WORKFLOW");
    now apply emits_ret, client_only_one.
Qed.

Lemma process_actions_client_only (o : Orchestrator) (actions : list dict) :
  emits client_only (_process_actions_internally o actions).
Proof.
  induction actions as [ | a actions IH ]; cbn [_process_actions_internally].
  - apply emits_ret, client_only_nil.
  - intros w l w'. unfold bind.
    destruct (process_action o a w) as [[c | e] w1] eqn:Hc; [ | discriminate ].
    destruct (_process_actions_internally o actions w1) as [[cs | e] w2] eqn:Hcs;
      [ | discriminate ].
    unfold ret. intros [= <- <-]. apply client_only_app.
    + exact (process_action_client_only o a w c w1 Hc).
    + exact (IH w1 cs w2 Hcs).
Qed.

Lemma end_workflow_client_only : client_only END_WORKFLOW.
Proof. now apply client_only_one. Qed.

Lemma perform_client_only (o : Orchestrator) (vars : dict) (actions : list dict) :
  emits client_only (perform o vars actions).
Proof.
  unfold perform. apply emits_bind. intros _. apply process_actions_client_only.
Qed.

Lemma get_next_step_emits_client_only (depth : nat) (o : Orchestrator) :
  emits client_only (get_next_step depth o).
Proof.
  induction depth as [ | depth IH ]; cbn [get_next_step];
    [ apply emits_raise | unfold get_next_step_body ].
  apply emits_bind. intros s.
  destruct (negb (truthy _)).
  - apply emits_bind. intros first. apply emits_bind. intros _. exact IH.
  - apply emits_bind. intros [ nd | ];
      [ | apply emits_ret, end_workflow_client_only ].
    destruct (_ >=? _).
    + apply emits_try_catch; [ | apply emits_ret, end_workflow_client_only ].
      apply emits_bind. intros idx.
      destruct (_ <? _); [ | apply emits_ret, end_workflow_client_only ].
      apply emits_bind. intros next. apply emits_bind. intros _. exact IH.
    + apply emits_bind. intros blk. unfold inspect_block.
      apply emits_bind. intros ty.
      destruct (is_str ty "CONDITION"); [ | apply perform_client_only ].
      apply emits_bind. intros rules. apply emits_bind. intros [ | a acts ].
      * apply emits_bind. intros _. exact IH.
      * apply perform_client_only.
Qed.

(** X5. The internal actions never reach the client: whatever the
    workflow, the session and the tools, no action that [get_next_step]
    returns is a SET_VARIABLE, an UPDATE_VARIABLE or an ANALYZE_RESPONSE. *)
Theorem get_next_step_returns_client_actions (depth : nat) (o : Orchestrator)
    (w w' : world) (actions : list dict) (a : dict) :
  get_next_step depth o w = (Ok actions, w') ->
  In a actions ->
  is_str (action_type a) "SET_VARIABLE" = false
  /\ is_str (action_type a) "UPDATE_VARIABLE" = false
  /\ is_str (action_type a) "ANALYZE_RESPONSE" = false.
Proof.
  intros Hrun Ha.
  pose proof (get_next_step_emits_client_only depth o w actions w' Hrun a Ha) as H.
  unfold is_internal in H.
  apply orb_false_elim in H as [H H3]. apply orb_false_elim in H as [H1 H2].
  auto.
Qed.

(** X6. Processing actions cannot navigate: whatever the actions and the
    tools do, and whether the processing returns or raises,
    [_process_actions_internally] leaves the node identifier and the block
    index of the session as they were. *)
Theorem process_actions_keep_position (o : Orchestrator) (actions : list dict)
    (w : world) :
  let w' := snd (_process_actions_internally o actions w) in
  current_node_id (session_state w') = current_node_id (session_state w)
  /\ current_block_index (session_state w') = current_block_index (session_state w).
Proof. exact (keeps_process_actions o actions w). Qed.

End ClientFacts.

(** ** The sessions a client can reach *)

Section ReachableFacts.
Context {E : Env}.
Local Open Scope Z_scope.

Lemma reachable_well_formed (o : Orchestrator) (w : world) :
  reachable o w -> well_formed (session_state w).
Proof.
  induction 1 as [ n | depth w _ IH | action_id response w _ IH | vars w _ IH ].
  - apply empty_session_well_formed.
  - exact (get_next_step_well_formed depth o w IH).
  - exact (process_user_response_well_formed action_id response w IH).
  - exact IH.
Qed.

(** X7. In every session a client can reach from the empty one, by calls
    of [get_next_step] and [process_user_response] with any arguments and
    by rewriting the variables in between, a session that names a node or
    holds a pending action stores its block index. *)
Theorem reachable_sessions_store_index (o : Orchestrator) (w : world) :
  reachable o w ->
  started (session_state w) = true \/ pending_action (session_state w) <> None ->
  exists i, current_block_index (session_state w) = Some i.
Proof.
  intros Hr Hs. apply (reachable_well_formed o w Hr).
  destruct Hs as [Hs | Hs]; [ left | now right ].
  unfold started in Hs. now destruct (current_node_id (session_state w)).
Qed.

(** X8. On a reachable session whose pending target, if any, is a
    variable name, [process_user_response] returns normally for every
    identifier and every response: the increment of the block index never
    finds the index missing. *)
Theorem process_user_response_returns (o : Orchestrator) (w : world)
    (action_id : string) (response : value) :
  reachable o w ->
  (forall p, pending_action (session_state w) = Some p -> target_is_name p = true) ->
  fst (process_user_response action_id response w) = Ok tt.
Proof.
  intros Hr Hname.
  pose proof (reachable_well_formed o w Hr) as Hw.
  unfold process_user_response, bind, get_session.
  destruct (pending_action (session_state w)) as [ p | ] eqn:Hp; [ | reflexivity ].
  destruct (truthy (VDict p) && _); [ | reflexivity ].
  destruct (well_formed_pending_stored _ p Hw Hp) as [i Hi].
  specialize (Hname p eq_refl). unfold target_is_name in Hname.
  unfold dict_get_default.
  destruct (dict_get p "target") as [ t | ]; cbn [truthy].
  - destruct (truthy t) eqn:Htr.
    + destruct t; try discriminate Hname.
      rewrite set_variable_named. unfold modify_session, increment_block_index.
      cbn [session_state uuid_calls current_block_index set_pending_action
           set_variables].
      now rewrite Hi.
    + unfold ret, modify_session, increment_block_index.
      cbn [session_state uuid_calls current_block_index set_pending_action].
      now rewrite Hi.
  - unfold ret, modify_session, increment_block_index.
    cbn [session_state uuid_calls current_block_index set_pending_action].
    now rewrite Hi.
Qed.

End ReachableFacts.

(** ** Question and answer *)

Section AnswerFacts.
Context {E : Env}.
Local Open Scope Z_scope.

(** X9. Question and answer together move the session two blocks on:
    after [get_next_step] has emitted an AWAIT_USER_INPUT block at index
    [i], [process_user_response] with the emitted identifier stores the
    response under the target, clears the pending action and leaves the
    index at [i + 2], so the block at [i + 1] is never inspected. *)
Theorem await_then_respond (depth : nat) (o : Orchestrator) (w : world)
    (blk : block) (i : Z) (target : string) (response : value) :
  current_block o (session_state w) = Some blk ->
  current_block_index (session_state w) = Some i ->
  dict_get (block_fields blk) "type" = Some (VStr "AWAIT_USER_INPUT") ->
  dict_get (block_fields blk) "target" = Some (VStr target) ->
  let vars := variables_of (session_state w) in
  let name := interpolate_text target vars in
  name <> "" ->
  process_user_response (uuid4 (uuid_calls w)) response
    (snd (get_next_step (S depth) o w))
  = (Ok tt,
     mkWorld (mkSession (current_node_id (session_state w)) (Some (i + 2))
                        (Some (dict_set vars name response)) None)
             (S (uuid_calls w))).
Proof.
  intros Hblk Hi Hty Htgt vars name Hne. subst vars name.
  rewrite (get_next_step_plain_block depth o w blk _ i Hblk Hi Hty eq_refl eq_refl).
  unfold process_action.
  rewrite (interpolated_type _ _ "AWAIT_USER_INPUT" Hty eq_refl).
  decide_types. unfold advance_world, advance. rewrite Hi.
  unfold bind at 1. unfold fresh_uuid at 1. cbv beta iota zeta.
  unfold bind at 1. unfold modify_session at 1. cbv beta iota.
  unfold ret. cbn [snd session_state uuid_calls].
  set (emitted := dict_set _ "id" _).
  assert (Hid : dict_get emitted "id" = Some (VStr (uuid4 (uuid_calls w))))
    by apply dict_get_set_same.
  assert (Ht : dict_get emitted "target"
               = Some (VStr (interpolate_text target (variables_of (session_state w))))).
  { unfold emitted. rewrite dict_get_set_other by discriminate.
    rewrite dict_get_interpolate_action, Htgt. unfold action_type, dict_get_default.
    rewrite Hty. reflexivity. }
  unfold process_user_response, bind, get_session.
  cbn [session_state pending_action set_pending_action].
  rewrite pending_test. unfold dict_get_default.
  rewrite Hid, Ht. cbn [is_str truthy]. rewrite String.eqb_refl.
  replace (PyStr.is_empty (interpolate_text target (variables_of (session_state w))))
    with false
    by (destruct (interpolate_text target _); [ now elim Hne | reflexivity ]).
  cbn [negb]. rewrite set_variable_named.
  unfold modify_session, increment_block_index.
  cbn [session_state uuid_calls current_block_index set_pending_action
       set_variables set_block_index current_node_id variables pending_action
       variables_of].
  replace (i + 1 + 1) with (i + 2) by lia. reflexivity.
Qed.

(** X10. An answer is taken once: after [process_user_response] has
    consumed a pending action, any further call, with the same or another
    identifier, returns normally and leaves the session as it is. *)
Theorem answered_once (w : world) (action_id other_id : string)
    (response other_response : value) :
  (forall p, pending_action (session_state w) = Some p -> target_is_name p = true) ->
  pending_matches (session_state w) action_id = true ->
  let w1 := snd (process_user_response action_id response w) in
  process_user_response other_id other_response w1 = (Ok tt, w1).
Proof.
  intros Hname Hm w1.
  destruct (proj1 (pending_matches_id _ _) Hm) as (p & Hp & _).
  apply process_user_response_no_match.
  unfold pending_matches, w1.
  now rewrite (process_user_response_clears action_id response w p Hp Hm (Hname p Hp)).
Qed.

End AnswerFacts.

(** ** Interpolation where nothing is bound *)

Section UnboundFacts.
Context {E : Env}.

Lemma fold_left_fixed {A B : Type} (f : A -> B -> A) (l : list B) (a : A) :
  (forall b, In b l -> f a b = a) -> fold_left f l a = a.
Proof.
  induction l as [ | b l IH ]; intros H; [ reflexivity | ].
  cbn [fold_left]. rewrite (H b (or_introl eq_refl)).
  apply IH. intros x Hx. apply H. now right.
Qed.

Lemma interpolate_text_no_binding (text : string) (vars : dict) :
  (forall n, In n (findall_placeholders text) ->
             dict_get vars n = None \/ dict_get vars n = Some VNone) ->
  interpolate_text text vars = text.
Proof.
  intros H. unfold interpolate_text. apply fold_left_fixed.
  intros n Hn. unfold interpolate_step.
  now destruct (H n Hn) as [-> | ->].
Qed.

(** X11. Interpolation changes a text only through a bound name: when
    every placeholder of the text is unbound or bound to null, whatever
    else the text holds (stray braces included), the text comes back as it
    is. In particular nothing changes under an empty mapping. *)
Theorem interpolate_text_unbound (text : string) (vars : dict) :
  (forall n, In n (findall_placeholders text) ->
             dict_get vars n = None \/ dict_get vars n = Some VNone) ->
  interpolate_text text vars = text
  /\ interpolate_variables (VStr text) vars = VStr text
  /\ interpolate_text text [] = text.
Proof.
  intros H. rewrite (interpolate_text_no_binding text vars H).
  cbn [interpolate_variables]. rewrite (interpolate_text_no_binding text vars H).
  repeat split. apply interpolate_text_no_binding. intros n _. now left.
Qed.

Lemma interpolate_with_types_empty (v : value) : _interpolate_with_types v [] = v.
Proof.
  destruct v as [ | | | | s | | ]; try reflexivity.
  unfold _interpolate_with_types.
  assert (H : interpolate_variables (VStr s) [] = VStr s).
  { cbn [interpolate_variables]. f_equal.
    apply interpolate_text_no_binding. intros n _. now left. }
  destruct (single_var_match (PyStr.strip s)); cbn [dict_get]; exact H.
Qed.

Lemma interpolate_args_deep_empty : forall v : value, _interpolate_args_deep v [] = v.
Proof.
  fix IH 1. intros v.
  destruct v as [ | b | n | f | s | l | d ];
    try (cbn [_interpolate_args_deep]; apply interpolate_with_types_empty).
  - cbn [_interpolate_args_deep]. f_equal.
    revert l. fix IHl 1. intros [ | x l ]; [ reflexivity | ].
    cbn [map]. now rewrite (IH x), (IHl l).
  - cbn [_interpolate_args_deep]. f_equal.
    revert d. fix IHd 1. intros [ | [k x] d ]; [ reflexivity | ].
    cbn [map]. now rewrite (IH x), (IHd d).
Qed.

(** X12. Deep interpolation keeps the shape of an argument tree: the keys
    of a dict stay in place and a list keeps its length, whatever the
    variables; and under an empty mapping the whole tree, at any depth,
    comes back unchanged. *)
Theorem interpolate_args_deep_shape (vars : dict) :
  (forall d : dict,
     exists d', _interpolate_args_deep (VDict d) vars = VDict d'
                /\ map fst d' = map fst d)
  /\ (forall l : list value,
        exists l', _interpolate_args_deep (VList l) vars = VList l'
                   /\ List.length l' = List.length l)
  /\ (forall v : value, _interpolate_args_deep v [] = v).
Proof.
  split; [ | split ].
  - intros d. eexists. split; [ reflexivity | ].
    rewrite map_map. apply map_ext. now intros [k x].
  - intros l. eexists. split; [ reflexivity | ]. apply length_map.
  - exact interpolate_args_deep_empty.
Qed.

End UnboundFacts.

(** ** Call strings *)

Section CallFacts.
Context {E : Env}.

Lemma span_all (p : ascii -> bool) (a : string) (c : ascii) (r : string) :
  (fix all (s : string) : bool :=
     match s with
     | EmptyString => true
     | String x s' => p x && all s'
     end) a = true ->
  p c = false ->
  PyStr.span p (a ++ String c r) = (a, String c r).
Proof.
  intros Ha Hc. induction a as [ | x a IH ]; cbn [append PyStr.span].
  - now rewrite Hc.
  - apply andb_prop in Ha as [Hx Ha]. now rewrite Hx, (IH Ha).
Qed.

Lemma span_word_name (name : string) (c : ascii) (r : string) :
  all_word_chars name = true ->
  PyStr.is_word c = false ->
  PyStr.span PyStr.is_word (name ++ String c r) = (name, String c r).
Proof. intros Hn Hc. now apply span_all. Qed.

Lemma unsnoc_last (a : string) (c : ascii) :
  unsnoc (a ++ String c "") = Some (a, c).
Proof.
  induction a as [ | x a IH ]; cbn [append unsnoc]; [ reflexivity | ].
  now rewrite IH.
Qed.

Lemma word_is_no_space (c : ascii) : PyStr.is_word c = true -> PyStr.is_space c = false.
Proof.
  destruct c as [[] [] [] [] [] [] [] []]; intros H;
    solve [ reflexivity | discriminate H ].
Qed.

(** The call pattern on a name followed by a parenthesized text. *)
Lemma call_match_call (name inner : string) :
  is_word_name name = true ->
  PyStr.has_char "010" inner = false ->
  call_match (name ++ "(" ++ inner ++ ")") = Some (name, inner).
Proof.
  unfold is_word_name. intros Hn Hin.
  apply andb_prop in Hn as [Hne Hall].
  unfold call_match.
  change (name ++ "(" ++ inner ++ ")") with (name ++ String "(" (inner ++ ")")).
  rewrite (span_word_name name "(" _ Hall eq_refl).
  destruct name as [ | c n ]; [ discriminate Hne | ].
  rewrite unsnoc_last. cbv iota beta. rewrite unsnoc_last. cbv iota beta.
  now rewrite Hin.
Qed.

Lemma strip_call (name inner : string) :
  is_word_name name = true ->
  PyStr.strip (name ++ "(" ++ inner ++ ")") = name ++ "(" ++ inner ++ ")".
Proof.
  unfold is_word_name. intros Hn. apply andb_prop in Hn as [Hne Hall].
  destruct name as [ | c n ]; [ discriminate Hne | ].
  cbn [all_word_chars] in Hall. apply andb_prop in Hall as [Hc _].
  unfold PyStr.strip. cbn [append PyStr.lstrip].
  rewrite (word_is_no_space c Hc).
  replace (String c (n ++ String "(" (inner ++ ")")))
    with ((String c (n ++ String "(" inner)) ++ ")").
  - now apply rstrip_keeps_last.
  - cbn [append]. f_equal. rewrite append_assoc. reflexivity.
Qed.

Lemma parse_function_call_call (name inner : string) :
  is_word_name name = true ->
  PyStr.has_char "010" inner = false ->
  parse_function_call (name ++ "(" ++ inner ++ ")")
  = (Some name, arguments_of inner).
Proof.
  intros Hn Hin. unfold parse_function_call, arguments_of.
  rewrite (strip_call name inner Hn), (call_match_call name inner Hn Hin).
  destruct (PyStr.is_empty (PyStr.strip inner)); [ reflexivity | ].
  now destruct (literal_eval_list _).
Qed.

(** X13. A call text always parses: for a name of word characters and any
    text without a newline between the parentheses, [parse_function_call]
    returns the name; the arguments are none when the text is blank, the
    values [ast.literal_eval] reads when the text in brackets is a literal
    list, and otherwise the trimmed text as one string. *)
Theorem parse_function_call_of_call (name inner : string) :
  is_word_name name = true ->
  PyStr.has_char "010" inner = false ->
  (PyStr.strip inner = "" ->
   parse_function_call (name ++ "(" ++ inner ++ ")") = (Some name, []))
  /\ (forall args,
        PyStr.strip inner <> "" ->
        literal_eval_list ("[" ++ PyStr.strip inner ++ "]") = Some args ->
        parse_function_call (name ++ "(" ++ inner ++ ")") = (Some name, args))
  /\ (PyStr.strip inner <> "" ->
      literal_eval_list ("[" ++ PyStr.strip inner ++ "]") = None ->
      parse_function_call (name ++ "(" ++ inner ++ ")")
      = (Some name, [VStr (PyStr.strip inner)])).
Proof.
  intros Hn Hin. rewrite (parse_function_call_call name inner Hn Hin).
  unfold arguments_of. split; [ | split ].
  - now intros ->.
  - intros args Hne ->.
    destruct (PyStr.strip inner); [ now elim Hne | reflexivity ].
  - intros Hne ->.
    destruct (PyStr.strip inner); [ now elim Hne | reflexivity ].
Qed.







End CallFacts.

(** ** Registration and lookup *)

Section RegistryFacts.
Context {E : Env}.

Lemma assoc_get_set_same {A : Type} (d : list (string * A)) (k : string) (v : A) :
  assoc_get (assoc_set d k v) k = Some v.
Proof.
  induction d as [ | [k' v'] d IH ]; cbn [assoc_set assoc_get].
  - now rewrite String.eqb_refl.
  - destruct (String.eqb k' k) eqn:Hk; cbn [assoc_get]; now rewrite Hk.
Qed.

Lemma assoc_get_set_other {A : Type} (d : list (string * A)) (k k' : string) (v : A) :
  k' <> k -> assoc_get (assoc_set d k v) k' = assoc_get d k'.
Proof.
  intros Hne. induction d as [ | [x v'] d IH ]; cbn [assoc_set assoc_get].
  - destruct (String.eqb k k') eqn:Hk; [ | reflexivity ].
    apply String.eqb_eq in Hk. now elim Hne.
  - destruct (String.eqb x k) eqn:Hx; cbn [assoc_get].
    + apply String.eqb_eq in Hx. subst x.
      destruct (String.eqb k k') eqn:Hk; [ | reflexivity ].
      apply String.eqb_eq in Hk. now elim Hne.
    + now rewrite IH.
Qed.

Lemma find_tool_assoc_get (reg : registry) (name : string) :
  find_tool reg name = assoc_get reg name.
Proof.
  induction reg as [ | [n f] reg IH ]; [ reflexivity | ].
  cbn [find_tool assoc_get]. now rewrite IH.
Qed.

Lemma register_tools (reg : ToolRegistry) (name : string) (func : callable)
    (description category : string) (examples : option (list string)) :
  tools (snd (register reg name func description category examples))
  = assoc_set (tools reg) name (callable_run func).
Proof.
  unfold register.
  destruct (callable_signature func); [ | reflexivity ].
  now destruct (callable_type_hints func).
Qed.

Lemma find_tool_register (reg : ToolRegistry) (name : string) (func : callable)
    (description category : string) (examples : option (list string)) :
  find_tool (tools (snd (register reg name func description category examples)))
    name
  = Some (callable_run func).
Proof.
  rewrite register_tools, find_tool_assoc_get. apply assoc_get_set_same.
Qed.

(** X15. A callable is reached through a call text as soon as [register]
    has stored it, whether the registration then returns or raises:
    [execute_tool_call] on a text that interpolates to [name(inner)] runs
    the callable on the parsed arguments, with no keyword arguments, and
    returns or raises what it does. Under a registry that does not know
    the name the same text gives null and raises nothing. *)
Theorem execute_tool_call_registered (reg : ToolRegistry) (name : string)
    (func : callable) (description category : string)
    (examples : option (list string)) (text inner : string) (vars : dict) :
  is_word_name name = true ->
  PyStr.has_char "010" inner = false ->
  interpolate_text text vars = name ++ "(" ++ inner ++ ")" ->
  execute_tool_call (VStr text) vars
    (tools (snd (register reg name func description category examples)))
  = callable_run func (arguments_of inner) []
  /\ (find_tool (tools reg) name = None ->
      execute_tool_call (VStr text) vars (tools reg) = Ok VNone).
Proof.
  intros Hn Hin Ht. unfold execute_tool_call.
  cbn [interpolate_variables]. rewrite Ht.
  rewrite (parse_function_call_call name inner Hn Hin).
  unfold call. rewrite find_tool_register. split; [ reflexivity | ].
  now intros ->.
Qed.

Lemma register_raises (reg : ToolRegistry) (name : string) (func : callable)
    (description category : string) (examples : option (list string)) (e : exn) :
  fst (register reg name func description category examples) = Raise e ->
  snd (register reg name func description category examples)
  = store_tool reg name func.
Proof.
  unfold register.
  destruct (callable_signature func); [ | reflexivity ].
  destruct (callable_type_hints func); [ discriminate | reflexivity ].
Qed.

(** X16. [register] stores the callable before it reads the signature:
    whether it returns or raises, the name is then known and calling it
    runs the new callable, and every other name keeps its callable and its
    definition. It raises exactly what [inspect.signature] or
    [get_type_hints] raises on the callable, and then the definitions are
    as before: the name has a callable and no definition, or the
    definition of an earlier registration. When it returns, the definition
    of the name carries the name as id, one argument per parameter in
    signature order, required exactly when the parameter has no default. *)
Theorem register_lookup (reg : ToolRegistry) (name : string) (func : callable)
    (description category : string) (examples : option (list string))
    (args : list value) (kwargs : dict) :
  has_tool (tools (snd (register reg name func description category examples)))
    (VStr name) = Ok true
  /\ call (tools (snd (register reg name func description category examples)))
       name args kwargs = callable_run func args kwargs
  /\ (forall other, other <> name ->
        find_tool
          (tools (snd (register reg name func description category examples)))
          other = find_tool (tools reg) other
        /\ get_tool_definition
             (snd (register reg name func description category examples)) other
           = get_tool_definition reg other)
  /\ (forall e,
        fst (register reg name func description category examples) = Raise e
        <-> (callable_signature func = Raise e
             \/ (exists parameters, callable_signature func = Ok parameters)
                /\ callable_type_hints func = Raise e))
  /\ (forall e,
        fst (register reg name func description category examples) = Raise e ->
        get_tool_definition
          (snd (register reg name func description category examples)) name
        = get_tool_definition reg name)
  /\ (forall parameters,
        fst (register reg name func description category examples) = Ok tt ->
        callable_signature func = Ok parameters ->
        exists def,
          get_tool_definition
            (snd (register reg name func description category examples)) name
          = Some def
          /\ definition_id def = name
          /\ definition_category def = category
          /\ map argument_name (definition_arguments def)
             = map parameter_name parameters
          /\ map argument_required (definition_arguments def)
             = map (fun p => match parameter_default p with
                             | Some _ => false
                             | None => true
                             end) parameters).
Proof.
  split; [ | split; [ | split; [ | split; [ | split ] ] ] ].
  - cbn [has_tool]. now rewrite find_tool_register.
  - unfold call. now rewrite find_tool_register.
  - intros other Hne. rewrite register_tools, !find_tool_assoc_get.
    rewrite (assoc_get_set_other _ name other _ Hne). split; [ reflexivity | ].
    unfold get_tool_definition, register, store_tool.
    destruct (callable_signature func); [ | reflexivity ].
    destruct (callable_type_hints func); [ | reflexivity ].
    cbn [snd definitions]. now rewrite (assoc_get_set_other _ name other _ Hne).
  - intros e. unfold register.
    destruct (callable_signature func) as [ ps | e1 ].
    + destruct (callable_type_hints func) as [ hs | e2 ]; cbn [fst].
      * split; [ discriminate | ].
        intros [H | [_ H]]; discriminate H.
      * split.
        -- intros [= ->]. right. split; [ now exists ps | reflexivity ].
        -- intros [H | [_ [= ->]]]; [ discriminate H | reflexivity ].
    + cbn [fst]. split.
      * intros [= ->]. now left.
      * intros [[= ->] | [[ps H] _]]; [ reflexivity | discriminate H ].
  - intros e He. now rewrite (register_raises _ _ _ _ _ _ e He).
  - intros parameters. unfold register, get_tool_definition.
    destruct (callable_signature func) as [ ps | e1 ]; [ | discriminate ].
    destruct (callable_type_hints func) as [ hs | e2 ]; [ | discriminate ].
    intros _ [= <-]. cbn [snd definitions store_tool].
    eexists. split; [ apply assoc_get_set_same | ].
    cbn [definition_id definition_category definition_arguments].
    rewrite !map_map. repeat split.
Qed.

Lemma assoc_set_keys {A : Type} (d : list (string * A)) (k : string) (v : A) :
  map fst (assoc_set d k v)
  = if existsb (String.eqb k) (map fst d) then map fst d
    else (map fst d ++ [k])%list.
Proof.
  induction d as [ | [k' v'] d IH ]; [ reflexivity | ].
  cbn [assoc_set map fst existsb]. rewrite (String.eqb_sym k k').
  destruct (String.eqb k' k) eqn:Hk; cbn [orb map fst].
  - apply String.eqb_eq in Hk. now subst k'.
  - rewrite IH. now destruct (existsb _ _).
Qed.

Lemma existsb_eqb_In (k : string) (l : list string) :
  existsb (String.eqb k) l = false -> ~ In k l.
Proof.
  induction l as [ | x l IH ]; cbn [existsb In]; [ tauto | ].
  intros H. apply orb_false_elim in H as [Hx H].
  intros [-> | Hin]; [ now rewrite String.eqb_refl in Hx | now apply IH ].
Qed.

Lemma assoc_set_has_key {A : Type} (d : list (string * A)) (k : string) (v : A) :
  In k (map fst (assoc_set d k v)).
Proof.
  rewrite assoc_set_keys. destruct (existsb _ _) eqn:Hx.
  - apply existsb_exists in Hx as (x & Hin & Hk).
    apply String.eqb_eq in Hk. now subst x.
  - rewrite in_app_iff. right. now left.
Qed.

Lemma assoc_set_keeps_keys {A : Type} (d : list (string * A)) (k : string) (v : A) :
  incl (map fst d) (map fst (assoc_set d k v)).
Proof.
  rewrite assoc_set_keys. destruct (existsb _ _); [ apply incl_refl | ].
  apply incl_appl, incl_refl.
Qed.

Lemma NoDup_snoc {A : Type} (l : list A) (x : A) :
  NoDup l -> ~ In x l -> NoDup (l ++ [x])%list.
Proof.
  intros Hl Hx. induction Hl as [ | y l Hy Hl IH ]; cbn [app].
  - constructor; [ tauto | constructor ].
  - constructor.
    + rewrite in_app_iff. cbn [In]. intros [H | [H | []]]; [ tauto | ].
      subst y. apply Hx. now left.
    + apply IH. intros H. apply Hx. now right.
Qed.

Lemma assoc_set_filed (d : list (string * ToolDefinition)) (k : string)
    (v : ToolDefinition) :
  Forall (fun kd => definition_id (snd kd) = fst kd) d ->
  definition_id v = k ->
  Forall (fun kd => definition_id (snd kd) = fst kd) (assoc_set d k v).
Proof.
  intros Hd Hv. induction Hd as [ | [k' v'] d Hx Hd IH ]; cbn [assoc_set].
  - now repeat constructor.
  - destruct (String.eqb k' k) eqn:Hk.
    + apply String.eqb_eq in Hk. subst k'. now constructor.
    + now constructor.
Qed.

(** Every call of [register], returning or raising, keeps the catalogue
    in order. *)
Lemma register_catalogued (reg : ToolRegistry) (x : registration) :
  catalogued reg -> catalogued (snd (register_one reg x)).
Proof.
  intros (Hn & Hf & Hi). unfold catalogued, register_one.
  rewrite register_tools. unfold register, store_tool.
  destruct (callable_signature _) as [ ps | e1 ];
    [ destruct (callable_type_hints _) as [ hs | e2 ] | ];
    cbn [snd definitions tools].
  - split; [ | split ].
    + rewrite assoc_set_keys.
      destruct (existsb _ _) eqn:Hx; [ exact Hn | ].
      apply NoDup_snoc; [ exact Hn | now apply existsb_eqb_In ].
    + now apply assoc_set_filed.
    + rewrite (assoc_set_keys (definitions reg)).
      destruct (existsb _ (map fst (definitions reg))).
      * eapply incl_tran; [ exact Hi | apply assoc_set_keeps_keys ].
      * apply incl_app.
        -- eapply incl_tran; [ exact Hi | apply assoc_set_keeps_keys ].
        -- intros k [<- | []]. apply assoc_set_has_key.
  - split; [ exact Hn | split; [ exact Hf | ] ].
    eapply incl_tran; [ exact Hi | apply assoc_set_keeps_keys ].
  - split; [ exact Hn | split; [ exact Hf | ] ].
    eapply incl_tran; [ exact Hi | apply assoc_set_keeps_keys ].
Qed.

Lemma fold_register_catalogued (l : list registration) (reg : ToolRegistry) :
  catalogued reg ->
  catalogued (fold_left (fun reg x => snd (register_one reg x)) l reg).
Proof.
  revert reg. induction l as [ | x l IH ]; intros reg H; [ exact H | ].
  cbn [fold_left]. apply IH. now apply register_catalogued.
Qed.

(** A call of [register] that returns keeps the two tables in step. *)
Lemma register_consistent (reg reg' : ToolRegistry) (x : registration) :
  consistent reg ->
  register_one reg x = (Ok tt, reg') ->
  consistent reg'.
Proof.
  unfold consistent, register_one, register, store_tool. intros Hk.
  destruct (callable_signature _) as [ ps | e1 ]; [ | discriminate ].
  destruct (callable_type_hints _) as [ hs | e2 ]; [ | discriminate ].
  intros [= <-]. cbn [tools definitions].
  now rewrite !assoc_set_keys, Hk.
Qed.

Lemma fold_register_consistent (l : list registration) (reg : ToolRegistry) :
  consistent reg ->
  all_registered l reg = true ->
  consistent (fold_left (fun reg x => snd (register_one reg x)) l reg).
Proof.
  revert reg. induction l as [ | x l IH ]; intros reg H Ha; [ exact H | ].
  cbn [fold_left all_registered] in *.
  destruct (register_one reg x) as [[ [] | e ] reg'] eqn:Hx; [ | discriminate ].
  cbn [snd]. apply IH; [ | exact Ha ].
  exact (register_consistent reg reg' x H Hx).
Qed.

Lemma assoc_get_keys {A : Type} (d : list (string * A)) (k : string) :
  (exists v, assoc_get d k = Some v) <-> In k (map fst d).
Proof.
  induction d as [ | [k' v'] d IH ]; cbn [assoc_get map fst In].
  - split; [ now intros [v Hv] | tauto ].
  - destruct (String.eqb k' k) eqn:Hk.
    + apply String.eqb_eq in Hk. split; [ now left | eauto ].
    + rewrite IH. split; [ now right | ].
      intros [H | H]; [ | exact H ]. subst k'. now rewrite String.eqb_refl in Hk.
Qed.

Lemma assoc_get_In {A : Type} (d : list (string * A)) (k : string) (v : A) :
  assoc_get d k = Some v -> In (k, v) d.
Proof.
  induction d as [ | [k' v'] d IH ]; cbn [assoc_get In]; [ discriminate | ].
  destruct (String.eqb k' k) eqn:Hk.
  - apply String.eqb_eq in Hk. intros [= ->]. left. now subst k'.
  - intros H. right. now apply IH.
Qed.

(** X17. However many calls of [register] are made on a new registry,
    with whatever names repeated and whichever of them raising, the
    catalogue lists no id twice, and every name it lists is filed under
    its own id and is callable. When every call returned, the catalogue
    has one definition per callable tool in the same order, and a name is
    callable exactly when it has a definition. *)
Theorem register_all_catalogue (l : list registration) :
  NoDup (map definition_id (list_tools (register_all l)))
  /\ (forall name def,
        get_tool_definition (register_all l) name = Some def ->
        definition_id def = name
        /\ exists f, find_tool (tools (register_all l)) name = Some f)
  /\ (all_registered l empty_registry = true ->
      map definition_id (list_tools (register_all l))
      = map fst (tools (register_all l))
      /\ forall name,
           (exists f, find_tool (tools (register_all l)) name = Some f)
           <-> (exists def, get_tool_definition (register_all l) name = Some def)).
Proof.
  assert (Hc : catalogued (register_all l)).
  { apply fold_register_catalogued. repeat split; try constructor.
    intros k []. }
  destruct Hc as (Hn & Hf & Hi).
  assert (Hid : map definition_id (list_tools (register_all l))
                = map fst (definitions (register_all l))).
  { unfold list_tools. rewrite map_map. apply map_ext_in.
    intros kd Hin. now apply (proj1 (Forall_forall _ _) Hf). }
  split; [ now rewrite Hid | ]. split.
  - intros name def Hd. unfold get_tool_definition in Hd. split.
    + exact (proj1 (Forall_forall _ _) Hf (name, def) (assoc_get_In _ _ _ Hd)).
    + rewrite find_tool_assoc_get. apply assoc_get_keys, Hi.
      apply assoc_get_keys. now exists def.
  - intros Ha.
    assert (Hk : consistent (register_all l))
      by (apply fold_register_consistent; [ reflexivity | exact Ha ]).
    unfold consistent in Hk. split; [ now rewrite Hid, Hk | ].
    intros name. unfold get_tool_definition. rewrite find_tool_assoc_get.
    now rewrite !assoc_get_keys, Hk.
Qed.

End RegistryFacts.

(** ** How the operators of a rule relate *)

Section OperatorFacts.
Context {E : Env}.

Lemma test_body (op : string) (r : rule) (vars : dict) :
  rule_test op r vars
  = passes r vars
    && match condition_body op (variable_value_of r vars) (value_of r) with
       | Ok b => b
       | Raise _ => false
       end.
Proof.
  unfold rule_test, holds, passes, variable_value_of,
    _evaluate_structured_condition.
  change (variable_of (with_operator (Some (VStr op)) r)) with (variable_of r).
  change (value_of (with_operator (Some (VStr op)) r)) with (value_of r).
  change (operator_of (with_operator (Some (VStr op)) r)) with (VStr op).
  unfold py_format. cbn [printable].
  destruct (printable (variable_of r)); [ | reflexivity ].
  destruct (printable (value_of r)); [ | reflexivity ].
  cbn [bind_result andb].
  destruct (variable_of r) as [ | b | n | f | s | l | d ];
    cbn [variables_get hashable bind_result andb]; try reflexivity;
    match goal with
    | |- context [printable ?v] => destruct (printable v)
    end; cbn [bind_result andb]; try reflexivity;
    now destruct (condition_body _ _ _).
Qed.

Lemma startswith_inv (p s : string) :
  PyStr.startswith p s = true -> exists t, s = p ++ t.
Proof.
  revert s. induction p as [ | c p IH ]; intros s H.
  - now exists s.
  - destruct s as [ | b s ]; [ discriminate H | ].
    cbn [PyStr.startswith] in H. apply andb_prop in H as [Hc H].
    apply Ascii.eqb_eq in Hc. subst b.
    destruct (IH s H) as [t ->]. now exists t.
Qed.

Lemma contains_of_startswith (p s : string) :
  PyStr.startswith p s = true -> PyStr.contains p s = true.
Proof. intros H. destruct s; cbn [PyStr.contains]; now rewrite H. Qed.

Lemma contains_app (a p t : string) : PyStr.contains p (a ++ p ++ t) = true.
Proof.
  induction a as [ | c a IH ].
  - cbn [append]. apply contains_of_startswith, startswith_self.
  - cbn [append PyStr.contains]. rewrite IH. apply orb_true_r.
Qed.

Lemma string_of_list_ascii_app (a b : list ascii) :
  string_of_list_ascii (a ++ b)%list
  = string_of_list_ascii a ++ string_of_list_ascii b.
Proof.
  induction a as [ | c a IH ]; [ reflexivity | ].
  cbn [app string_of_list_ascii append]. now rewrite IH.
Qed.

Lemma list_ascii_of_string_app (a b : string) :
  list_ascii_of_string (a ++ b)
  = (list_ascii_of_string a ++ list_ascii_of_string b)%list.
Proof.
  induction a as [ | c a IH ]; [ reflexivity | ].
  cbn [app list_ascii_of_string append]. now rewrite IH.
Qed.

Lemma endswith_inv (p s : string) :
  PyStr.endswith p s = true -> exists t, s = t ++ p.
Proof.
  unfold PyStr.endswith. intros H.
  destruct (startswith_inv _ _ H) as [t Ht].
  exists (string_of_list_ascii (rev (list_ascii_of_string t))).
  apply (f_equal list_ascii_of_string) in Ht.
  rewrite list_ascii_of_string_app, !list_ascii_of_string_of_list_ascii in Ht.
  apply (f_equal (@rev ascii)) in Ht.
  rewrite rev_app_distr, !rev_involutive in Ht.
  apply (f_equal string_of_list_ascii) in Ht.
  rewrite string_of_list_ascii_app, !string_of_list_ascii_of_string in Ht.
  exact Ht.
Qed.

Lemma contains_of_endswith (p s : string) :
  PyStr.endswith p s = true -> PyStr.contains p s = true.
Proof.
  intros H. destruct (endswith_inv _ _ H) as [t ->].
  rewrite <- (append_empty_r p) at 2. apply contains_app.
Qed.

Lemma endswith_self (s : string) : PyStr.endswith s s = true.
Proof.
  unfold PyStr.endswith.
  rewrite <- (append_empty_r (string_of_list_ascii _)) at 2.
  apply startswith_self.
Qed.

Lemma startswith_refl (s : string) : PyStr.startswith s s = true.
Proof. rewrite <- (append_empty_r s) at 2. apply startswith_self. Qed.

(** X18. The text operators are ordered: a rule that holds with [equals]
    holds with [starts_with] and with [ends_with], and a rule that holds
    with either of these holds with [contains]. *)
Theorem text_operators_ordered (r : rule) (vars : dict) :
  (rule_test "equals" r vars = true ->
   rule_test "starts_with" r vars = true /\ rule_test "ends_with" r vars = true)
  /\ (rule_test "starts_with" r vars = true -> rule_test "contains" r vars = true)
  /\ (rule_test "ends_with" r vars = true -> rule_test "contains" r vars = true).
Proof.
  rewrite !test_body. destruct (passes r vars); cbn [andb];
    [ | repeat split; discriminate ].
  unfold condition_body. cbn [String.eqb Ascii.eqb Bool.eqb orb].
  split; [ | split ].
  - intros H. apply String.eqb_eq in H. rewrite H.
    split; [ apply startswith_refl | apply endswith_self ].
  - apply contains_of_startswith.
  - apply contains_of_endswith.
Qed.

(** X19. No value is both true and false for the engine, and the strict
    comparisons imply the weak ones: [is_true] and [is_false] never hold
    together, [greater_than] implies [greater_than_or_equal] and
    [less_than] implies [less_than_or_equal]. *)
Theorem exclusive_and_weaker_operators (r : rule) (vars : dict) :
  rule_test "is_true" r vars && rule_test "is_false" r vars = false
  /\ (rule_test "greater_than" r vars = true ->
      rule_test "greater_than_or_equal" r vars = true)
  /\ (rule_test "less_than" r vars = true ->
      rule_test "less_than_or_equal" r vars = true).
Proof.
  rewrite !test_body. destruct (passes r vars); cbn [andb];
    [ | split; [ reflexivity | split; discriminate ] ].
  unfold condition_body. cbn [String.eqb Ascii.eqb Bool.eqb orb].
  set (a := variable_value_of r vars). set (b := value_of r).
  assert (Hw : forall x y, SFltb x y = true -> SFleb x y = true).
  { intros x y. unfold SFltb, SFleb. now destruct (SFcompare x y) as [[]|]. }
  split; [ | split ].
  - clearbody a. destruct (String.eqb (lowered a) "true") eqn:Ht.
    + apply String.eqb_eq in Ht. rewrite Ht. cbn [String.eqb Ascii.eqb Bool.eqb].
      rewrite orb_false_r. destruct a as [ | [] | | | | | ]; try reflexivity.
      discriminate Ht.
    + rewrite orb_false_r. now destruct a as [ | [] | | | | | ].
  - clearbody a b. unfold compare_as_float.
    destruct (py_float a) as [x | e]; cbn [bind_result try_except];
      [ destruct (py_float b) as [y | e]; cbn [bind_result try_except] | ];
      [ apply Hw | destruct (existsb _ _); discriminate .. ].
  - clearbody a b. unfold compare_as_float.
    destruct (py_float a) as [x | e]; cbn [bind_result try_except];
      [ destruct (py_float b) as [y | e]; cbn [bind_result try_except] | ];
      [ apply Hw | destruct (existsb _ _); discriminate .. ].
Qed.

End OperatorFacts.

(** ** The variable store *)

Section StoreFacts.
Context {E : Env}.
Local Open Scope engine_scope.

Lemma dict_set_set (d : dict) (k : string) (a b : value) :
  dict_set (dict_set d k a) k b = dict_set d k b.
Proof.
  induction d as [ | [k' v'] d IH ]; cbn [dict_set].
  - now rewrite String.eqb_refl.
  - destruct (String.eqb k' k) eqn:Hk; cbn [dict_set]; rewrite Hk;
      [ reflexivity | now rewrite IH ].
Qed.

Lemma process_append (o : Orchestrator) (k : string) (v : value) (a : dict)
    (l : list value) (w : world) :
  appends k v a ->
  list_at (variables_of (session_state w)) k = Some l ->
  process_action o a w
  = (Ok [],
     with_variables
       (dict_set (variables_of (session_state w)) k (VList (l ++ [v])%list)) w).
Proof.
  intros (Hty & Ht & Hs & Hop) Hl. unfold process_action. rewrite Hty.
  cbn [is_str String.eqb Ascii.eqb Bool.eqb].
  unfold bind at 1. unfold lift at 1, dict_getitem. rewrite Ht.
  unfold bind at 1. unfold lift at 1. rewrite Hs.
  unfold bind at 1. unfold lift at 1. rewrite Hop.
  unfold bind at 1. rewrite update_variable_append. cbv zeta.
  unfold list_at in Hl.
  destruct (dict_get (variables_of (session_state w)) k) as [ [ | | | | | l' | ] | ];
    try discriminate Hl; injection Hl as <-; reflexivity.
Qed.

Lemma process_appends (o : Orchestrator) (k : string) (vs : list value)
    (actions : list dict) :
  Forall2 (appends k) vs actions ->
  forall (l : list value) (w : world),
    list_at (variables_of (session_state w)) k = Some l ->
    vs <> [] ->
    _process_actions_internally o actions w
    = (Ok [],
       with_variables
         (dict_set (variables_of (session_state w)) k (VList (l ++ vs)%list)) w).
Proof.
  induction 1 as [ | v a vs actions Ha Hrest IH ]; intros l w Hl Hne;
    [ now elim Hne | ].
  cbn [_process_actions_internally]. unfold bind at 1.
  rewrite (process_append o k v a l w Ha Hl).
  destruct vs as [ | v' vs ].
  - inversion Hrest; subst. reflexivity.
  - unfold bind at 1.
    rewrite (IH (l ++ [v])%list).
    + unfold ret. cbn [app]. f_equal. unfold with_variables.
      cbn [session_state uuid_calls variables_of set_variables variables].
      rewrite dict_set_set, <- app_assoc. reflexivity.
    + unfold list_at, with_variables.
      cbn [session_state variables_of set_variables variables].
      now rewrite dict_get_set_same.
    + discriminate.
Qed.

(** X20. A run of UPDATE_VARIABLE actions that append to one variable
    builds the list in the order of the actions: starting from the list
    [l] (or from nothing), after the actions that append the values
    [v1 .. vn], none of them a list or a dict, the variable holds
    [l ++ [v1 .. vn]]; no action is left for the client, and the node, the
    block index, the pending action and the identifiers drawn are as
    before. Nothing is said of the other variables: the append is made in
    place, and a variable that shares the list changes with it. *)
Theorem appends_accumulate (o : Orchestrator) (k : string) (vs : list value)
    (actions : list dict) (l : list value) (w : world) :
  Forall2 (appends k) vs actions ->
  forallb immutable vs = true ->
  list_at (variables_of (session_state w)) k = Some l ->
  vs <> [] ->
  exists w',
    _process_actions_internally o actions w = (Ok [], w')
    /\ get_variable (session_state w') k VNone = VList (l ++ vs)%list
    /\ current_node_id (session_state w') = current_node_id (session_state w)
    /\ current_block_index (session_state w') = current_block_index (session_state w)
    /\ pending_action (session_state w') = pending_action (session_state w)
    /\ uuid_calls w' = uuid_calls w.
Proof.
  intros Hf _ Hl Hne. eexists. split;
    [ exact (process_appends o k vs actions Hf l w Hl Hne) | ].
  unfold get_variable, dict_get_default, with_variables.
  cbn [session_state variables_of set_variables variables current_node_id
       current_block_index pending_action uuid_calls].
  rewrite dict_get_set_same. repeat split.
Qed.

(** X21. What [set_variable] stores, [get_variable] returns: after setting
    the variable [k] to [v], reading [k] gives [v] whatever the default,
    every other name reads as before (its default included), and the node,
    the block index and the pending action are untouched. *)
Theorem set_then_get_variable (k : string) (v : value) (w : world) :
  exists w',
    set_variable (VStr k) v w = (Ok tt, w')
    /\ (forall d, get_variable (session_state w') k d = v)
    /\ (forall k' d, k' <> k ->
          get_variable (session_state w') k' d = get_variable (session_state w) k' d)
    /\ current_node_id (session_state w') = current_node_id (session_state w)
    /\ current_block_index (session_state w') = current_block_index (session_state w)
    /\ pending_action (session_state w') = pending_action (session_state w).
Proof.
  eexists. split; [ apply set_variable_named | ].
  unfold get_variable, dict_get_default.
  cbn [session_state variables_of set_variables variables current_node_id
       current_block_index pending_action].
  split; [ | split ].
  - intros d. now rewrite dict_get_set_same.
  - intros k' d Hk. rewrite dict_get_set_other; [ reflexivity | ].
    intros ->. now apply Hk.
  - repeat split.
Qed.

(** X22. The built-in [update_variable] of the action registry never loses
    a value on append: whatever the target holds, it then holds a list
    whose last element is the interpolated value, and that list is what the
    call returns. A list grows by one, an absent target becomes a singleton,
    and any other value [x] is kept as the first of two elements. *)
Theorem registry_update_variable_append (context : session) (target : string)
    (v : value) :
  exists l,
    fst (ActionRegistry.update_variable context target v "append")
    = VList (l ++ [interpolate_variables v (variables_of context)])%list
    /\ get_variable
         (snd (ActionRegistry.update_variable context target v "append"))
         target VNone
       = VList (l ++ [interpolate_variables v (variables_of context)])%list
    /\ match dict_get (variables_of context) target with
       | None => l = []
       | Some (VList l0) => l = l0
       | Some x => l = [x]
       end.
Proof.
  unfold ActionRegistry.update_variable, get_variable, dict_get_default.
  cbn [String.eqb Ascii.eqb Bool.eqb fst snd].
  destruct (dict_get (variables_of context) target) as [ x | ] eqn:Hx.
  - destruct x as [ | b | n | f | s | l0 | d0 ];
      cbn [variables_of set_variables variables];
      rewrite dict_get_set_same;
      solve [ eexists [_]; repeat split | exists l0; repeat split ].
  - cbn [variables_of set_variables variables]. rewrite dict_get_set_same.
    exists []. repeat split.
Qed.

(** X23. On a target that is absent or holds a list, the engine's own
    [update_variable] and the built-in of the action registry agree on
    append: given the interpolated value, the engine leaves the session the
    built-in leaves. With any operation other than append they part: the
    built-in overwrites the target and the engine changes no variable. *)
Theorem update_variable_agrees_with_registry (target : string) (v : value)
    (l : list value) (w : world) :
  list_at (variables_of (session_state w)) target = Some l ->
  update_variable (VStr target)
    (interpolate_variables v (variables_of (session_state w))) (VStr "append") w
  = (Ok tt,
     mkWorld (snd (ActionRegistry.update_variable (session_state w) target v "append"))
             (uuid_calls w))
  /\ (forall operation, String.eqb operation "append" = false ->
      get_variable
        (snd (ActionRegistry.update_variable (session_state w) target v operation))
        target VNone
      = interpolate_variables v (variables_of (session_state w))
      /\ forall src,
           variables_of
             (session_state (snd (update_variable (VStr target) src (VStr operation) w)))
           = variables_of (session_state w)).
Proof.
  intros Hl. split.
  - rewrite update_variable_append. cbv zeta.
    unfold ActionRegistry.update_variable, list_at in *.
    cbn [String.eqb Ascii.eqb Bool.eqb snd].
    destruct (dict_get (variables_of (session_state w)) target)
      as [ [ | | | | | l' | ] | ]; try discriminate Hl; reflexivity.
  - intros operation Hop. split.
    + unfold ActionRegistry.update_variable, get_variable, dict_get_default.
      rewrite Hop. cbn [snd variables_of set_variables variables].
      now rewrite dict_get_set_same.
    + intros src. rewrite update_variable_other by exact Hop.
      reflexivity.
Qed.

End StoreFacts.

(** ** The depth of the recursion *)

Section DepthFacts.
Context {E : Env}.
Local Open Scope Z_scope.

(** The body calls [recur] at most in the world [next_call] names. *)
Lemma get_next_step_body_congruence (r1 r2 : M (list dict)) (o : Orchestrator)
    (w : world) :
  (forall w', next_call o w = Some w' -> r1 w' = r2 w') ->
  get_next_step_body o r1 w = get_next_step_body o r2 w.
Proof.
  intros H. unfold next_call, started, index_of_session in H.
  unfold get_next_step_body.
  unfold bind, get_session, lift, try_catch, modify_session.
  cbv beta iota zeta in *.
  assert (Hstart :
    (forall w', match node_order o with
                | [] => None
                | first :: _ => Some (enter_node (VStr first) w)
                end = Some w' -> r1 w' = r2 w') ->
    match list_getitem (node_order o) 0 with
    | Ok a =>
        r1 (mkWorld (set_block_index 0 (set_node_id (VStr a) (session_state w)))
                    (uuid_calls w))
    | Raise e => (Raise e, w)
    end
    = match list_getitem (node_order o) 0 with
      | Ok a =>
          r2 (mkWorld (set_block_index 0 (set_node_id (VStr a) (session_state w)))
                      (uuid_calls w))
      | Raise e => (Raise e, w)
      end).
  { intros H0. destruct (node_order o) as [ | first rest ]; [ reflexivity | ].
    change (list_getitem (first :: rest) 0) with (Ok first).
    cbv iota. apply H0. reflexivity. }
  destruct (current_node_id (session_state w)) as [ v | ] eqn:Hcur;
    [ | now apply Hstart ].
  destruct (truthy v) eqn:Hv; cbn [negb] in *; [ | now apply Hstart ].
  clear Hstart.
  destruct v as [ | b | n | f | id | l | dd ]; try reflexivity.
  cbn [nodes_get].
  destruct (find_node (workflow_nodes o) id) as [ nd | ]; [ | reflexivity ].
  destruct (_ >=? _).
  - destruct (index_from 0 (node_order o) (VStr id)) as [ p | e ]; [ | reflexivity ].
    destruct (p + 1 <? _); [ | reflexivity ].
    destruct (list_getitem (node_order o) (p + 1)) as [ next | e ]; [ | reflexivity ].
    specialize (H _ eq_refl). unfold enter_node in H. now rewrite H.
  - destruct (list_getitem (node_blocks nd) _) as [ blk | e ]; [ | reflexivity ].
    unfold inspect_block, bind, lift.
    destruct (dict_getitem (block_fields blk) "type") as [ ty | e ]; [ | reflexivity ].
    destruct (is_str ty "CONDITION"); [ | reflexivity ].
    destruct (block_rules blk) as [ rules | ]; [ | reflexivity ].
    destruct (condition_actions rules _) as [ [ | a acts ] | e ]; try reflexivity.
    unfold increment_block_index.
    destruct (current_block_index (session_state w)) as [ i | ]; [ | reflexivity ].
    unfold modify_session. apply H. reflexivity.
Qed.

Lemma find_node_fold (rest : list node) (id : string) (acc : option node) :
  fold_left
    (fun found n => if String.eqb (node_id n) id then Some n else found) rest acc
  = match find_node rest id with
    | Some x => Some x
    | None => acc
    end.
Proof.
  unfold find_node. revert acc.
  induction rest as [ | x rest IH ]; intros acc; [ reflexivity | ].
  cbn [fold_left].
  destruct (String.eqb (node_id x) id).
  - rewrite (IH (Some x)). now destruct (fold_left _ rest None).
  - rewrite (IH acc), (IH None). now destruct (fold_left _ rest None).
Qed.

Lemma find_node_cons (nd : node) (rest : list node) (id : string) :
  find_node (nd :: rest) id
  = match find_node rest id with
    | Some x => Some x
    | None => if String.eqb (node_id nd) id then Some nd else None
    end.
Proof. unfold find_node at 1. cbn [fold_left]. apply find_node_fold. Qed.

Lemma after_absent (nodes : list node) (id : string) :
  ~ In id (map node_id nodes) -> after nodes id = None.
Proof.
  induction nodes as [ | nd rest IH ]; [ reflexivity | ].
  cbn [map In after]. intros H.
  destruct (String.eqb_spec (node_id nd) id) as [Heq | Hne]; [ tauto | ].
  apply IH. tauto.
Qed.

Lemma after_split (nodes : list node) (id : string) (nd : node) (post : list node) :
  after nodes id = Some (nd, post) ->
  exists pre, nodes = (pre ++ nd :: post)%list
              /\ node_id nd = id /\ ~ In id (map node_id pre).
Proof.
  induction nodes as [ | x rest IH ]; [ discriminate | ].
  cbn [after]. destruct (String.eqb_spec (node_id x) id) as [Heq | Hne].
  - intros [= <- <-]. exists []. repeat split; auto.
  - intros H. destruct (IH H) as (pre & -> & Hid & Hpre).
    exists (x :: pre). repeat split; auto.
    cbn [map In]. tauto.
Qed.

Lemma after_found (pre : list node) (nd : node) (post : list node) :
  ~ In (node_id nd) (map node_id pre) ->
  after (pre ++ nd :: post)%list (node_id nd) = Some (nd, post).
Proof.
  induction pre as [ | x pre IH ]; cbn [app after map In]; intros H.
  - now rewrite String.eqb_refl.
  - destruct (String.eqb_spec (node_id x) (node_id nd)) as [Heq | Hne]; [ tauto | ].
    apply IH. tauto.
Qed.

(** Where no identifier is declared twice, the dict of nodes holds the
    first node of an identifier. *)
Lemma find_node_after (nodes : list node) (id : string) :
  NoDup (map node_id nodes) ->
  find_node nodes id = option_map fst (after nodes id).
Proof.
  induction nodes as [ | nd rest IH ]; [ reflexivity | ].
  cbn [map]. intros Hnd. inversion Hnd as [ | ? ? Hnew Hrest ]; subst.
  rewrite find_node_cons, (IH Hrest). cbn [after].
  destruct (String.eqb_spec (node_id nd) id) as [Heq | Hne].
  - subst id. now rewrite (after_absent rest _ Hnew).
  - now destruct (after rest id).
Qed.

Lemma weight_app (a b : list node) :
  weight (a ++ b)%list = (weight a + weight b)%nat.
Proof.
  induction a as [ | x a IH ]; [ reflexivity | ].
  cbn [app]. unfold weight in *. cbn [fold_right]. rewrite IH. lia.
Qed.

Lemma weight_cons (nd : node) (rest : list node) :
  weight (nd :: rest) = (List.length (node_blocks nd) + 1 + weight rest)%nat.
Proof. reflexivity. Qed.

Lemma truthy_id (id : string) : id <> "" -> truthy (VStr id) = true.
Proof. destruct id; [ intros H; now elim H | reflexivity ]. Qed.

Lemma list_getitem_nth {A : Type} (l : list A) (i : Z) (x : A) :
  0 <= i -> list_getitem l i = Ok x -> nth_error l (Z.to_nat i) = Some x.
Proof.
  intros Hi. unfold list_getitem.
  replace (i <? 0) with false by (symmetry; apply Z.ltb_ge; lia).
  destruct (_ && _); [ | discriminate ].
  destruct (nth_error l (Z.to_nat i)); [ now intros [= ->] | discriminate ].
Qed.

(** Every nested call is made in a world with fewer calls left. *)
Lemma next_call_decreases (o : Orchestrator) (w w' : world) :
  NoDup (node_order o) ->
  ~ In "" (node_order o) ->
  next_call o w = Some w' ->
  (calls_left o (session_state w') < calls_left o (session_state w))%nat.
Proof.
  unfold node_order. intros Hnd Hne. unfold next_call, calls_left.
  destruct (started (session_state w)) eqn:Hs; cbn [negb].
  - unfold started in Hs.
    destruct (current_node_id (session_state w)) as [ [ | | | | id | | ] | ] eqn:Hcur;
      try discriminate.
    rewrite (find_node_after _ id Hnd).
    destruct (after (workflow_nodes o) id) as [ [nd post] | ] eqn:Ha;
      [ | discriminate ].
    cbn [option_map fst].
    destruct (after_split _ _ _ _ Ha) as (pre & Hn & Hid & Hpre).
    destruct (_ >=? _) eqn:Hge.
    + unfold node_order. rewrite Hn, map_app. cbn [map]. rewrite Hid.
      rewrite (index_from_skip 0 _ id _ Hpre).
      destruct (_ <? _) eqn:Hlt; [ | discriminate ].
      destruct (list_getitem _ _) as [ next | e ] eqn:Hnext; [ | discriminate ].
      intros [= <-]. apply list_getitem_nth in Hnext; [ | lia ].
      replace (Z.to_nat (0 + Z.of_nat (List.length pre) + 1))
        with (List.length (map node_id pre) + 1)%nat in Hnext
        by (rewrite length_map; lia).
      rewrite nth_error_app2 in Hnext by lia.
      replace (_ - _)%nat with 1%nat in Hnext by lia.
      destruct post as [ | nd' post' ]; [ discriminate Hnext | ].
      cbn [map nth_error] in Hnext. injection Hnext as <-.
      cbn [enter_node session_state started current_node_id set_block_index
           set_node_id index_of_session current_block_index].
      rewrite Hn in Hnd, Hne.
      assert (Hin : In (node_id nd') (map node_id (pre ++ nd :: nd' :: post')%list)).
      { rewrite map_app, in_app_iff. right. cbn [map In]. auto. }
      assert (Hnext : node_id nd' <> "") by (intros H0; rewrite H0 in Hin; now apply Hne).
      rewrite (truthy_id _ Hnext). cbn [negb].
      replace (pre ++ nd :: nd' :: post')%list
        with ((pre ++ [nd]) ++ nd' :: post')%list
        by (rewrite <- app_assoc; reflexivity).
      rewrite after_found.
      * rewrite weight_cons. lia.
      * replace (pre ++ nd :: nd' :: post')%list
          with ((pre ++ [nd]) ++ nd' :: post')%list in Hnd
          by (rewrite <- app_assoc; reflexivity).
        rewrite map_app in Hnd. cbn [map] in Hnd.
        apply NoDup_remove_2 in Hnd. rewrite in_app_iff in Hnd.
        intros H0. apply Hnd. now left.
    + destruct (current_block_index (session_state w)) as [ i | ] eqn:Hi;
        [ | discriminate ].
      intros [= <-].
      cbn [session_state started current_node_id set_block_index
           index_of_session current_block_index].
      replace (started (set_block_index (i + 1) (session_state w))) with true
        by (unfold started; cbn [set_block_index current_node_id];
            now rewrite Hcur).
      rewrite Hcur. cbn [negb]. cbv beta iota. rewrite Ha.
      unfold index_of_session in *. rewrite Hi in *.
      rewrite Z.geb_leb in Hge. apply Z.leb_gt in Hge. lia.
  - unfold node_order.
    destruct (workflow_nodes o) as [ | n0 rest ] eqn:Hn; [ discriminate | ].
    cbn [map]. intros [= <-].
    cbn [enter_node session_state started current_node_id set_block_index
         set_node_id index_of_session current_block_index].
    cbn [map In] in Hne.
    rewrite truthy_id by (intros H0; apply Hne; now left).
    cbn [negb after]. rewrite String.eqb_refl, weight_cons. lia.
Qed.

Lemma calls_left_bound (o : Orchestrator) (s : session) :
  NoDup (node_order o) ->
  (calls_left o s < enough_depth o s)%nat.
Proof.
  intros Hnd. unfold calls_left, enough_depth.
  destruct (started s); cbn [negb]; [ | lia ].
  destruct (current_node_id s) as [ [ | | | | id | | ] | ]; try lia.
  destruct (after (workflow_nodes o) id) as [ [nd post] | ] eqn:Ha; [ | lia ].
  destruct (after_split _ _ _ _ Ha) as (pre & -> & _ & _).
  rewrite weight_app, weight_cons. lia.
Qed.

Lemma get_next_step_or_enough (o : Orchestrator) :
  NoDup (node_order o) ->
  ~ In "" (node_order o) ->
  forall (m : nat) (w : world) (d1 d2 : nat) (b1 b2 : M (list dict)),
    (calls_left o (session_state w) <= m)%nat ->
    (m < d1)%nat -> (m < d2)%nat ->
    get_next_step_or b1 d1 o w = get_next_step_or b2 d2 o w.
Proof.
  intros Hnd Hne. induction m as [ | m IH ]; intros w d1 d2 b1 b2 Hm H1 H2;
    (destruct d1 as [ | d1 ]; [ lia | ]); (destruct d2 as [ | d2 ]; [ lia | ]);
    cbn [get_next_step_or];
    apply get_next_step_body_congruence; intros w' Hw';
    pose proof (next_call_decreases o w w' Hnd Hne Hw') as Hlt.
  - lia.
  - apply IH; lia.
Qed.

(** With [RecursionError] at the bottom it is [get_next_step]. *)
Lemma get_next_step_or_raise (o : Orchestrator) (depth : nat) (w : world) :
  get_next_step_or (raise RecursionError) depth o w = get_next_step depth o w.
Proof.
  revert w. induction depth as [ | depth IH ]; intros w; [ reflexivity | ].
  cbn [get_next_step_or get_next_step].
  apply get_next_step_body_congruence. intros w' _. apply IH.
Qed.

(** X24. The recursion of [get_next_step] is bounded by the size of the
    workflow. Where no node identifier is declared twice and none is
    empty, a step nests at most one call per block and one per node, two
    more for the start, and as many more as the block index lies below
    zero. With that much depth the depth is never exhausted: whatever
    computation is put in the place of the [RecursionError] of an
    exhausted depth, the outcome of the step (the actions or the
    exception, and the session left) is the same; and it is the same at
    every greater depth. *)
Theorem get_next_step_depth_bounded (o : Orchestrator) (w : world)
    (depth : nat) :
  NoDup (node_order o) ->
  ~ In "" (node_order o) ->
  (enough_depth o (session_state w) <= depth)%nat ->
  (forall bottom : M (list dict),
     get_next_step_or bottom depth o w = get_next_step depth o w)
  /\ (forall d : nat,
        (enough_depth o (session_state w) <= d)%nat ->
        get_next_step d o w = get_next_step depth o w).
Proof.
  intros Hnd Hne Hd.
  pose proof (calls_left_bound o (session_state w) Hnd) as Hb.
  split.
  - intros bottom. rewrite <- get_next_step_or_raise.
    apply (get_next_step_or_enough o Hnd Hne (calls_left o (session_state w)));
      lia.
  - intros d H. rewrite <- !get_next_step_or_raise.
    apply (get_next_step_or_enough o Hnd Hne (calls_left o (session_state w)));
      lia.
Qed.

Lemma get_next_step_empty_first (o : Orchestrator) (rest : list string) :
  node_order o = "" :: rest ->
  forall (depth : nat) (w : world),
    started (session_state w) = false ->
    fst (get_next_step depth o w) = Raise RecursionError.
Proof.
  intros Ho. induction depth as [ | depth IH ]; intros w Hs; [ reflexivity | ].
  destruct (workflow_nodes o) as [ | nd nodes ] eqn:Hn;
    [ unfold node_order in Ho; rewrite Hn in Ho; discriminate | ].
  rewrite (get_next_step_start depth o w nd nodes Hs Hn).
  unfold node_order in Ho. rewrite Hn in Ho. cbn [map] in Ho.
  injection Ho as Hid _. rewrite Hid. apply IH. reflexivity.
Qed.

(** X25. A workflow whose first node has the empty identifier cannot be
    started: the session is placed at that node, is taken as not started
    again, and the step calls itself without end. At every depth a step
    from a session that has not started ends in [RecursionError]. *)
Theorem get_next_step_empty_first_id (o : Orchestrator) (rest : list string)
    (depth : nat) (w : world) :
  node_order o = "" :: rest ->
  started (session_state w) = false ->
  fst (get_next_step depth o w) = Raise RecursionError
  /\ started (session_state (snd (get_next_step depth o w))) = false.
Proof.
  intros Ho Hs. split; [ now apply (get_next_step_empty_first o rest Ho) | ].
  revert w Hs. induction depth as [ | depth IH ]; intros w Hs; [ exact Hs | ].
  destruct (workflow_nodes o) as [ | nd nodes ] eqn:Hn;
    [ unfold node_order in Ho; rewrite Hn in Ho; discriminate | ].
  rewrite (get_next_step_start depth o w nd nodes Hs Hn).
  unfold node_order in Ho. rewrite Hn in Ho. cbn [map] in Ho.
  injection Ho as Hid _. rewrite Hid. apply IH. reflexivity.
Qed.

End DepthFacts.

(** ** CONDITION blocks *)

Section ConditionBlockFacts.
Context {E : Env}.
Local Open Scope Z_scope.

Lemma condition_actions_selected (rules : list rule) (vars : dict) :
  rules <> [] ->
  forallb (evaluates vars) rules = true ->
  condition_actions rules vars = Ok (selected rules vars).
Proof.
  intros Hne He. unfold condition_actions, selected.
  rewrite (first_true_rule_find rules vars He). cbn [bind_result].
  destruct (find (holds vars) rules) as [ r | ]; [ reflexivity | ].
  destruct (exists_last Hne) as (init & final_rule & ->).
  now rewrite list_getitem_last, last_last.
Qed.

Lemma condition_actions_raise (before after : list rule) (r : rule)
    (vars : dict) (e : exn) :
  forallb (fails vars) before = true ->
  _evaluate_structured_condition r vars = Raise e ->
  condition_actions (before ++ r :: after)%list vars = Raise e.
Proof.
  intros Hb Hr. unfold condition_actions.
  replace (first_true_rule (before ++ r :: after)%list vars)
    with (@Raise (option rule) e); [ reflexivity | ].
  symmetry. induction before as [ | q before IH ]; cbn [app first_true_rule].
  - now rewrite Hr.
  - cbn [forallb] in Hb. apply andb_prop in Hb as [Hq Hb].
    destruct (fails_holds q vars Hq) as [He Hh].
    rewrite (evaluate_is_holds q vars He), Hh. cbn [bind_result].
    exact (IH Hb).
Qed.

(** X26. A CONDITION block with rules, on each of which the evaluator
    returns, is decided by the first rule that holds: its [then] list is
    performed, and when no rule holds the [else] list of the last rule
    is; the [else] lists of the other rules play no part. When the list
    so selected is empty the block is passed over and the step goes on
    with the next block. When the evaluator raises on a rule that is
    reached (the rules before it are false), the exception leaves
    [get_next_step] and the session is as it was. *)
Theorem get_next_step_condition_block (depth : nat) (o : Orchestrator) (w : world)
    (blk : block) (rules : list rule) (i : Z) :
  current_block o (session_state w) = Some blk ->
  current_block_index (session_state w) = Some i ->
  dict_get (block_fields blk) "type" = Some (VStr "CONDITION") ->
  block_rules blk = Some rules ->
  rules <> [] ->
  (forallb (evaluates (variables_of (session_state w))) rules = true ->
   get_next_step (S depth) o w
   = match selected rules (variables_of (session_state w)) with
     | [] => get_next_step depth o (advance_world w)
     | actions => perform o (variables_of (session_state w)) actions w
     end)
  /\ (forall before r after e,
        rules = (before ++ r :: after)%list ->
        forallb (fails (variables_of (session_state w))) before = true ->
        _evaluate_structured_condition r (variables_of (session_state w))
        = Raise e ->
        get_next_step (S depth) o w = (Raise e, w)).
Proof.
  intros Hblk Hi Hty Hr Hne. split.
  - intros He.
    pose proof (condition_actions_selected rules (variables_of (session_state w))
                  Hne He) as Hc.
    destruct (selected rules (variables_of (session_state w))) as [ | a l ].
    + exact (get_next_step_condition_skip depth o w blk rules i Hblk Hi Hty Hr Hc).
    + exact (get_next_step_condition_perform depth o w blk rules a l Hblk Hty Hr Hc).
  - intros before r after e -> Hb He.
    rewrite (get_next_step_at_block depth o w blk Hblk).
    unfold inspect_block, dict_getitem. rewrite Hty, Hr.
    unfold bind at 1. unfold lift at 1. cbn [is_str String.eqb Ascii.eqb Bool.eqb].
    unfold bind at 1. unfold lift at 1. cbv beta iota.
    unfold bind at 1. unfold lift at 1.
    now rewrite (condition_actions_raise before after r _ e Hb He).
Qed.

End ConditionBlockFacts.

(** * The statements on the sample documents *)

#[local] Existing Instance Sample.env.
#[local] Open Scope Z_scope.

(** A rule whose variable is a list, as a YAML document can give it. *)
Lemma evaluate_structured_condition_raises_witness :
  _evaluate_structured_condition
    (mkRule (Some (VList [VStr "a"])) (Some (VStr "equals")) (Some (VStr "x"))
            None None)
    []
  = Raise TypeError.
Proof.
  exact (proj1 (evaluate_structured_condition_raises
                  (mkRule (Some (VList [VStr "a"])) (Some (VStr "equals"))
                          (Some (VStr "x")) None None)
                  [])
               eq_refl eq_refl).
Defined.

(** A numeric operator on a text that is no number: false, nothing raised. *)
Example numeric_operator_on_text :
  _evaluate_structured_condition
    (mkRule (Some (VStr "x")) (Some (VStr "greater_than")) (Some (VStr "1"))
            None None)
    [("x", VStr "abc")]
  = Ok false.
Proof. reflexivity. Qed.

(** A list passed through a single placeholder, a name with an accented
    letter, and a mixed text with a bound, an unbound and a null name. *)
Lemma interpolate_with_types_preserves_type_witness :
  _interpolate_with_types (VStr "  {Order List} ")
    [("Order List", VList [VInt 1; VInt 2])]
  = VList [VInt 1; VInt 2]
  /\ _interpolate_with_types (VStr ("{caf" ++ String "233"%char "}"))
       [("caf" ++ String "233"%char "", VInt 5)]
     = VInt 5
  /\ interpolate_text "Hi {Name}, {Missing} and {Nothing}."
       [("Name", VStr "Alice"); ("Nothing", VNone)]
     = "Hi Alice, {Missing} and {Nothing}.".
Proof.
  destruct interpolate_with_types_preserves_type as (_ & _ & Hone & _ & Htext).
  split; [|split].
  - apply (Hone _ "Order List"); reflexivity.
  - apply (Hone _ ("caf" ++ String "233"%char "")); reflexivity.
  - apply (Htext [Lit "Hi "; Hole "Name"; Lit ", "; Hole "Missing"; Lit " and ";
                  Hole "Nothing"; Lit "."]); reflexivity.
Defined.

(** C8 as stated fails: a value that reads as a placeholder is
    interpolated again, and so is a placeholder that a value completes from
    a brace of the text. In both texts the claim has the second placeholder
    alone replaced by the text of its value. *)
Lemma interpolation_reads_values_again :
  render [Hole "A"; Lit " "; Hole "B"] = "{A} {B}"
  /\ render (map (fill [("A", VStr "{B}"); ("B", VStr "x")])
                 [Hole "A"; Lit " "; Hole "B"])
     = "{B} x"
  /\ interpolate_text "{A} {B}" [("A", VStr "{B}"); ("B", VStr "x")] = "x x"
  /\ interpolate_text "{A} {B}" [("A", VStr "{B}"); ("B", VStr "x")] <> "{B} x"
  /\ interpolate_text "{x {A} {x y}" [("A", VStr "y}"); ("x y", VStr "Z")] = "Z Z"
  /\ interpolate_text "{x {A} {x y}" [("A", VStr "y}"); ("x y", VStr "Z")]
     <> "{x y} Z".
Proof. repeat split; discriminate. Qed.

(** A name bound to null, alone and inside a text. *)
Lemma interpolate_null_binding_witness :
  _interpolate_with_types (VStr "{N}") [("N", VNone)] = VNone
  /\ interpolate_variables (VStr "{N}") [("N", VNone)] = VStr "{N}"
  /\ interpolate_text "a {N} b" [("N", VNone)] = "a {N} b".
Proof.
  destruct (interpolate_null_binding [("N", VNone)] "N" eq_refl eq_refl)
    as (H1 & H2 & _ & H3).
  split; [ exact H1 | ]. split; [ exact H2 | ].
  exact (H3 "a " " b" eq_refl eq_refl).
Defined.


(** The answer to the pending action of the greeting workflow. *)
Lemma process_user_response_effect_witness :
  exists i,
    Some 1 = Some i
    /\ process_user_response "uuid-0" (VStr "Alice")
         (mkWorld (mkSession (Some (VStr "n1")) (Some 1) None
                             (Some [("type", VStr "AWAIT_USER_INPUT");
                                    ("target", VStr "Name"); ("id", VStr "uuid-0")]))
                  1)
       = (Ok tt,
          mkWorld (mkSession (Some (VStr "n1")) (Some (i + 1))
                             (Some [("Name", VStr "Alice")]) None)
                  1).
Proof.
  refine (proj1 (proj2 (process_user_response_effect "uuid-0" (VStr "Alice")
                          (mkWorld (mkSession (Some (VStr "n1")) (Some 1) None
                                      (Some [("type", VStr "AWAIT_USER_INPUT");
                                             ("target", VStr "Name");
                                             ("id", VStr "uuid-0")]))
                                   1)))
            _ "Name" _ eq_refl eq_refl eq_refl _).
  - intros _. now exists 1.
  - discriminate.
Defined.

(** The tie-break and the fallback of a CONDITION block, on the rules
    [x = 1 then A] and [x = 2 then B else C]. *)
Example condition_tie_break_and_fallback :
  condition_actions Sample.two_rules [("x", VStr "2")] = Ok [[("type", VStr "B")]]
  /\ condition_actions Sample.two_rules [("x", VStr "9")] = Ok [[("type", VStr "C")]]
  /\ condition_actions Sample.two_rules [("x", VStr "1")] = Ok [[("type", VStr "A")]].
Proof.
  split; [ | split ].
  - exact (condition_actions_first_match [Sample.x_is_1] [] Sample.x_is_2
             [("x", VStr "2")] eq_refl eq_refl).
  - exact (condition_actions_no_match [Sample.x_is_1] Sample.x_is_2
             [("x", VStr "9")] eq_refl).
  - exact (condition_actions_first_match [] [Sample.x_is_2] Sample.x_is_1
             [("x", VStr "1")] eq_refl eq_refl).
Qed.

(** The AWAIT_USER_INPUT block of the greeting workflow. *)
Lemma get_next_step_await_user_input_witness :
  get_next_step 1 (mkOrchestrator Sample.greeting None) (Sample.at_block "n1" 1 [])
  = (Ok [[("type", VStr "AWAIT_USER_INPUT"); ("target", VStr "Name");
          ("id", VStr "uuid-0")]],
     mkWorld (mkSession (Some (VStr "n1")) (Some 2) (Some [])
                (Some [("type", VStr "AWAIT_USER_INPUT"); ("target", VStr "Name");
                       ("id", VStr "uuid-0")]))
             1).
Proof.
  exact (proj1 (get_next_step_await_user_input 0
                  (mkOrchestrator Sample.greeting None)
                  (Sample.at_block "n1" 1 []) Sample.await_name 1
                  eq_refl eq_refl eq_refl)).
Defined.

(** The scenario of the question in the greeting workflow: after the
    AWAIT_USER_INPUT block at index 1 is emitted, the index is 2. *)
Lemma await_user_input_moves_index :
  current_block (mkOrchestrator Sample.greeting None)
    (session_state (Sample.at_block "n1" 1 [])) = Some Sample.await_name
  /\ current_block_index
       (session_state
          (snd (get_next_step 5 (mkOrchestrator Sample.greeting None)
                  (Sample.at_block "n1" 1 []))))
     = Some 2
  /\ current_block_index
       (session_state
          (snd (get_next_step 5 (mkOrchestrator Sample.greeting None)
                  (Sample.at_block "n1" 1 []))))
     <> current_block_index (session_state (Sample.at_block "n1" 1 [])).
Proof. repeat split. discriminate. Qed.

(** An append to a variable that holds a string. *)
Lemma get_next_step_append_to_non_list_witness :
  get_next_step 1 (mkOrchestrator (Sample.single Sample.append_item) None)
    (Sample.at_block "n1" 0 [("Items", VStr "a")])
  = (Raise AttributeError,
     mkWorld (mkSession (Some (VStr "n1")) (Some 1) (Some [("Items", VStr "a")]) None)
             0).
Proof.
  apply (get_next_step_append_to_non_list 0
           (mkOrchestrator (Sample.single Sample.append_item) None)
           (Sample.at_block "n1" 0 [("Items", VStr "a")])
           Sample.append_item 0 "Items" (VStr "b") (VStr "a"));
    reflexivity.
Defined.



(** An ANALYZE_RESPONSE block whose criteria tool raises. *)
Lemma get_next_step_analyze_response_tool_raises_witness :
  get_next_step 1
    (mkOrchestrator (Sample.single Sample.analyze_reply) (Some Sample.failing_registry))
    (Sample.at_block "n1" 0 [])
  = (Raise (ToolError "boom"),
     mkWorld (mkSession (Some (VStr "n1")) (Some 1) (Some []) None) 0).
Proof.
  apply (get_next_step_analyze_response_tool_raises 0
           (mkOrchestrator (Sample.single Sample.analyze_reply)
                           (Some Sample.failing_registry))
           (Sample.at_block "n1" 0 []) Sample.analyze_reply 0
           (VStr "maybe") (VStr "Is No") "is_a_no"
           Sample.failing_registry Sample.failing_tool (ToolError "boom"));
    solve [ reflexivity | discriminate ].
Defined.

(** A CONDITION block with no rule at all. *)
Lemma get_next_step_condition_without_rules_witness :
  get_next_step 1
    (mkOrchestrator (Sample.single Sample.condition_without_rules) None)
    (Sample.at_block "n1" 0 [])
  = (Raise IndexError, Sample.at_block "n1" 0 []).
Proof.
  apply (get_next_step_condition_without_rules 0
           (mkOrchestrator (Sample.single Sample.condition_without_rules) None)
           (Sample.at_block "n1" 0 []) Sample.condition_without_rules);
    reflexivity.
Defined.

(** ** Further statements on the sample documents *)


(** Past the two blocks of the first node: the step goes on in the second. *)
Lemma get_next_step_next_node_witness :
  get_next_step 2 (Demo.engine Sample.greeting) (Sample.at_block "n1" 2 [])
  = (Ok END_WORKFLOW,
     mkWorld (mkSession (Some (VStr "n2")) (Some 1) (Some []) None) 0).
Proof.
  rewrite (get_next_step_next_node 1 (Demo.engine Sample.greeting)
             (Sample.at_block "n1" 2 []) (VStr "n1") Demo.first_node 0 "n2"
             eq_refl eq_refl eq_refl
             ltac:(vm_compute; discriminate) eq_refl eq_refl eq_refl).
  reflexivity.
Defined.

(** The jump of the first node of [Demo.jumping]. *)
Lemma get_next_step_goto_node_witness :
  get_next_step 1 (Demo.engine Demo.jumping) (Sample.at_block "n0" 0 [])
  = (Ok [], Sample.at_block "n2" 0 []).
Proof.
  exact (get_next_step_goto_node 0 (Demo.engine Demo.jumping)
           (Sample.at_block "n0" 0 []) Demo.jump eq_refl eq_refl).
Defined.


Lemma get_next_step_returns_client_actions_witness :
  is_str (action_type (block_fields Demo.hello)) "SET_VARIABLE" = false
  /\ is_str (action_type (block_fields Demo.hello)) "UPDATE_VARIABLE" = false
  /\ is_str (action_type (block_fields Demo.hello)) "ANALYZE_RESPONSE" = false.
Proof.
  apply (get_next_step_returns_client_actions 1 (Demo.engine Sample.greeting)
           (Sample.at_block "n1" 0 []) (Sample.at_block "n1" 1 [])
           [block_fields Demo.hello] (block_fields Demo.hello)).
  - reflexivity.
  - left. reflexivity.
Defined.

(** The session two steps into the greeting workflow waits for an answer
    and stores its index. *)
Lemma reachable_sessions_store_index_witness :
  exists i,
    current_block_index
      (session_state
         (snd (get_next_step 3 (Demo.engine Sample.greeting)
                 (snd (get_next_step 3 (Demo.engine Sample.greeting) Demo.fresh)))))
    = Some i.
Proof.
  apply (reachable_sessions_store_index (Demo.engine Sample.greeting)).
  - apply reach_next, reach_next. exact (reach_fresh _ 0).
  - left. reflexivity.
Defined.

Lemma process_user_response_returns_witness :
  fst (process_user_response "uuid-0" (VStr "Alice")
         (snd (get_next_step 3 (Demo.engine Sample.greeting)
                 (snd (get_next_step 3 (Demo.engine Sample.greeting) Demo.fresh)))))
  = Ok tt.
Proof.
  apply (process_user_response_returns (Demo.engine Sample.greeting)).
  - apply reach_next, reach_next. exact (reach_fresh _ 0).
  - intros p H. vm_compute in H. injection H as <-. reflexivity.
Defined.

(** The question of the greeting workflow and its answer. *)
Lemma await_then_respond_witness :
  process_user_response "uuid-0" (VStr "Alice")
    (snd (get_next_step 1 (Demo.engine Sample.greeting) (Sample.at_block "n1" 1 [])))
  = (Ok tt,
     mkWorld (mkSession (Some (VStr "n1")) (Some 3) (Some [("Name", VStr "Alice")]) None)
             1).
Proof.
  exact (await_then_respond 0 (Demo.engine Sample.greeting)
           (Sample.at_block "n1" 1 []) Sample.await_name 1 "Name" (VStr "Alice")
           eq_refl eq_refl eq_refl eq_refl ltac:(discriminate)).
Defined.

(** A second answer, under the same identifier, changes nothing. *)
Lemma answered_once_witness :
  process_user_response "uuid-0" (VStr "Bob")
    (snd (process_user_response "uuid-0" (VStr "Alice") Demo.asked))
  = (Ok tt, snd (process_user_response "uuid-0" (VStr "Alice") Demo.asked)).
Proof.
  apply (answered_once Demo.asked "uuid-0" "uuid-0" (VStr "Alice") (VStr "Bob")).
  - intros p H. injection H as <-. reflexivity.
  - reflexivity.
Defined.

(** A text with an unbound placeholder and a stray brace. *)
Lemma interpolate_text_unbound_witness :
  interpolate_text "Hi {Name} {" [("Other", VStr "x")] = "Hi {Name} {".
Proof.
  apply (proj1 (interpolate_text_unbound "Hi {Name} {" [("Other", VStr "x")]
                  ltac:(intros n [<- | []]; left; reflexivity))).
Defined.

(** A call without arguments, a call on a literal, which is read as the
    integer, and a call on a text that is no literal. *)
Lemma parse_function_call_of_call_witness :
  parse_function_call "ping()" = (Some "ping", [])
  /\ parse_function_call "check_order( 42 )" = (Some "check_order", [VInt 42])
  /\ parse_function_call "greet(hello there)"
     = (Some "greet", [VStr "hello there"]).
Proof.
  split; [ | split ].
  - exact (proj1 (parse_function_call_of_call "ping" "" eq_refl eq_refl) eq_refl).
  - exact (proj1 (proj2 (parse_function_call_of_call "check_order" " 42 "
                           eq_refl eq_refl))
                 [VInt 42] ltac:(discriminate) eq_refl).
  - exact (proj2 (proj2 (parse_function_call_of_call "greet" "hello there"
                           eq_refl eq_refl))
                 ltac:(discriminate) eq_refl).
Defined.


(** The echo callable, registered and called through a text; and a
    callable whose registration raises, called all the same. *)
Lemma execute_tool_call_registered_witness :
  execute_tool_call (VStr "echo({N})") [("N", VInt 4)]
    (tools (snd (register empty_registry "echo" Demo.echo "" "tools" None)))
  = Ok (VList [VInt 4])
  /\ fst (register empty_registry "opaque" Demo.opaque "" "tools" None)
     = Raise ValueError
  /\ execute_tool_call (VStr "opaque('a')") []
       (tools (snd (register empty_registry "opaque" Demo.opaque "" "tools" None)))
     = Ok (VList [VStr "a"]).
Proof.
  split; [ | split ].
  - exact (proj1 (execute_tool_call_registered empty_registry "echo" Demo.echo
                    "" "tools" None "echo({N})" "4" [("N", VInt 4)]
                    eq_refl eq_refl eq_refl)).
  - reflexivity.
  - exact (proj1 (execute_tool_call_registered empty_registry "opaque" Demo.opaque
                    "" "tools" None "opaque('a')" "'a'" []
                    eq_refl eq_refl eq_refl)).
Defined.

(** A registration that raises leaves the name callable and without a
    definition. *)
Lemma register_lookup_witness :
  has_tool (tools (snd (register empty_registry "opaque" Demo.opaque "" "tools" None)))
    (VStr "opaque") = Ok true
  /\ get_tool_definition
       (snd (register empty_registry "opaque" Demo.opaque "" "tools" None)) "opaque"
     = None.
Proof.
  destruct (register_lookup empty_registry "opaque" Demo.opaque "" "tools" None [] [])
    as (H1 & _ & _ & _ & H5 & _).
  split; [ exact H1 | exact (H5 ValueError eq_refl) ].
Defined.

(** The catalogue after a registration that raises and one that returns. *)
Lemma register_all_catalogue_witness :
  map definition_id
    (list_tools
       (register_all [mkRegistration "opaque" Demo.opaque "" "tools" None;
                      mkRegistration "echo" Demo.echo "" "tools" None]))
  = ["echo"]
  /\ map fst
       (tools
          (register_all [mkRegistration "opaque" Demo.opaque "" "tools" None;
                         mkRegistration "echo" Demo.echo "" "tools" None]))
     = ["opaque"; "echo"]
  /\ NoDup
       (map definition_id
          (list_tools
             (register_all [mkRegistration "opaque" Demo.opaque "" "tools" None;
                            mkRegistration "echo" Demo.echo "" "tools" None]))).
Proof.
  split; [ reflexivity | ]. split; [ reflexivity | ].
  exact (proj1 (register_all_catalogue
                  [mkRegistration "opaque" Demo.opaque "" "tools" None;
                   mkRegistration "echo" Demo.echo "" "tools" None])).
Defined.

(** Two appends to a list of one element. *)
Lemma appends_accumulate_witness :
  exists w',
    _process_actions_internally (Demo.engine [])
      [Demo.append_to_items (VStr "b"); Demo.append_to_items (VStr "c")]
      (Sample.at_block "n1" 0 [("Items", VList [VStr "a"])])
    = (Ok [], w')
    /\ get_variable (session_state w') "Items" VNone
       = VList [VStr "a"; VStr "b"; VStr "c"].
Proof.
  destruct (appends_accumulate (Demo.engine []) "Items" [VStr "b"; VStr "c"]
              [Demo.append_to_items (VStr "b"); Demo.append_to_items (VStr "c")]
              [VStr "a"]
              (Sample.at_block "n1" 0 [("Items", VList [VStr "a"])])
              ltac:(repeat constructor) eq_refl eq_refl ltac:(discriminate))
    as (w' & H1 & H2 & _).
  exists w'. split; [ exact H1 | exact H2 ].
Defined.

Lemma update_variable_agrees_with_registry_witness :
  update_variable (VStr "Items") (VStr "b") (VStr "append")
    (Sample.at_block "n1" 0 [("Items", VList [VStr "a"]); ("X", VStr "b")])
  = (Ok tt,
     Sample.at_block "n1" 0 [("Items", VList [VStr "a"; VStr "b"]); ("X", VStr "b")]).
Proof.
  exact (proj1 (update_variable_agrees_with_registry "Items" (VStr "{X}")
                  [VStr "a"]
                  (Sample.at_block "n1" 0
                     [("Items", VList [VStr "a"]); ("X", VStr "b")])
                  eq_refl)).
Defined.

(** The greeting workflow has three blocks in two nodes: at a depth of
    seven a step from the start does not reach the bottom, whatever stands
    there. The workflow whose first node has no identifier does, at every
    depth. *)
Lemma get_next_step_depth_bounded_witness :
  get_next_step_or (ret []) 7 (Demo.engine Sample.greeting) Demo.fresh
  = get_next_step 7 (Demo.engine Sample.greeting) Demo.fresh
  /\ get_next_step 1000 (Demo.engine Sample.greeting) Demo.fresh
     = get_next_step 7 (Demo.engine Sample.greeting) Demo.fresh
  /\ fst (get_next_step_or (ret []) 7 (Demo.engine Demo.nameless) Demo.fresh)
     <> fst (get_next_step 7 (Demo.engine Demo.nameless) Demo.fresh).
Proof.
  assert (H : (forall bottom : M (list dict),
                 get_next_step_or bottom 7 (Demo.engine Sample.greeting) Demo.fresh
                 = get_next_step 7 (Demo.engine Sample.greeting) Demo.fresh)
              /\ (forall d : nat,
                    (enough_depth (Demo.engine Sample.greeting)
                       (session_state Demo.fresh) <= d)%nat ->
                    get_next_step d (Demo.engine Sample.greeting) Demo.fresh
                    = get_next_step 7 (Demo.engine Sample.greeting) Demo.fresh)).
  { apply (get_next_step_depth_bounded (Demo.engine Sample.greeting) Demo.fresh 7).
    - repeat constructor; cbn; intuition discriminate.
    - cbn. intuition discriminate.
    - vm_compute. repeat constructor. }
  destruct H as [H1 H2]. split; [ exact (H1 (ret [])) | ]. split.
  - apply H2. vm_compute. lia.
  - discriminate.
Defined.

Lemma get_next_step_empty_first_id_witness :
  fst (get_next_step 50 (Demo.engine Demo.nameless) Demo.fresh)
  = Raise RecursionError.
Proof.
  exact (proj1 (get_next_step_empty_first_id (Demo.engine Demo.nameless)
                  ["n2"] 50 Demo.fresh eq_refl eq_refl)).
Defined.

(** The second rule holds for [x = 2]: its [then] list goes to the
    client. A rule whose variable is a list raises, and so does the step. *)
Lemma get_next_step_condition_block_witness :
  get_next_step 1 (Demo.engine (Sample.single Demo.choice))
    (Sample.at_block "n1" 0 [("x", VStr "2")])
  = (Ok [[("type", VStr "B")]], Sample.at_block "n1" 1 [("x", VStr "2")])
  /\ get_next_step 1 (Demo.engine (Sample.single Demo.unreadable))
       (Sample.at_block "n1" 0 [])
     = (Raise TypeError, Sample.at_block "n1" 0 []).
Proof.
  split.
  - exact (proj1 (get_next_step_condition_block 0
                    (Demo.engine (Sample.single Demo.choice))
                    (Sample.at_block "n1" 0 [("x", VStr "2")]) Demo.choice
                    Sample.two_rules 0
                    eq_refl eq_refl eq_refl eq_refl ltac:(discriminate))
                 eq_refl).
  - exact (proj2 (get_next_step_condition_block 0
                    (Demo.engine (Sample.single Demo.unreadable))
                    (Sample.at_block "n1" 0 []) Demo.unreadable
                    [Demo.list_rule] 0
                    eq_refl eq_refl eq_refl eq_refl ltac:(discriminate))
                 [] Demo.list_rule [] TypeError eq_refl eq_refl eq_refl).
Defined.
